(** * MLOPS_Project2: the checkpoint inspector and the training driver

    A shallow embedding of [src/verify_performance.py] and of the
    orchestration in [src/train.py], with the statements of the
    specification proved (or refuted) against it.

    Conventions.
    - A Python [str] is a [string]; a character stands for the code point
      of the same number, so the embedding covers the strings whose code
      points are below 256.
    - A Python [float] is an IEEE 754 binary64 number, [spec_float] with
      53 bits of precision; arithmetic is the correctly rounded arithmetic
      of [SpecFloat].
    - A Python [int] is a [Z].
    - [print] appends a line to the output; an exception ends the
      computation with the output printed so far. *)

From Stdlib Require Import ZArith QArith Qabs List String Ascii Bool Lia.
From Stdlib Require Import SpecFloat.
From Stdlib Require Import Sorted Permutation.
From ExtLib Require Import Structures.Monad.
Import ListNotations.
Import MonadNotation.

Local Open Scope list_scope.
Local Open Scope string_scope.
Local Open Scope Z_scope.
Local Open Scope monad_scope.

(** ** Strings *)

Module Str.

Definition chars (s : string) : list ascii := list_ascii_of_string s.
Definition of_chars (l : list ascii) : string := string_of_list_ascii l.

(** [c in s] for a one-character [c]. *)
Fixpoint contains (c : ascii) (s : string) : bool :=
  match s with
  | EmptyString => false
  | String d s' => Ascii.eqb d c || contains c s'
  end.

(** [s.split(sep)] for a one-character separator: never the empty list. *)
Fixpoint split (sep : ascii) (s : string) : list string :=
  match s with
  | EmptyString => [EmptyString]
  | String c s' =>
      if Ascii.eqb c sep then EmptyString :: split sep s'
      else match split sep s' with
           | [] => [String c EmptyString]
           | w :: ws => String c w :: ws
           end
  end.

(** [sep.join(l)]. *)
Fixpoint join (sep : string) (l : list string) : string :=
  match l with
  | [] => EmptyString
  | [s] => s
  | s :: l' => s ++ sep ++ join sep l'
  end.

(** [s.rfind(c)]: the index of the last occurrence, [None] for -1. *)
Fixpoint rfind (c : ascii) (s : string) : option nat :=
  match s with
  | EmptyString => None
  | String d s' =>
      match rfind c s' with
      | Some i => Some (S i)
      | None => if Ascii.eqb d c then Some O else None
      end
  end.

(** [s[:n]]. *)
Fixpoint take (n : nat) (s : string) : string :=
  match n, s with
  | S n', String c s' => String c (take n' s')
  | _, _ => EmptyString
  end.

(** [s.endswith(suffix)]. *)
Definition endswith (suffix s : string) : bool :=
  let n := String.length s in
  let k := String.length suffix in
  Nat.leb k n && String.eqb (substring (n - k) k s) suffix.

(** [c * n]. *)
Fixpoint repeat (c : ascii) (n : nat) : string :=
  match n with
  | O => EmptyString
  | S n' => String c (repeat c n')
  end.

(** The format specification [<w]: pad with spaces on the right. *)
Definition ljust (w : nat) (s : string) : string :=
  s ++ repeat " "%char (w - String.length s).

(** The format specification [0>w] on a digit string. *)
Definition zfill (w : nat) (s : string) : string :=
  repeat "0"%char (w - String.length s) ++ s.

End Str.

(** ** Numbers *)

Module Num.

Definition is_digit (c : ascii) : bool :=
  let n := nat_of_ascii c in (Nat.leb 48 n && Nat.leb n 57)%bool.

Definition digit_val (c : ascii) : Z := Z.of_nat (nat_of_ascii c) - 48.

(** The characters [int()] and [float()] strip: the C locale's white space,
    and the two Unicode spaces below 256, which the interpreter turns into
    blanks before it parses. *)
Definition is_space (c : ascii) : bool :=
  let n := nat_of_ascii c in
  ((Nat.leb 9 n && Nat.leb n 13) || Nat.eqb n 32 || Nat.eqb n 133 || Nat.eqb n 160)%bool.

Fixpoint lstrip (l : list ascii) : list ascii :=
  match l with
  | c :: l' => if is_space c then lstrip l' else l
  | [] => []
  end.

Definition strip (l : list ascii) : list ascii := rev (lstrip (rev (lstrip l))).

(** Underscores are dropped; each one has to stand between two digits.
    [prev] is the character before the head of [l]. *)
Fixpoint drop_underscores (prev : ascii) (l : list ascii) : option (list ascii) :=
  match l with
  | [] => if Ascii.eqb prev "_" then None else Some []
  | c :: l' =>
      if Ascii.eqb c "_" then
        if is_digit prev then drop_underscores c l' else None
      else if (Ascii.eqb prev "_" && negb (is_digit c))%bool then None
      else option_map (cons c) (drop_underscores c l')
  end.

(** The longest prefix of digits and what follows it. *)
Fixpoint span_digits (l : list ascii) : list ascii * list ascii :=
  match l with
  | c :: l' =>
      if is_digit c then let '(ds, r) := span_digits l' in (c :: ds, r)
      else ([], l)
  | [] => ([], [])
  end.

(** The number a digit string denotes, most significant digit first. *)
Definition digits_val (ds : list ascii) : Z :=
  fold_left (fun acc c => 10 * acc + digit_val c) ds 0.

(** An optional sign: [true] for minus. *)
Definition take_sign (l : list ascii) : bool * list ascii :=
  match l with
  | c :: l' =>
      if Ascii.eqb c "-" then (true, l')
      else if Ascii.eqb c "+" then (false, l')
      else (false, l)
  | [] => (false, [])
  end.

(** [sys.int_info.default_max_str_digits] *)
Definition max_str_digits : nat := 4300.

(** [int(s)] in base ten; [None] is [ValueError]. *)
Definition py_int (s : string) : option Z :=
  let '(neg, body) := take_sign (strip (Str.chars s)) in
  match drop_underscores " " body with
  | None => None
  | Some ds =>
      match span_digits ds with
      | (_ :: _, []) =>
          if Nat.ltb max_str_digits (List.length ds) then None
          else Some (if neg then - digits_val ds else digits_val ds)
      | _ => None
      end
  end.

End Num.

(** ** Binary64 *)

Module Float.

Definition prec : Z := 53.
Definition emax : Z := 1024.

Definition float : Set := spec_float.

Definition sub : float -> float -> float := SFsub prec emax.
Definition mul : float -> float -> float := SFmul prec emax.
Definition div : float -> float -> float := SFdiv prec emax.
Definition abs : float -> float := SFabs.
Definition ltb : float -> float -> bool := SFltb.
Definition leb : float -> float -> bool := SFleb.

Definition pos_inf : float := S754_infinity false.

(** The float nearest to [n / d] (ties to even), with the sign [neg]. *)
Definition of_ratio (neg : bool) (n d : positive) : float :=
  let '(mz, ez, lz) := SFdiv_core_binary prec emax (Zpos n) 0 (Zpos d) 0 in
  binary_round_aux prec emax neg mz ez lz.

(** The float nearest to [m * 10 ^ e]. *)
Definition of_decimal (neg : bool) (m : Z) (e : Z) : float :=
  match m with
  | Zpos p =>
      if 0 <=? e then of_ratio neg (p * Z.to_pos (10 ^ e)) 1
      else of_ratio neg p (Z.to_pos (10 ^ (- e)))
  | _ => S754_zero neg
  end.

(** The float nearest to the integer [n]; it is infinite when [n] is out
    of range. *)
Definition of_Z (n : Z) : float := binary_normalize prec emax n 0 false.

Definition is_finite (f : float) : bool :=
  match f with
  | S754_zero _ | S754_finite _ _ _ => true
  | _ => false
  end.

Definition is_nan (f : float) : bool :=
  match f with S754_nan => true | _ => false end.

Definition sign_bit (f : float) : bool :=
  match f with
  | S754_zero s | S754_infinity s | S754_finite s _ _ => s
  | S754_nan => false
  end.

Definition lower (c : ascii) : ascii :=
  let n := nat_of_ascii c in
  if (Nat.leb 65 n && Nat.leb n 90)%bool then ascii_of_nat (n + 32) else c.

(** [inf], [infinity] and [nan], in any case. *)
Definition parse_inf_nan (neg : bool) (l : list ascii) : option float :=
  let w := Str.of_chars (map lower l) in
  if (String.eqb w "inf" || String.eqb w "infinity")%bool then Some (S754_infinity neg)
  else if String.eqb w "nan" then Some S754_nan
  else None.

(** The exponent part: nothing, or [e] or [E], an optional sign and at
    least one digit, up to the end of the string. *)
Definition parse_exponent (l : list ascii) : option Z :=
  match l with
  | [] => Some 0
  | c :: l' =>
      if (Ascii.eqb c "e" || Ascii.eqb c "E")%bool then
        let '(neg, l'') := Num.take_sign l' in
        match Num.span_digits l'' with
        | ((_ :: _) as ds, []) =>
            Some (if neg then - Num.digits_val ds else Num.digits_val ds)
        | _ => None
        end
      else None
  end.

(** A decimal number: digits, an optional point and digits, with a digit
    on one side of the point at least, and an optional exponent. *)
Definition parse_decimal (neg : bool) (l : list ascii) : option float :=
  let '(ip, r1) := Num.span_digits l in
  let '(fp, r2) :=
    match r1 with
    | c :: r => if Ascii.eqb c "." then Num.span_digits r else ([], r1)
    | [] => ([], [])
    end in
  match (ip ++ fp)%list with
  | [] => None
  | ds =>
      match parse_exponent r2 with
      | Some e => Some (of_decimal neg (Num.digits_val ds) (e - Z.of_nat (List.length fp)))
      | None => None
      end
  end.

(** [float(s)]; [None] is [ValueError]. *)
Definition py_float (s : string) : option float :=
  match Num.drop_underscores " " (Num.strip (Str.chars s)) with
  | None => None
  | Some l =>
      let '(neg, body) := Num.take_sign l in
      match parse_decimal neg body with
      | Some f => Some f
      | None => parse_inf_nan neg body
      end
  end.

End Float.

(** ** Paths: [pathlib.PurePosixPath] *)

Module Path.

(** A parsed path: the root ([""], ["/"] or ["//"]) and the components,
    without the empty ones and the single dots. *)
Record path : Set := { root : string; parts : list string }.

Definition is_component (p : string) : bool :=
  negb (String.eqb p "" || String.eqb p ".").

Definition parse_root (s : string) : string :=
  match s with
  | String "/" (String "/" (String "/" _)) => "/"
  | String "/" (String "/" _) => "//"
  | String "/" _ => "/"
  | _ => ""
  end.

(** [Path(s)] *)
Definition parse (s : string) : path :=
  {| root := parse_root s; parts := filter is_component (Str.split "/" s) |}.

(** [str(p)] *)
Definition str (p : path) : string :=
  match root p, parts p with
  | "", [] => "."
  | r, ps => r ++ Str.join "/" ps
  end.

(** [p / name], for the name of a directory entry. *)
Definition child (p : path) (name : string) : path :=
  {| root := root p; parts := (parts p ++ [name])%list |}.

(** [p.name]: the last component, empty when there is none. *)
Definition name (p : path) : string := last (parts p) "".

(** [p.stem]: the name without its last suffix; a dot that starts or ends
    the name starts no suffix. *)
Definition stem (p : path) : string :=
  let n := name p in
  match Str.rfind "." n with
  | Some i =>
      if (Nat.ltb 0 i && Nat.ltb i (String.length n - 1))%bool then Str.take i n else n
  | None => n
  end.

(** What the lookup of a path finds: a file; a directory with its entries
    in the order a scan returns them (none when the scan is refused for
    lack of permission, which [glob] takes for an empty directory); a
    directory whose scan fails with another error of the operating system;
    or a lookup that itself fails with an error other than those
    [exists()] and [is_dir()] take for absence, as for a name longer than
    the file system allows or a directory on the way that may not be
    searched.  The text is the message of the [OSError]. *)
Inductive node : Set :=
| File
| Dir (entries : list string)
| Unscannable (msg : string)
| Failing (msg : string).

(** The file system, by the text of the path.  [None]: the lookup reports
    that nothing is there ([ENOENT], [ENOTDIR], [EBADF], [ELOOP]). *)
Definition filesystem : Type := string -> option node.

(** [p.exists()]: the answer, or the message of the [OSError] it raises. *)
Definition exists_ (fs : filesystem) (p : path) : string + bool :=
  match fs (str p) with
  | Some (Failing msg) => inl msg
  | Some _ => inr true
  | None => inr false
  end.

(** [p.glob("*" + suffix)]: the entries of the directory [p] that end in
    [suffix]; nothing when [p] is no directory.  The directory is scanned
    as a whole before the first path is yielded, so an [OSError] comes
    before any of them. *)
Definition glob_suffix (fs : filesystem) (p : path) (suffix : string) : string + list path :=
  match fs (str p) with
  | Some (Dir entries) => inr (map (child p) (filter (Str.endswith suffix) entries))
  | Some (Unscannable msg) => inl msg
  | Some (Failing msg) => inl msg
  | _ => inr []
  end.

End Path.

(** ** Values, dictionaries, exceptions and output *)

(** The values a metric takes. *)
Inductive value : Set :=
| VInt (n : Z)
| VFloat (f : Float.float)
| VStr (s : string).

(** A [dict] with [str] keys: the items in insertion order, a key at most
    once. *)
Module Dict.

Definition t (V : Type) : Type := list (string * V).

Definition empty {V : Type} : t V := [].

(** [d.get(k)] *)
Fixpoint get {V : Type} (k : string) (d : t V) : option V :=
  match d with
  | [] => None
  | (k', v) :: d' => if String.eqb k k' then Some v else get k d'
  end.

(** [d.get(k, default)] *)
Definition get_default {V : Type} (k : string) (default : V) (d : t V) : V :=
  match get k d with Some v => v | None => default end.

(** [k in d] *)
Definition mem {V : Type} (k : string) (d : t V) : bool :=
  match get k d with Some _ => true | None => false end.

(** [d[k] = v]: a key already there keeps its place. *)
Fixpoint set {V : Type} (k : string) (v : V) (d : t V) : t V :=
  match d with
  | [] => [(k, v)]
  | (k', v') :: d' =>
      if String.eqb k k' then (k, v) :: d' else (k', v') :: set k v d'
  end.

Definition keys {V : Type} (d : t V) : list string := map fst d.

End Dict.

Inductive exn_type : Set :=
| ValueError
| TypeError
| OverflowError
| KeyError
| OSError.

Record exn : Set := { exn_kind : exn_type; exn_msg : string }.

(** A computation prints lines and then returns or raises. *)
Definition M (A : Type) : Type := list string * (exn + A).

#[export] Instance Monad_M : Monad M := {|
  ret := fun A (a : A) => ([], inr a);
  bind := fun A B (m : M A) (k : A -> M B) =>
    match m with
    | (out, inl e) => (out, inl e)
    | (out, inr a) => let '(out', r) := k a in ((out ++ out')%list, r)
    end
|}.

Definition raise {A : Type} (k : exn_type) (msg : string) : M A :=
  ([], inl {| exn_kind := k; exn_msg := msg |}).

(** A call of the operating system: its answer, or the [OSError] of the
    message. *)
Definition os_call {A : Type} (r : string + A) : M A :=
  match r with
  | inl msg => raise OSError msg
  | inr a => ret a
  end.

(** [print(line)] *)
Definition print (line : string) : M unit := ([line], inr tt).

(** [try: m  except: h] for the exceptions [catches] selects; the output of
    [m] up to the exception stays. *)
Definition try_except {A : Type} (m : M A) (catches : exn -> bool) (h : exn -> M A) : M A :=
  match m with
  | (out, inl e) => if catches e then let '(out', r) := h e in ((out ++ out')%list, r) else m
  | _ => m
  end.

(** [for x in l: body], threading the variables the body assigns. *)
Fixpoint for_each {A S : Type} (l : list A) (body : A -> S -> M S) (s : S) : M S :=
  match l with
  | [] => ret s
  | x :: l' => s' <- body x s ;; for_each l' body s'
  end.

Definition output {A : Type} (m : M A) : list string := fst m.
Definition result {A : Type} (m : M A) : exn + A := snd m.

(** ** Formatting *)

Module Fmt.

Definition nl : string := String (ascii_of_nat 10) "".

(** The UTF-8 bytes [print] writes for a string of code points below 256. *)
Fixpoint encode (s : string) : string :=
  match s with
  | EmptyString => EmptyString
  | String c s' =>
      let n := nat_of_ascii c in
      if Nat.ltb n 128 then String c (encode s')
      else String (ascii_of_nat (192 + n / 64)) (String (ascii_of_nat (128 + n mod 64)) (encode s'))
  end.

Definition digit_char (d : Z) : ascii := ascii_of_nat (48 + Z.to_nat d).

Fixpoint pos_digits (fuel : nat) (n : Z) (acc : string) : string :=
  match fuel with
  | O => acc
  | S fuel' =>
      let acc' := String (digit_char (n mod 10)) acc in
      if n <? 10 then acc' else pos_digits fuel' (n / 10) acc'
  end.

(** The decimal digits of [n >= 0]. *)
Definition nat_digits (n : Z) : string := pos_digits (S (Z.to_nat (Z.log2 n))) n "".

(** [str(n)] for an [int]. *)
Definition str_int (n : Z) : string :=
  if n <? 0 then "-" ++ nat_digits (- n) else nat_digits n.

(** [num / den] rounded to the nearest integer, ties to even; [den > 0]. *)
Definition round_half_even (num den : Z) : Z :=
  let q := num / den in
  match 2 * (num mod den) ?= den with
  | Lt => q
  | Gt => q + 1
  | Eq => if Z.even q then q else q + 1
  end.

(** [m * 2 ^ e * 10 ^ k] as a fraction. *)
Definition scale (m : positive) (e k : Z) : Z * Z :=
  (Zpos m * 2 ^ Z.max e 0 * 10 ^ Z.max k 0, 2 ^ Z.max (- e) 0 * 10 ^ Z.max (- k) 0).

Definition sign_text (plus neg : bool) : string :=
  if neg then "-" else if plus then "+" else "".

(** The presentation types [.nf] and [+.nf] of a [float]: the exact value
    rounded to [n] decimals, ties to even. *)
Definition format_f (plus : bool) (n : nat) (x : Float.float) : string :=
  match x with
  | S754_nan => sign_text plus false ++ "nan"
  | S754_infinity s => sign_text plus s ++ "inf"
  | _ =>
      let r := match x with
               | S754_finite _ m e =>
                   let '(num, den) := scale m e (Z.of_nat n) in round_half_even num den
               | _ => 0
               end in
      let ds := Str.zfill (S n) (nat_digits r) in
      let k := (String.length ds - n)%nat in
      sign_text plus (Float.sign_bit x) ++ Str.take k ds
        ++ (if Nat.eqb n 0 then "" else "." ++ substring k n ds)
  end.

Definition float_eqb (x y : Float.float) : bool :=
  match x, y with
  | S754_zero s, S754_zero s' => Bool.eqb s s'
  | S754_infinity s, S754_infinity s' => Bool.eqb s s'
  | S754_nan, S754_nan => true
  | S754_finite s m e, S754_finite s' m' e' => Bool.eqb s s' && Pos.eqb m m' && Z.eqb e e'
  | _, _ => false
  end.

(** The [k] with [10 ^ (k - 1) <= m * 2 ^ e < 10 ^ k]. *)
Definition decimal_exponent (m : positive) (e : Z) : Z :=
  let below k := let '(num, den) := scale m e (- k) in num <? den in
  let g := (Z.log2 (Zpos m) + e) * 30103 / 100000 in
  if below (g - 1) then g - 1
  else if below g then g
  else if below (g + 1) then g + 1
  else g + 2.

(** The decimal with [n] significant digits nearest to [m * 2 ^ e] among
    those [float()] reads back as [x]: its digits as an integer [c], for
    the value [c * 10 ^ (k - n)]. *)
Definition shortest_candidate (x : Float.float) (m : positive) (e k : Z) (n : Z) : option Z :=
  let '(num, den) := scale m e (n - k) in
  let lo := num / den in
  let hi := lo + 1 in
  let back c := float_eqb (Float.of_decimal false c (k - n)) (Float.abs x) in
  match back lo, back hi with
  | true, true => Some (round_half_even num den)
  | true, false => Some lo
  | false, true => Some hi
  | false, false => None
  end.

Fixpoint shortest_from (fuel : nat) (x : Float.float) (m : positive) (e k : Z) (n : Z) : Z * Z :=
  match shortest_candidate x m e k n, fuel with
  | Some c, _ => (c, k - n)
  | None, S fuel' => shortest_from fuel' x m e k (n + 1)
  | None, O => (Zpos m * 2 ^ Z.max e 0 * 5 ^ Z.max (- e) 0, Z.min e 0)
  end.

Fixpoint rstrip_zeros (fuel : nat) (c e10 : Z) : Z * Z :=
  match fuel with
  | O => (c, e10)
  | S fuel' =>
      if (0 <? c) && (c mod 10 =? 0) then rstrip_zeros fuel' (c / 10) (e10 + 1) else (c, e10)
  end.

(** [repr(x)]: the shortest digits that read back as [x], in positional
    notation when the decimal point falls within them or close by, else
    with an exponent. *)
Definition repr_float (x : Float.float) : string :=
  match x with
  | S754_nan => "nan"
  | S754_infinity s => sign_text false s ++ "inf"
  | S754_zero s => sign_text false s ++ "0.0"
  | S754_finite s m e =>
      let k := decimal_exponent m e in
      let '(c0, e0) := shortest_from 17 x m e k 1 in
      let '(c, e10) := rstrip_zeros 20 c0 e0 in
      let ds := nat_digits c in
      let n := Z.of_nat (String.length ds) in
      let decpt := e10 + n in
      sign_text false s ++
      if (decpt <=? -4) || (16 <? decpt) then
        let x10 := decpt - 1 in
        Str.take 1 ds
          ++ (if n =? 1 then "" else "." ++ substring 1 (String.length ds - 1) ds)
          ++ "e" ++ (if x10 <? 0 then "-" else "+")
          ++ Str.zfill 2 (nat_digits (Z.abs x10))
      else if decpt <=? 0 then
        "0." ++ Str.repeat "0" (Z.to_nat (- decpt)) ++ ds
      else if n <=? decpt then
        ds ++ Str.repeat "0" (Z.to_nat (decpt - n)) ++ ".0"
      else
        Str.take (Z.to_nat decpt) ds ++ "." ++ substring (Z.to_nat decpt) (String.length ds) ds
  end.

(** [str(v)], which is also what [{v}] formats. *)
Definition str_value (v : value) : string :=
  match v with
  | VInt n => str_int n
  | VFloat f => repr_float f
  | VStr s => s
  end.

End Fmt.

(** ** Arithmetic and comparison of values *)

Module Py.

Definition type_name (v : value) : string :=
  match v with
  | VInt _ => "int"
  | VFloat _ => "float"
  | VStr _ => "str"
  end.

(** [isinstance(v, (int, float))] *)
Definition is_number (v : value) : bool :=
  match v with
  | VStr _ => false
  | _ => true
  end.

(** [float(s)] and [int(s)] as computations. *)
Definition float_ (s : string) : M Float.float :=
  match Float.py_float s with
  | Some f => ret f
  | None => raise ValueError "could not convert string to float"
  end.

Definition int_ (s : string) : M Z :=
  match Num.py_int s with
  | Some n => ret n
  | None => raise ValueError "invalid literal for int() with base 10"
  end.

(** The first integer that no longer rounds to a finite float. *)
Definition float_overflow : Z := 2 ^ 1024 - 2 ^ 970.

(** The conversion of an [int] operand of float arithmetic. *)
Definition int_to_float (n : Z) : M Float.float :=
  if Z.abs n <? float_overflow then ret (Float.of_Z n)
  else raise OverflowError "int too large to convert to float".

(** [a - b] for a float [b]. *)
Definition sub_float (a : value) (b : Float.float) : M Float.float :=
  match a with
  | VFloat x => ret (Float.sub x b)
  | VInt n => x <- int_to_float n ;; ret (Float.sub x b)
  | VStr _ => raise TypeError "unsupported operand type(s) for -: 'str' and 'float'"
  end.

(** The extended real a number stands for; a NaN stands for none. *)
Inductive ext : Set :=
| NegInf
| Fin (q : Q)
| PosInf.

Definition ext_of (v : value) : option ext :=
  match v with
  | VInt n => Some (Fin (inject_Z n))
  | VFloat (S754_zero _) => Some (Fin 0)
  | VFloat (S754_infinity s) => Some (if s then NegInf else PosInf)
  | VFloat S754_nan => None
  | VFloat (S754_finite s m e) =>
      Some (Fin (Qmake (cond_Zopp s (Zpos m * 2 ^ Z.max e 0)) (Z.to_pos (2 ^ Z.max (- e) 0))))
  | VStr _ => None
  end.

Definition ext_ltb (x y : ext) : bool :=
  match x, y with
  | _, NegInf => false
  | NegInf, _ => true
  | PosInf, _ => false
  | Fin _, PosInf => true
  | Fin p, Fin q => match Qcompare p q with Lt => true | _ => false end
  end.

(** [a < b] on numbers: the values are compared exactly; a NaN is below
    nothing. *)
Definition num_ltb (a b : value) : bool :=
  match ext_of a, ext_of b with
  | Some x, Some y => ext_ltb x y
  | _, _ => false
  end.

(** [a < b] *)
Definition lt (a b : value) : M bool :=
  match a, b with
  | VStr s, VStr t => ret (String.ltb s t)
  | VStr _, _ | _, VStr _ =>
      raise TypeError ("'<' not supported between instances of '"
                       ++ type_name a ++ "' and '" ++ type_name b ++ "'")
  | _, _ => ret (num_ltb a b)
  end.

(** [sorted(l, key=key)]: a stable sort that asks only for [<] on the
    keys.  Its result is the stable insertion below whenever [<] orders
    the keys; a comparison that raises ends the sort. *)
Fixpoint insert {A : Type} (key : A -> value) (x : A) (l : list A) : M (list A) :=
  match l with
  | [] => ret [x]
  | y :: l' =>
      b <- lt (key y) (key x) ;;
      if b then (r <- insert key x l' ;; ret (y :: r)) else ret (x :: y :: l')
  end.

Fixpoint sorted {A : Type} (key : A -> value) (l : list A) : M (list A) :=
  match l with
  | [] => ret []
  | x :: l' => s <- sorted key l' ;; insert key x s
  end.

(** [all(p(x) for x in l)] *)
Definition all {A : Type} (p : A -> bool) (l : list A) : bool := forallb p l.

End Py.

(** ** [verify_performance.py] *)

Module verify_performance.

(** [key, value = l] *)
Definition unpack2 (l : list string) : M (string * string) :=
  match l with
  | [k; v] => ret (k, v)
  | _ :: _ :: _ :: _ => raise ValueError "too many values to unpack (expected 2)"
  | [_] => raise ValueError "not enough values to unpack (expected 2, got 1)"
  | [] => raise ValueError "not enough values to unpack (expected 2, got 0)"
  end.

Definition is_ValueError (e : exn) : bool :=
  match exn_kind e with ValueError => true | _ => false end.

(** The body of the loop over the parts of the file name. *)
Definition extract_part (part : string) (metrics : Dict.t value) : M (Dict.t value) :=
  if Str.contains "=" part then
    kv <- unpack2 (Str.split "=" part) ;;
    let '(key, value) := kv in
    try_except
      (v <- (if Str.contains "." value
             then f <- Py.float_ value ;; ret (VFloat f)
             else n <- Py.int_ value ;; ret (VInt n)) ;;
       ret (Dict.set key v metrics))
      is_ValueError
      (fun _ => ret (Dict.set key (VStr value) metrics))
  else ret metrics.

Definition extract_metrics_from_checkpoint (checkpoint_path : string) : M (Dict.t value) :=
  try_except
    (let filename := Path.stem (Path.parse checkpoint_path) in
     let parts := Str.split "-" filename in
     metrics <- for_each parts extract_part Dict.empty ;;
     ret metrics)
    (fun _ => true)
    (fun e => print ("Error extracting metrics: " ++ exn_msg e) ;; ret Dict.empty).

Record checkpoint : Type := {
  filename : string;
  path : string;
  metrics : Dict.t value
}.

(** The key of the sort: [x['metrics'].get('val_loss', float('inf'))]. *)
Definition val_loss_key (x : checkpoint) : value :=
  Dict.get_default "val_loss" (VFloat Float.pos_inf) (metrics x).

Definition list_checkpoints (fs : Path.filesystem) (checkpoint_dir : string) : M (list checkpoint) :=
  let checkpoint_path := Path.parse checkpoint_dir in
  found <- os_call (Path.exists_ fs checkpoint_path) ;;
  if negb found then
    print ("Checkpoint directory not found: " ++ Fmt.encode checkpoint_dir) ;;
    ret []
  else
    files <- os_call (Path.glob_suffix fs checkpoint_path ".ckpt") ;;
    checkpoints <-
      for_each files
        (fun ckpt_file checkpoints =>
           metrics <- extract_metrics_from_checkpoint (Path.str ckpt_file) ;;
           ret ((checkpoints ++ [ {| filename := Path.name ckpt_file;
                                    path := Path.str ckpt_file;
                                    metrics := metrics |} ])%list))
        [] ;;
    Py.sorted val_loss_key checkpoints.

Definition rule (c : ascii) (n : nat) : string := Str.repeat c n.

(** [diff_pct = (diff / expected) * 100] *)
Definition percent (diff expected : Float.float) : Float.float :=
  Float.mul (Float.div diff expected) (Float.of_Z 100).

Definition table_metrics : list (string * Float.float * string) :=
  [ ("Validation Loss", Float.of_decimal false 350 (-3), "val_loss");
    ("Accuracy", Float.of_decimal false 846 (-3), "accuracy");
    ("F1 Score", Float.of_decimal false 893 (-3), "f1") ].

Definition print_comparison_table (environments : Dict.t (Dict.t value)) : M unit :=
  print (Fmt.nl ++ rule "=" 80) ;;
  print "PERFORMANCE COMPARISON ACROSS ENVIRONMENTS" ;;
  print (rule "=" 80 ++ Fmt.nl) ;;
  print (Str.ljust 20 "Metric" ++ " | " ++ Str.ljust 15 "Expected" ++ " | "
         ++ Str.ljust 15 "Your Result" ++ " | " ++ Str.ljust 15 "Difference") ;;
  print (rule "-" 80) ;;
  for_each table_metrics
    (fun row _ =>
       let '(metric_name, expected, key) := row in
       let your_result :=
         Dict.get_default key (VStr "N/A") (Dict.get_default "docker" Dict.empty environments) in
       diff_str <-
         (if Py.is_number your_result then
            diff <- Py.sub_float your_result expected ;;
            let diff_pct := percent diff expected in
            ret (Fmt.format_f true 4 diff ++ " (" ++ Fmt.format_f true 1 diff_pct ++ "%)")
          else ret "N/A") ;;
       print (Str.ljust 20 metric_name ++ " | "
              ++ Str.ljust 15 (Fmt.format_f false 4 expected) ++ " | "
              ++ Fmt.encode (Str.ljust 15 (Fmt.str_value your_result)) ++ " | "
              ++ Str.ljust 15 diff_str))
    tt ;;
  print (rule "-" 80) ;;
  print Fmt.nl.

Definition analyze_wandb_results (project_name : string) : M unit :=
  print (Fmt.nl ++ rule "=" 80) ;;
  print "W&B VERIFICATION CHECKLIST" ;;
  print (rule "=" 80 ++ Fmt.nl) ;;
  print "✓ Visit your W&B project: https://wandb.ai/" ;;
  print ("✓ Look for project: " ++ Fmt.encode project_name) ;;
  print ("✓ Find run: best-hyperparams-docker" ++ Fmt.nl) ;;
  print "Check the following metrics:" ;;
  print "  1. Final validation loss: Should be ~0.35-0.41" ;;
  print "  2. Accuracy: Should be ~84-85%" ;;
  print "  3. F1 Score: Should be ~0.89-0.90" ;;
  print "  4. Training completed: All 3 epochs" ;;
  print ("  5. Loss curves: Smooth downward trend" ++ Fmt.nl) ;;
  print "Compare with local results:" ;;
  print "  • Check if metrics are within ±2% of each other" ;;
  print "  • Loss curves should follow similar patterns" ;;
  print "  • Training time will differ (CPU vs GPU)" ;;
  print "  • Exact numerical values may vary slightly due to:" ;;
  print "    - Different hardware (CPU vs GPU precision)" ;;
  print "    - Library version differences" ;;
  print ("    - Floating-point arithmetic variations" ++ Fmt.nl) ;;
  print (rule "=" 80 ++ Fmt.nl).

(** Expected results from previous training. *)
Definition expected_results : Dict.t Float.float :=
  [ ("val_loss", Float.of_decimal false 3504 (-4));
    ("accuracy", Float.of_decimal false 846 (-3));
    ("f1", Float.of_decimal false 893 (-3)) ].

(** [d[k]] *)
Definition getitem {V : Type} (k : string) (d : Dict.t V) : M V :=
  match Dict.get k d with
  | Some v => ret v
  | None => raise KeyError k
  end.

(** [d < n] for a float [d] and an int [n]. *)
Definition under (n : Z) (d : Float.float) : bool := Py.num_ltb (VFloat d) (VInt n).

(** [f"{actual:.4f}"] for a number. *)
Definition format_number_4f (actual : value) : M string :=
  match actual with
  | VFloat x => ret (Fmt.format_f false 4 x)
  | VInt n => x <- Py.int_to_float n ;; ret (Fmt.format_f false 4 x)
  | VStr _ => raise ValueError "Unknown format code 'f' for object of type 'str'"
  end.

(** The body of the comparison loop of [main]. *)
Definition compare_metric (docker_results : Dict.t value)
    (item : string * Float.float) : M unit :=
  let '(metric, expected) := item in
  let actual := Dict.get_default metric (VStr "N/A") docker_results in
  if Py.is_number actual then
    diff <- Py.sub_float actual expected ;;
    let diff_pct := percent diff expected in
    let status := if under 2 (Float.abs diff_pct) then "✓" else "⚠" in
    actual_4f <- format_number_4f actual ;;
    print (status ++ " " ++ metric ++ ": " ++ actual_4f
           ++ " (expected: " ++ Fmt.format_f false 4 expected
           ++ ", diff: " ++ Fmt.format_f true 4 diff
           ++ " / " ++ Fmt.format_f true 1 diff_pct ++ "%)")
  else
    print ("⚠ " ++ metric ++ ": Not found in checkpoint name").

(** [abs((docker_results[m] - expected_results[m]) / expected_results[m] * 100)] *)
Definition deviation (docker_results : Dict.t value) (m : string) : M Float.float :=
  actual <- getitem m docker_results ;;
  expected <- getitem m expected_results ;;
  diff <- Py.sub_float actual expected ;;
  ret (Float.abs (percent diff expected)).

Inductive verdict : Set :=
| Excellent
| Good
| Notice
| Unverified.

(** The branch the verdict of [main] takes. *)
Definition classify (docker_results : Dict.t value) : M verdict :=
  if Py.all (fun metric => Dict.mem metric docker_results) (Dict.keys expected_results) then
    diffs <- for_each (Dict.keys expected_results)
               (fun m diffs => d <- deviation docker_results m ;; ret (diffs ++ [d])%list) [] ;;
    if Py.all (under 2) diffs then ret Excellent
    else if Py.all (under 5) diffs then ret Good
    else ret Notice
  else ret Unverified.

(** What each branch prints. *)
Definition print_verdict (v : verdict) : M unit :=
  match v with
  | Excellent =>
      print "✓ ✓ ✓ EXCELLENT! Results are highly consistent with local training." ;;
      print "      Performance is within 2% tolerance."
  | Good =>
      print "✓ ✓  GOOD! Results are reasonably consistent." ;;
      print "     Small variations are normal due to hardware differences."
  | Notice =>
      print "⚠  NOTICE: Results show some variation." ;;
      print "   This may be due to CPU vs GPU differences or library versions."
  | Unverified =>
      print "⚠  Could not verify all metrics from checkpoint filename." ;;
      print "   Check W&B dashboard for complete results."
  end.

(** The display of one checkpoint, numbered from 1. *)
Definition display_checkpoint (ckpt : checkpoint) (i : Z) : M Z :=
  print (Fmt.str_int i ++ ". " ++ Fmt.encode (filename ckpt)) ;;
  for_each (metrics ckpt)
    (fun kv _ => print ("   " ++ Fmt.encode (fst kv) ++ ": " ++ Fmt.encode (Fmt.str_value (snd kv))))
    tt ;;
  print "" ;;
  ret (i + 1).

Definition main (fs : Path.filesystem) : M unit :=
  print (Fmt.nl ++ rule "=" 80) ;;
  print "MLOPS PROJECT 2 - PERFORMANCE VERIFICATION" ;;
  print (rule "=" 80 ++ Fmt.nl) ;;
  print ("Analyzing checkpoints..." ++ Fmt.nl) ;;
  checkpoints <- list_checkpoints fs "checkpoints" ;;
  match checkpoints with
  | [] =>
      print "⚠ No checkpoints found. Have you run training yet?" ;;
      print ("  Run: .\docker_run_wandb.ps1" ++ Fmt.nl)
  | best :: _ =>
      print ("Found " ++ Fmt.str_int (Z.of_nat (List.length checkpoints)) ++ " checkpoint(s):" ++ Fmt.nl) ;;
      for_each checkpoints display_checkpoint 1 ;;
      print ("Best checkpoint: " ++ Fmt.encode (filename best)) ;;
      let docker_results := metrics best in
      print (Fmt.nl ++ "Performance Comparison:") ;;
      print (rule "-" 50) ;;
      for_each expected_results (fun item _ => compare_metric docker_results item) tt ;;
      print (rule "-" 50) ;;
      print (Fmt.nl ++ "Verdict:") ;;
      v <- classify docker_results ;;
      print_verdict v ;;
      analyze_wandb_results "glue-docker-training" ;;
      print (Fmt.nl ++ rule "=" 80) ;;
      print "Next Steps:" ;;
      print (rule "=" 80) ;;
      print "1. Check your W&B dashboard for detailed metrics and visualizations" ;;
      print "2. Compare loss curves between local and Docker runs" ;;
      print "3. Verify that hyperparameters match across environments" ;;
      print "4. Document any performance differences in your report" ;;
      print "5. Consider running on GitHub Codespaces or Docker Playground for cloud comparison" ;;
      print (Fmt.nl)
  end.

(** The status the interpreter exits with after [main()]: 0 when it
    returns, 1 when an exception reaches the top level. *)
Definition exit_status (run : M unit) : Z :=
  match result run with
  | inr _ => 0
  | inl _ => 1
  end.

End verify_performance.

(** ** [train.py] *)

Module train.

(** *** The argument parser *)

(** [type=str], [type=int], [type=float] *)
Inductive arg_type : Set :=
| TStr
| TInt
| TFloat.

(** The value of an attribute of the parsed arguments. *)
Inductive arg_value : Set :=
| ANone
| AStr (s : string)
| AInt (n : Z)
| AFloat (f : Float.float)
| AEmptyList.

(** One [parser.add_argument(...)]. *)
Record argument : Set := {
  option_strings : list string;
  dest : string;
  type : arg_type;
  default : arg_value;
  choices : option (list string)
}.

Definition glue_tasks : list string :=
  ["cola"; "sst2"; "mrpc"; "qqp"; "stsb"; "mnli"; "qnli"; "rte"; "wnli"].

Definition task_name_argument : argument :=
  {| option_strings := ["--task_name"]; dest := "task_name"; type := TStr;
     default := AStr "mrpc"; choices := Some glue_tasks |}.

Definition simple (flag : string) (ty : arg_type) (d : arg_value) : argument :=
  {| option_strings := ["--" ++ flag]; dest := flag; type := ty;
     default := d; choices := None |}.

Definition arguments : list argument :=
  [ simple "model_name_or_path" TStr (AStr "distilbert-base-uncased");
    task_name_argument;
    {| option_strings := ["--lr"; "--learning_rate"]; dest := "learning_rate"; type := TFloat;
       default := AFloat (Float.of_decimal false 2 (-5)); choices := None |};
    simple "epochs" TInt (AInt 3);
    simple "train_batch_size" TInt (AInt 32);
    simple "eval_batch_size" TInt (AInt 32);
    simple "max_seq_length" TInt (AInt 128);
    simple "warmup_steps" TInt (AInt 0);
    simple "weight_decay" TFloat (AFloat (S754_zero false));
    simple "checkpoint_dir" TStr (AStr "checkpoints");
    simple "wandb_project" TStr (AStr "glue-finetuning");
    simple "wandb_run_name" TStr ANone;
    simple "seed" TInt (AInt 42);
    simple "accelerator" TStr (AStr "auto");
    simple "devices" TInt (AInt 1) ].

(** What an option string does: print the help, or store a value. *)
Inductive action : Set :=
| HelpAction
| Store (a : argument).

(** The option strings of the parser, the help the parser adds first. *)
Definition option_string_actions : list (string * action) :=
  ("-h", HelpAction) :: ("--help", HelpAction)
  :: flat_map (fun a => map (fun o => (o, Store a)) (option_strings a)) arguments.

Inductive usage_error : Set :=
| AmbiguousOption (arg_string : string)
| ExpectedOneArgument (option_string : string)
| IgnoredExplicitArgument (explicit_arg : string)
| InvalidValue (option_string : string) (arg_string : string)
| InvalidChoice (option_string : string) (arg_string : string)
| UnrecognizedArguments (extras : list string).

(** How a run of the parser ends: with the attributes, with a usage
    message and status 2, or with the help text and status 0. *)
Inductive parsed : Type :=
| Namespace (ns : Dict.t arg_value)
| Usage (e : usage_error)
| Help.

(** [s.split(c, 1)] when [c] occurs in [s]. *)
Fixpoint split_first (c : ascii) (s : string) : option (string * string) :=
  match s with
  | EmptyString => None
  | String d s' =>
      if Ascii.eqb d c then Some ("", s')
      else match split_first c s' with
           | Some (a, b) => Some (String d a, b)
           | None => None
           end
  end.

(** The pattern for negative numbers: a minus, then digits, or digits
    (if any), a point and digits; a final line feed is let through. *)
Definition negative_number (s : string) : bool :=
  match Str.chars s with
  | "-"%char :: l =>
      let '(ip, r) := Num.span_digits l in
      let at_end (r' : list ascii) :=
        match r' with
        | [] => true
        | [c] => Nat.eqb (nat_of_ascii c) 10
        | _ => false
        end in
      match ip, r with
      | _ :: _, [] | _ :: _, [_] => at_end r
      | _, "."%char :: r1 =>
          match Num.span_digits r1 with
          | (_ :: _, r2) => at_end r2
          | _ => false
          end
      | _, _ => false
      end
  | _ => false
  end.

(** A command-line string, as the parser sees it before it consumes
    anything: an argument, the first [--], or an option string with the
    action it selects (none for an unknown option) and the value
    attached with [=] or to [-h]. *)
Inductive token : Set :=
| TArg (arg_string : string)
| TDashes
| TOpt (a : option action) (option_string : string) (explicit_arg : option string).

(** The option strings an abbreviation may stand for. *)
Definition get_option_tuples (arg_string : string) : list (action * string * option string) :=
  match arg_string with
  | String "-" (String "-" _) =>
      let '(option_prefix, explicit_arg) :=
        match split_first "=" arg_string with
        | Some (p, e) => (p, Some e)
        | None => (arg_string, None)
        end in
      flat_map (fun oa : string * action =>
                  if String.prefix option_prefix (fst oa)
                  then [(snd oa, fst oa, explicit_arg)] else [])
               option_string_actions
  | String "-" _ =>
      let short_option_prefix := Str.take 2 arg_string in
      let short_explicit_arg := substring 2 (String.length arg_string - 2) arg_string in
      flat_map (fun oa : string * action =>
                  if String.eqb (fst oa) short_option_prefix
                  then [(snd oa, fst oa, Some short_explicit_arg)]
                  else if String.prefix arg_string (fst oa)
                  then [(snd oa, fst oa, None)] else [])
               option_string_actions
  | _ => []
  end.

Definition parse_optional (arg_string : string)
  : usage_error + option (option action * string * option string) :=
  match arg_string with
  | String "-" _ =>
      match Dict.get arg_string option_string_actions with
      | Some a => inr (Some (Some a, arg_string, None))
      | None =>
          if Nat.eqb (String.length arg_string) 1 then inr None
          else
            let exact :=
              match split_first "=" arg_string with
              | Some (option_string, explicit_arg) =>
                  match Dict.get option_string option_string_actions with
                  | Some a => Some (Some a, option_string, Some explicit_arg)
                  | None => None
                  end
              | None => None
              end in
            match exact with
            | Some t => inr (Some t)
            | None =>
                match get_option_tuples arg_string with
                | _ :: _ :: _ => inl (AmbiguousOption arg_string)
                | [(a, o, e)] => inr (Some (Some a, o, e))
                | [] =>
                    if negative_number arg_string then inr None
                    else if Str.contains " " arg_string then inr None
                    else inr (Some (None, arg_string, None))
                end
            end
      end
  | _ => inr None
  end.

(** The first pass: every string is classified, and whatever follows the
    first [--] is an argument. *)
Fixpoint classify (arg_strings : list string) : usage_error + list token :=
  match arg_strings with
  | [] => inr []
  | s :: rest =>
      if String.eqb s "--" then inr (TDashes :: map TArg rest)
      else
        match parse_optional s with
        | inl e => inl e
        | inr t =>
            match classify rest with
            | inl e => inl e
            | inr ts =>
                inr (match t with
                     | None => TArg s
                     | Some (a, o, e) => TOpt a o e
                     end :: ts)
            end
        end
  end.

(** The type conversion of a value. *)
Definition get_value (ty : arg_type) (arg_string : string) : option arg_value :=
  match ty with
  | TStr => Some (AStr arg_string)
  | TInt => option_map AInt (Num.py_int arg_string)
  | TFloat => option_map AFloat (Float.py_float arg_string)
  end.

(** [value in choices] *)
Definition check_value (a : argument) (arg_string : string) : bool :=
  match choices a with
  | Some cs => existsb (String.eqb arg_string) cs
  | None => true
  end.

(** Conversion, check and assignment of the value of an option.  The
    parser of Python 3.11 strips a [--] from the values of an option before
    it converts them: a value [--], which only [=] can attach, leaves the
    empty list, neither converted nor checked.  (Later releases take it as a
    value like any other.) *)
Definition store (a : argument) (option_string arg_string : string) (ns : Dict.t arg_value)
  : usage_error + Dict.t arg_value :=
  if String.eqb arg_string "--" then inr (Dict.set (dest a) AEmptyList ns)
  else
    match get_value (type a) arg_string with
    | None => inl (InvalidValue option_string arg_string)
    | Some v =>
        if check_value a arg_string then inr (Dict.set (dest a) v ns)
        else inl (InvalidChoice option_string arg_string)
    end.

(** [-h] with characters attached: only more [h]s are flags. *)
Fixpoint only_h (s : string) : bool :=
  match s with
  | EmptyString => true
  | String c s' => Ascii.eqb c "h" && only_h s'
  end.

(** The second pass, from left to right.  The parser declares no
    positional argument, so an argument no option takes is left over; so
    are [--] and the unknown options. *)
Fixpoint consume (tokens : list token) (ns : Dict.t arg_value) (extras : list string) : parsed :=
  match tokens with
  | [] =>
      match extras with
      | [] => Namespace ns
      | _ => Usage (UnrecognizedArguments extras)
      end
  | TArg s :: rest => consume rest ns (extras ++ [s])%list
  | TDashes :: rest => consume rest ns (extras ++ ["--"])%list
  | TOpt None s _ :: rest => consume rest ns (extras ++ [s])%list
  | TOpt (Some HelpAction) o None :: _ => Help
  | TOpt (Some HelpAction) o (Some e) :: _ =>
      if String.eqb o "-h" && negb (String.eqb e "") && only_h e then Help
      else Usage (IgnoredExplicitArgument e)
  | TOpt (Some (Store a)) o (Some v) :: rest =>
      match store a o v ns with
      | inl e => Usage e
      | inr ns' => consume rest ns' extras
      end
  | TOpt (Some (Store a)) o None :: TArg v :: rest =>
      match store a o v ns with
      | inl e => Usage e
      | inr ns' => consume rest ns' extras
      end
  | TOpt (Some (Store a)) o None :: _ => Usage (ExpectedOneArgument o)
  end.

Definition defaults : Dict.t arg_value := map (fun a => (dest a, default a)) arguments.

(** [parser.parse_args()] on [sys.argv[1:]]. *)
Definition parse_args (argv : list string) : parsed :=
  match classify argv with
  | inl e => Usage e
  | inr tokens => consume tokens defaults []
  end.

(** [args.name] *)
Definition attr (name : string) (args : Dict.t arg_value) : arg_value :=
  Dict.get_default name ANone args.

(** *** The collaborators *)

(** The calls [main] makes into the operating system and the libraries. *)
Inductive call : Set :=
| SeedEverything (seed : arg_value)
| Mkdir (dir : string)
| Open (file : string)
| Write (file data : string)
| Close (file : string)
| Chmod (file : string) (mode : Z)
| NewWandbLogger (project : arg_value) (name : string) (log_model : bool)
| ConfigUpdate (config : list (string * arg_value))
| NewDataModule (model_name_or_path task_name max_seq_length
                 train_batch_size eval_batch_size : arg_value)
| Setup (stage : string)
| NewTransformer (model_name_or_path : arg_value) (num_labels : Z)
                 (eval_splits : list string) (task_name : string)
                 (learning_rate warmup_steps weight_decay
                  train_batch_size eval_batch_size : arg_value)
| NewModelCheckpoint (dirpath filename : string) (save_top_k : Z)
                     (monitor mode : string) (save_last : bool)
| NewTrainer (max_epochs accelerator devices : arg_value) (log_every_n_steps : Z)
| Fit
| WandbFinish.

(** What a run does, in order. *)
Inductive event : Set :=
| Call (c : call)
| Stdout (line : string)
| UsageMessage (e : usage_error)
| HelpMessage.

(** How a run stops early: [SystemExit] with a status, or an exception
    with its message. *)
Inductive stop : Set :=
| SystemExit (code : Z)
| Exception (msg : string).

(** What the run cannot decide: which calls raise (given what happened
    before), the clock, the home directory the password database has
    for the user (if any), and what the library objects report. *)
Record world : Type := {
  raises : list event -> call -> option string;
  now : string;
  pw_dir : option string;
  num_labels : Z;
  eval_splits : list string;
  dm_task_name : string;
  best_model_path : string;
  run_url : string
}.

(** A computation extends the history and then returns or stops. *)
Definition T (A : Type) : Type := list event -> list event * (stop + A).

#[export] Instance Monad_T : Monad T := {|
  ret := fun A (a : A) h => (h, inr a);
  bind := fun A B (m : T A) (k : A -> T B) h =>
    match m h with
    | (h', inl s) => (h', inl s)
    | (h', inr a) => k a h'
    end
|}.

Definition emit (e : event) : T unit := fun h => ((h ++ [e])%list, inr tt).

Definition print (line : string) : T unit := emit (Stdout line).

Definition halt {A : Type} (s : stop) : T A := fun h => (h, inl s).

(** A call is attempted, and raises if the world says so. *)
Definition do (w : world) (c : call) : T unit :=
  fun h =>
    match raises w h c with
    | Some msg => ((h ++ [Call c])%list, inl (Exception msg))
    | None => ((h ++ [Call c])%list, inr tt)
    end.

(** [try: m  except Exception as e: handler(e)]; a [SystemExit] is no
    [Exception]. *)
Definition try_except_Exception (m : T unit) (handler : string -> T unit) : T unit :=
  fun h =>
    match m h with
    | (h', inl (Exception msg)) => handler msg h'
    | r => r
    end.

(** [with open(file, 'w') as f: body]: the file is closed on the way
    out, also when the body raises. *)
Definition with_open (w : world) (file : string) (body : T unit) : T unit :=
  do w (Open file) ;;
  fun h =>
    match body h with
    | (h', inr tt) => do w (Close file) h'
    | (h', inl s) =>
        match do w (Close file) h' with
        | (h'', inr tt) => (h'', inl s)
        | r => r
        end
    end.

(** [os.path.expanduser("~" + rest)] *)
Fixpoint rstrip_slash (s : string) : string :=
  match s with
  | EmptyString => EmptyString
  | String c s' =>
      match rstrip_slash s' with
      | EmptyString => if Ascii.eqb c "/" then EmptyString else String c EmptyString
      | r => String c r
      end
  end.

Definition expanduser_home (w : world) (env : string -> option string) (rest : string) : string :=
  match (match env "HOME" with Some h => Some h | None => pw_dir w end) with
  | None => "~" ++ rest
  | Some userhome =>
      match rstrip_slash userhome ++ rest with
      | EmptyString => "/"
      | r => r
      end
  end.

(** [bool(v)] for what [os.getenv] returns. *)
Definition truthy (v : option string) : bool :=
  match v with
  | Some (String _ _) => true
  | _ => false
  end.

Definition is_offline (v : option string) : bool :=
  match v with
  | Some m => String.eqb m "offline"
  | None => false
  end.

(** The condition under which [main] writes the credential file. *)
Definition wants_credentials (env : string -> option string) : bool :=
  truthy (env "WANDB_API_KEY") && negb (is_offline (env "WANDB_MODE")).

(** The block of [main] that makes sure W&B is logged in. *)
Definition configure_wandb (w : world) (env : string -> option string) : T unit :=
  let wandb_api_key := env "WANDB_API_KEY" in
  if truthy wandb_api_key && negb (is_offline (env "WANDB_MODE")) then
    let wandb_dir := expanduser_home w env "/.netrc" in
    try_except_Exception
      (with_open w wandb_dir
         (do w (Write wandb_dir ("machine api.wandb.ai" ++ Fmt.nl)) ;;
          do w (Write wandb_dir ("  login user" ++ Fmt.nl)) ;;
          do w (Write wandb_dir ("  password " ++ match wandb_api_key with Some k => k | None => "" end
                                 ++ Fmt.nl))) ;;
       do w (Chmod wandb_dir 384) ;;
       print "✓ W&B API key configured")
      (fun e => print ("⚠ Failed to configure W&B: " ++ e))
  else ret tt.

(** [str(v)] for an attribute in an f-string. *)
Definition str_arg (v : arg_value) : string :=
  match v with
  | ANone => "None"
  | AStr s => s
  | AInt n => Fmt.str_int n
  | AFloat f => Fmt.repr_float f
  | AEmptyList => "[]"
  end.

(** [args.wandb_run_name or generated] *)
Definition or_else (v : arg_value) (generated : string) : string :=
  match v with
  | AStr (String c s) => String c s
  | _ => generated
  end.

Definition main (w : world) (env : string -> option string) (argv : list string) : T unit :=
  match parse_args argv with
  | Usage e => emit (UsageMessage e) ;; halt (SystemExit 2)
  | Help => emit HelpMessage ;; halt (SystemExit 0)
  | Namespace args =>
      do w (SeedEverything (attr "seed" args)) ;;
      let checkpoint_dir := Path.parse (str_arg (attr "checkpoint_dir" args)) in
      do w (Mkdir (Path.str checkpoint_dir)) ;;
      configure_wandb w env ;;
      let wandb_run_name :=
        or_else (attr "wandb_run_name" args) (str_arg (attr "task_name" args) ++ "_" ++ now w) in
      do w (NewWandbLogger (attr "wandb_project" args) wandb_run_name true) ;;
      do w (ConfigUpdate
              [ ("model_name", attr "model_name_or_path" args);
                ("task_name", attr "task_name" args);
                ("learning_rate", attr "learning_rate" args);
                ("epochs", attr "epochs" args);
                ("train_batch_size", attr "train_batch_size" args);
                ("eval_batch_size", attr "eval_batch_size" args);
                ("max_seq_length", attr "max_seq_length" args);
                ("warmup_steps", attr "warmup_steps" args);
                ("weight_decay", attr "weight_decay" args);
                ("seed", attr "seed" args) ]) ;;
      print ("Loading " ++ str_arg (attr "task_name" args) ++ " dataset...") ;;
      do w (NewDataModule (attr "model_name_or_path" args) (attr "task_name" args)
              (attr "max_seq_length" args) (attr "train_batch_size" args)
              (attr "eval_batch_size" args)) ;;
      do w (Setup "fit") ;;
      print ("Initializing " ++ str_arg (attr "model_name_or_path" args) ++ " model...") ;;
      do w (NewTransformer (attr "model_name_or_path" args) (num_labels w) (eval_splits w)
              (dm_task_name w) (attr "learning_rate" args) (attr "warmup_steps" args)
              (attr "weight_decay" args) (attr "train_batch_size" args)
              (attr "eval_batch_size" args)) ;;
      do w (NewModelCheckpoint (Path.str checkpoint_dir) "{epoch}-{step}-{val_loss:.4f}" 1
              "val_loss" "min" false) ;;
      print ("Starting training for " ++ str_arg (attr "epochs" args) ++ " epochs...") ;;
      do w (NewTrainer (attr "epochs" args) (attr "accelerator" args) (attr "devices" args) 10) ;;
      do w Fit ;;
      do w WandbFinish ;;
      print (Fmt.nl ++ "Training complete! Checkpoints saved to: " ++ Path.str checkpoint_dir) ;;
      print ("Best checkpoint: " ++ best_model_path w) ;;
      print ("W&B run: " ++ run_url w)
  end.

(** The history a run of the script leaves, and the status it exits with. *)
Definition run (w : world) (env : string -> option string) (argv : list string)
  : list event * (stop + unit) :=
  main w env argv [].

Definition exit_status (r : stop + unit) : Z :=
  match r with
  | inr _ => 0
  | inl (SystemExit code) => code
  | inl (Exception _) => 1
  end.

Definition is_call (e : event) : bool :=
  match e with
  | Call _ => true
  | _ => false
  end.

End train.

(** ** The vocabulary of the specification *)

Module Spec.

Import verify_performance.

(** *** Parsing a checkpoint file name *)

(** How often [c] occurs in [s]. *)
Fixpoint count (c : ascii) (s : string) : nat :=
  match s with
  | EmptyString => O
  | String d s' => if Ascii.eqb d c then S (count c s') else count c s'
  end.

(** The dash-delimited segments of the file name of a checkpoint. *)
Definition parts_of (checkpoint_path : string) : list string :=
  Str.split "-" (Path.stem (Path.parse checkpoint_path)).

(** A segment that reads [key=value]. *)
Definition key_value (part : string) : option (string * string) :=
  match Str.split "=" part with
  | [k; v] => Some (k, v)
  | _ => None
  end.

(** The claim on the value of a segment, as the specification words it:
    "coerced to float when it contains a decimal point, else to integer
    when it parses as one, else kept as the original string". *)
Definition coerced_as_specified (text : string) (v : value) : Prop :=
  if Str.contains "." text then exists f, v = VFloat f
  else match Num.py_int text with
       | Some n => v = VInt n
       | None => v = VStr text
       end.

(** The value of a segment, amended: a float when the text has a decimal
    point and [float()] reads it, an integer when it has none and [int()]
    reads it, and the text itself in the two cases that are left. *)
Definition coerced (text : string) : value :=
  if Str.contains "." text then
    match Float.py_float text with
    | Some f => VFloat f
    | None => VStr text
    end
  else
    match Num.py_int text with
    | Some n => VInt n
    | None => VStr text
    end.

Definition assign (metrics : Dict.t value) (part : string) : Dict.t value :=
  match key_value part with
  | Some (k, v) => Dict.set k (coerced v) metrics
  | None => metrics
  end.

(** The mapping the segments that read [key=value] make, later segments
    overriding earlier ones. *)
Definition metrics_of_parts (parts : list string) : Dict.t value :=
  fold_left assign parts Dict.empty.

(** The claim on malformed segments, as the specification words it: the
    parse is silent and the mapping has an entry for every segment that
    reads [key=value]. *)
Definition skips_malformed (checkpoint_path : string) : Prop :=
  let run := extract_metrics_from_checkpoint checkpoint_path in
  output run = [] /\
  forall part k v,
    In part (parts_of checkpoint_path) -> key_value part = Some (k, v) ->
    exists m, result run = inr m /\ Dict.mem k m = true.

(** *** Listing the checkpoints *)

(** The mapping the parser returns for a path. *)
Definition metrics_of (checkpoint_path : string) : Dict.t value :=
  match result (extract_metrics_from_checkpoint checkpoint_path) with
  | inr m => m
  | inl _ => Dict.empty
  end.

Definition record_of (ckpt_file : Path.path) : checkpoint :=
  {| filename := Path.name ckpt_file;
     path := Path.str ckpt_file;
     metrics := metrics_of (Path.str ckpt_file) |}.

(** The records of the checkpoint files of a directory, in the order of
    the scan. *)
Definition scanned_files (fs : Path.filesystem) (checkpoint_dir : string) : list Path.path :=
  match Path.glob_suffix fs (Path.parse checkpoint_dir) ".ckpt" with
  | inr files => files
  | inl _ => []
  end.

Definition parsed_records (fs : Path.filesystem) (checkpoint_dir : string) : list checkpoint :=
  map record_of (scanned_files fs checkpoint_dir).

Definition has_val_loss (c : checkpoint) : bool := Dict.mem "val_loss" (metrics c).

(** A number that stands for an extended real: an [int], or a [float]
    that is no NaN. *)
Definition is_real (v : value) : bool :=
  match Py.ext_of v with
  | Some _ => true
  | None => false
  end.

(** [x] is not above [y]. *)
Definition ext_le (x y : Py.ext) : Prop :=
  match x, y with
  | Py.NegInf, _ => True
  | _, Py.PosInf => True
  | Py.Fin p, Py.Fin q => (p <= q)%Q
  | _, _ => False
  end.

(** The error of the operating system that the lookup of the path, or
    the scan of the directory, ends with. *)
Definition os_error (fs : Path.filesystem) (checkpoint_dir : string) : option string :=
  match fs (Path.str (Path.parse checkpoint_dir)) with
  | Some (Path.Failing msg) => Some msg
  | Some (Path.Unscannable msg) => Some msg
  | _ => None
  end.

(** The validation loss of a record, read from its mapping: the number
    under the key [val_loss], positive infinity when the mapping lacks the
    key, none when what is there is no number. *)
Definition loss (c : checkpoint) : option Py.ext :=
  match Dict.get "val_loss" (metrics c) with
  | Some v => Py.ext_of v
  | None => Some Py.PosInf
  end.

(** What the mapping has under [val_loss], if anything, is an [int] or a
    [float]. *)
Definition numeric_loss (c : checkpoint) : bool :=
  match Dict.get "val_loss" (metrics c) with
  | Some v => Py.is_number v
  | None => true
  end.

(** The validation loss of [a] is below the one of [b]; is not above it. *)
Definition loss_lt (a b : checkpoint) : Prop :=
  match loss a, loss b with
  | Some x, Some y => Py.ext_ltb x y = true
  | _, _ => False
  end.

Definition loss_le (a b : checkpoint) : Prop :=
  match loss a, loss b with
  | Some x, Some y => ext_le x y
  | _, _ => False
  end.

(** No record that lacks [val_loss] comes before one that has it. *)
Definition missing_last (l : list checkpoint) : Prop :=
  forall l1 c l2, l = (l1 ++ c :: l2)%list -> has_val_loss c = false ->
    Forall (fun d => has_val_loss d = false) l2.

(** The records that have a [val_loss] are in strictly ascending order
    of it. *)
Definition strictly_ascending (l : list checkpoint) : Prop :=
  StronglySorted loss_lt (filter has_val_loss l).

(** The claim on the order of the listing, as the specification words it. *)
Definition sorted_strictly (fs : Path.filesystem) (checkpoint_dir : string) : Prop :=
  exists l, result (list_checkpoints fs checkpoint_dir) = inr l /\
            Permutation (parsed_records fs checkpoint_dir) l /\
            missing_last l /\ strictly_ascending l.

(** A record that lacks [val_loss] is followed only by records that lack
    it too, or whose validation loss is infinite. *)
Definition missing_after_finite (l : list checkpoint) : Prop :=
  forall l1 c l2, l = (l1 ++ c :: l2)%list -> has_val_loss c = false ->
    Forall (fun d => loss d = Some Py.PosInf) l2.

(** [checkpoint_dir] names a directory. *)
Definition names_directory (fs : Path.filesystem) (checkpoint_dir : string) : Prop :=
  exists entries, fs (Path.str (Path.parse checkpoint_dir)) = Some (Path.Dir entries).

(** The listing is empty and the notice is printed. *)
Definition empty_with_notice (fs : Path.filesystem) (checkpoint_dir : string) : Prop :=
  list_checkpoints fs checkpoint_dir
  = (["Checkpoint directory not found: " ++ Fmt.encode checkpoint_dir], inr []).

(** *** The verdict *)




(** The rational a finite float stands for: [(-1)^s * m * 2^e]. *)
Definition exact (f : Float.float) : option Q :=
  match f with
  | S754_zero _ => Some 0%Q
  | S754_finite s m e => Some (inject_Z (cond_Zopp s (Zpos m)) * Qpower 2 e)%Q
  | _ => None
  end.

(** The float is the number [q]. *)
Definition is_exactly (q : Q) (f : Float.float) : bool :=
  match exact f with
  | Some x => Qeq_bool x q
  | None => false
  end.

(** The float is a binary64 number nearest to [q]: a mantissa of 53 bits,
    and [q] within half a unit of its last place. *)
Definition is_nearest (q : Q) (f : Float.float) : bool :=
  match f with
  | S754_finite s m e =>
      (2 ^ 52 <=? Zpos m) && (Zpos m <? 2 ^ 53)
      && Qle_bool (Qabs (inject_Z (cond_Zopp s (Zpos m)) * Qpower 2 e - q)) (Qpower 2 (e - 1))
  | _ => false
  end.

(** The float is within [eps] of [q]. *)
Definition is_within (eps q : Q) (f : Float.float) : bool :=
  match exact f with
  | Some x => Qle_bool (Qabs (x - q)) eps
  | None => false
  end.



(** [d < n]: the float is a number below [n]. *)
Definition below (n : Z) (d : Float.float) : bool :=
  match Py.ext_of (VFloat d) with
  | Some x => Py.ext_ltb x (Py.Fin (inject_Z n))
  | None => false
  end.






(** *** The scenario of the report *)

(** The claim on the scenario, as the specification words it: the
    difference is -0.0104 and the percentage is -2.97, each as the number
    itself or as the binary64 number nearest to it. *)
Definition scenario_as_specified (diff pct : Float.float) : Prop :=
  (is_exactly (-104 # 10000) diff || is_nearest (-104 # 10000) diff = true)%bool
  /\ (is_exactly (-297 # 100) pct || is_nearest (-297 # 100) pct = true)%bool.

(** *** The training script *)

(** The command line gives [--task_name] the value [v], as the next
    string or attached with [=], after the strings [pre]. *)
Definition gives_task_name_after (pre : list string) (argv : list string) (v : string) : Prop :=
  exists post,
    argv = (pre ++ "--task_name" :: v :: post)%list \/
    argv = (pre ++ ("--task_name=" ++ v)%string :: post)%list.

Definition gives_task_name (argv : list string) (v : string) : Prop :=
  exists pre, gives_task_name_after pre argv v.

(** The string selects the help. *)
Definition selects_help (arg_string : string) : bool :=
  match train.parse_optional arg_string with
  | inr (Some (Some train.HelpAction, _, _)) => true
  | _ => false
  end.

(** The run ends in the parser with a usage message and status 2, and
    has made no call. *)
Definition usage_error_only (run : list train.event * (train.stop + unit)) : Prop :=
  exists e, run = ([train.UsageMessage e], inl (train.SystemExit 2)).

(** The run ends in the parser with the help text and status 0. *)
Definition help_only (run : list train.event * (train.stop + unit)) : Prop :=
  run = ([train.HelpMessage], inl (train.SystemExit 0)).

(** The variable is set in the environment. *)
Definition is_set (env : string -> option string) (name : string) : Prop :=
  env name <> None.

(** The events a computation adds to the history [h]. *)
Definition added {A : Type} (m : train.T A) (h : list train.event) : list train.event :=
  skipn (List.length h) (fst (m h)).

(** A computation only adds to the history. *)
Definition grows {A : Type} (m : train.T A) : Prop :=
  forall h, exists evs, fst (m h) = (h ++ evs)%list.

(** The credential file is written: it is opened for writing. *)
Definition writes_credentials (w : train.world) (env : string -> option string)
    (h : list train.event) : Prop :=
  exists file, In (train.Call (train.Open file)) (added (train.configure_wandb w env) h).

End Spec.

(** ** Inputs for the examples *)

Module Examples.

(** A file system with the directory [checkpoints] and nothing else. *)
Definition checkpoints_with (entries : list string) : Path.filesystem :=
  fun p => if String.eqb p "checkpoints" then Some (Path.Dir entries) else None.

(** Two checkpoints with the same validation loss. *)
Definition same_loss : Path.filesystem :=
  checkpoints_with ["epoch=1-step=230-val_loss=0.3504.ckpt";
                    "epoch=2-step=460-val_loss=0.3504.ckpt"].

(** Three checkpoints and a stray file. *)
Definition three_checkpoints : Path.filesystem :=
  checkpoints_with ["epoch=2-step=500-val_loss=0.3400.ckpt"; "notes.txt";
                    "last.ckpt"; "epoch=1-step=230-val_loss=0.3504.ckpt"].

(** A run that diverged next to one that did not. *)
Definition diverged : Path.filesystem :=
  checkpoints_with ["epoch=0-step=10-val_loss=nan.ckpt";
                    "epoch=1-step=230-val_loss=0.3504.ckpt"].

(** One checkpoint whose accuracy is no number. *)
Definition unreadable_accuracy : Path.filesystem :=
  checkpoints_with ["val_loss=0.3504-accuracy=high-f1=0.893.ckpt"].

(** [model.bin] is a file; there is no directory. *)
Definition only_a_file : Path.filesystem :=
  fun p => if String.eqb p "model.bin" then Some Path.File else None.

(** A name of 300 characters, more than a file system allows: the lookup
    fails with [ENAMETOOLONG]. *)
Definition long_name : string := Str.repeat "a" 300.

Definition name_too_long : Path.filesystem :=
  fun p => if String.eqb p long_name
           then Some (Path.Failing ("[Errno 36] File name too long: '" ++ long_name ++ "'"))
           else None.

(** The working directory may not be searched: the lookup of
    [checkpoints] fails with [EACCES]. *)
Definition not_searchable : Path.filesystem :=
  fun p => if String.eqb p "checkpoints"
           then Some (Path.Failing "[Errno 13] Permission denied: 'checkpoints'")
           else None.

(** The scan of [checkpoints] fails with [EIO]. *)
Definition unscannable : Path.filesystem :=
  fun p => if String.eqb p "checkpoints"
           then Some (Path.Unscannable "[Errno 5] Input/output error: 'checkpoints'")
           else None.

Definition nothing : Path.filesystem := fun _ => None.

End Examples.

Module Records.

(** Binary64 numbers by their bits: the sign, the mantissa of 53 bits and
    the exponent of its last place.  2.5 is [5 * 2^50 * 2^-51]. *)
Definition two_and_a_half : Float.float := S754_finite false 5629499534213120 (-51).

(** The numbers nearest to 0.3504, 0.846, 0.893 and 0.34. *)
Definition loss_0_3504 : Float.float := S754_finite false 6312245237722487 (-54).
Definition loss_0_34 : Float.float := S754_finite false 6124895493223875 (-54).

(** The difference and the percentage of the scenario:
    -0.010399999999999965 and -2.9680365296803553. *)
Definition scenario_diff : Float.float := S754_finite true 5995191823955584 (-59).
Definition scenario_pct : Float.float := S754_finite true 6683424104545234 (-51).





(** Results of three environments, and of two. *)
Definition docker : Dict.t value :=
  [ ("val_loss", VFloat (Float.of_decimal false 34 (-2))); ("f1", VInt 1) ].

Definition three_environments : Dict.t (Dict.t value) :=
  [ ("local", [("val_loss", VFloat (Float.of_decimal false 3504 (-4)))]);
    ("docker", docker);
    ("colab", [("accuracy", VStr "n/a")]) ].

Definition two_environments : Dict.t (Dict.t value) :=
  [ ("docker", docker); ("local", []) ].

End Records.

Module Worlds.

(** A world in which no call raises. *)
Definition quiet : train.world :=
  {| train.raises := fun _ _ => None;
     train.now := "20240101_000000";
     train.pw_dir := Some "/root";
     train.num_labels := 2;
     train.eval_splits := ["validation"];
     train.dm_task_name := "mrpc";
     train.best_model_path := "checkpoints/epoch=1-step=230-val_loss=0.3504.ckpt";
     train.run_url := "https://wandb.ai/run" |}.

(** A world in which writing to a file raises. *)
Definition disk_full : train.world :=
  {| train.raises := fun _ c => match c with train.Write _ _ => Some "No space left on device" | _ => None end;
     train.now := "20240101_000000";
     train.pw_dir := Some "/root";
     train.num_labels := 2;
     train.eval_splits := ["validation"];
     train.dm_task_name := "mrpc";
     train.best_model_path := "";
     train.run_url := "" |}.

Definition no_variables : string -> option string := fun _ => None.

(** The API key is set, to the empty string. *)
Definition empty_key : string -> option string :=
  fun name => if String.eqb name "WANDB_API_KEY" then Some "" else None.

(** The API key is set, and so is the home directory. *)
Definition with_key : string -> option string :=
  fun name =>
    if String.eqb name "WANDB_API_KEY" then Some "secret"
    else if String.eqb name "HOME" then Some "/home/user"
    else None.

End Worlds.

(** ** The vocabulary of the further properties *)

Module Laws.

Import verify_performance.

(** What the parser of file names prints when a segment has two [=] or
    more. *)
Definition unpack_error : string :=
  "Error extracting metrics: too many values to unpack (expected 2)".

(** The name of a directory entry: not empty, not [.], without a [/]. *)
Definition entry_name (name : string) : bool :=
  negb (Str.contains "/" name) && Path.is_component name.

(** The key of [c] is neither below [v] nor above it. *)
Definition ties (v : value) (c : checkpoint) : bool :=
  negb (Py.num_ltb v (val_loss_key c)) && negb (Py.num_ltb (val_loss_key c) v).

(** A segment of the file name of [c] has two [=] or more. *)
Definition unparsable (c : checkpoint) : bool :=
  existsb (fun part => Nat.leb 2 (Spec.count "=" part)) (Spec.parts_of (path c)).

(** The metrics [main] and the table look up. *)
Definition three_metrics : list string := ["val_loss"; "accuracy"; "f1"].

(** An [int] that float arithmetic can convert; anything else passes. *)
Definition fits (v : option value) : bool :=
  match v with
  | Some (VInt n) => Z.abs n <? Py.float_overflow
  | _ => true
  end.

Definition number (v : option value) : bool :=
  match v with
  | Some v => Py.is_number v
  | None => false
  end.

(** The record of the best checkpoint lets the report of [main] through:
    no metric is an [int] out of the range of a float and, when the three
    metrics are there, each is a number. *)
Definition readable (r : Dict.t value) : bool :=
  forallb (fun m => fits (Dict.get m r)) three_metrics
  && (negb (forallb (fun m => Dict.mem m r) three_metrics)
      || forallb (fun m => number (Dict.get m r)) three_metrics).

(** The last lines of the report of [main]. *)
Definition next_steps : list string :=
  [ Fmt.nl ++ rule "=" 80;
    "Next Steps:";
    rule "=" 80;
    "1. Check your W&B dashboard for detailed metrics and visualizations";
    "2. Compare loss curves between local and Docker runs";
    "3. Verify that hyperparameters match across environments";
    "4. Document any performance differences in your report";
    "5. Consider running on GitHub Codespaces or Docker Playground for cloud comparison";
    Fmt.nl ].

(** *** The training script *)

(** What an attribute may hold after a parse: its default, the empty list
    that [--option=--] leaves, or the conversion of a string that passes
    the check of the choices. *)
Definition admissible (a : train.argument) (v : train.arg_value) : Prop :=
  v = train.default a \/ v = train.AEmptyList
  \/ exists s, train.get_value (train.type a) s = Some v /\ train.check_value a s = true.

(** The calls of the block that writes the credential file. *)
Definition file_operation (c : train.call) : bool :=
  match c with
  | train.Open _ | train.Write _ _ | train.Close _ | train.Chmod _ _ => true
  | _ => false
  end.

(** The calls of a history, those on the credential file apart. *)
Definition pipeline_calls (h : list train.event) : list train.call :=
  flat_map (fun e => match e with
                     | train.Call c => if file_operation c then [] else [c]
                     | _ => []
                     end) h.

(** A step of [main]: a call, or a line on the standard output. *)
Inductive step : Set :=
| Do (c : train.call)
| Say (line : string).

Definition event_of (s : step) : train.event :=
  match s with
  | Do c => train.Call c
  | Say line => train.Stdout line
  end.

Definition perform (w : train.world) (s : step) : train.T unit :=
  match s with
  | Do c => train.do w c
  | Say line => train.print line
  end.

#[local] Existing Instance train.Monad_T.

(** The steps one after the other, then [k]. *)
Fixpoint perform_all (w : train.world) (l : list step) (k : train.T unit) : train.T unit :=
  match l with
  | [] => k
  | s :: l' => perform w s ;; perform_all w l' k
  end.

Definition calls_of (l : list step) : list train.call :=
  flat_map (fun s => match s with Do c => [c] | Say _ => [] end) l.

(** The steps of [main] before the credential block, and after it. *)
Definition steps_before (args : Dict.t train.arg_value) : list step :=
  [ Do (train.SeedEverything (train.attr "seed" args));
    Do (train.Mkdir (Path.str (Path.parse (train.str_arg (train.attr "checkpoint_dir" args))))) ].

Definition steps_after (w : train.world) (args : Dict.t train.arg_value) : list step :=
  let attr name := train.attr name args in
  let checkpoint_dir := Path.parse (train.str_arg (attr "checkpoint_dir")) in
  [ Do (train.NewWandbLogger (attr "wandb_project")
          (train.or_else (attr "wandb_run_name")
             (train.str_arg (attr "task_name") ++ "_" ++ train.now w)) true);
    Do (train.ConfigUpdate
          [ ("model_name", attr "model_name_or_path");
            ("task_name", attr "task_name");
            ("learning_rate", attr "learning_rate");
            ("epochs", attr "epochs");
            ("train_batch_size", attr "train_batch_size");
            ("eval_batch_size", attr "eval_batch_size");
            ("max_seq_length", attr "max_seq_length");
            ("warmup_steps", attr "warmup_steps");
            ("weight_decay", attr "weight_decay");
            ("seed", attr "seed") ]);
    Say ("Loading " ++ train.str_arg (attr "task_name") ++ " dataset...");
    Do (train.NewDataModule (attr "model_name_or_path") (attr "task_name")
          (attr "max_seq_length") (attr "train_batch_size") (attr "eval_batch_size"));
    Do (train.Setup "fit");
    Say ("Initializing " ++ train.str_arg (attr "model_name_or_path") ++ " model...");
    Do (train.NewTransformer (attr "model_name_or_path") (train.num_labels w)
          (train.eval_splits w) (train.dm_task_name w) (attr "learning_rate")
          (attr "warmup_steps") (attr "weight_decay") (attr "train_batch_size")
          (attr "eval_batch_size"));
    Do (train.NewModelCheckpoint (Path.str checkpoint_dir) "{epoch}-{step}-{val_loss:.4f}" 1
          "val_loss" "min" false);
    Say ("Starting training for " ++ train.str_arg (attr "epochs") ++ " epochs...");
    Do (train.NewTrainer (attr "epochs") (attr "accelerator") (attr "devices") 10);
    Do train.Fit;
    Do train.WandbFinish;
    Say (Fmt.nl ++ "Training complete! Checkpoints saved to: " ++ Path.str checkpoint_dir);
    Say ("Best checkpoint: " ++ train.best_model_path w);
    Say ("W&B run: " ++ train.run_url w) ].

(** The calls of a complete run, in the order of the source: the seed,
    the checkpoint directory, the logger and its configuration, the data,
    the model, the checkpoint callback, the trainer, the fit and the end
    of the W&B run. *)
Definition pipeline (w : train.world) (args : Dict.t train.arg_value) : list train.call :=
  calls_of (steps_before args ++ steps_after w args).

(** The command line is read option by option, from left to right: from
    the attributes on the left, it leaves the attributes on the right.
    An option takes the string after it, which has to be an argument, or
    the value attached to it with [=]. *)
Inductive reads : Dict.t train.arg_value -> list string -> Dict.t train.arg_value -> Prop :=
| reads_end (ns : Dict.t train.arg_value) : reads ns [] ns
| reads_option (ns ns1 ns2 : Dict.t train.arg_value) (s v : string) (rest : list string)
    (a : train.argument) (o : string) :
    train.parse_optional s = inr (Some (Some (train.Store a), o, None)) ->
    train.parse_optional v = inr None ->
    train.store a o v ns = inr ns1 ->
    reads ns1 rest ns2 ->
    reads ns (s :: v :: rest) ns2
| reads_attached (ns ns1 ns2 : Dict.t train.arg_value) (s v : string) (rest : list string)
    (a : train.argument) (o : string) :
    train.parse_optional s = inr (Some (Some (train.Store a), o, Some v)) ->
    train.store a o v ns = inr ns1 ->
    reads ns1 rest ns2 ->
    reads ns (s :: rest) ns2.

End Laws.
(** ** The output monad *)

Section OutputMonad.

Context {A B : Type}.

Lemma bind_ret (a : A) (k : A -> M B) : bind (ret a) k = k a.
Proof. simpl. destruct (k a) as [out r]. reflexivity. Qed.

Lemma bind_raise (t : exn_type) (msg : string) (k : A -> M B) :
  bind (raise t msg) k = raise t msg.
Proof. reflexivity. Qed.

Lemma bind_value (out : list string) (a : A) (k : A -> M B) :
  bind ((out, inr a) : M A) k = ((out ++ fst (k a))%list, snd (k a)).
Proof. simpl. destruct (k a) as [out' r]. reflexivity. Qed.

Lemma bind_print (line : string) (k : unit -> M B) :
  bind (print line) k = (line :: fst (k tt), snd (k tt)).
Proof. simpl. destruct (k tt) as [out r]. reflexivity. Qed.

End OutputMonad.

(** ** Strings *)

Section Strings.

Variable c : ascii.

Lemma split_not_nil (s : string) : Str.split c s <> [].
Proof.
  destruct s as [|d s]; simpl; [discriminate|].
  destruct (Ascii.eqb d c); [discriminate|].
  destruct (Str.split c s); discriminate.
Qed.

Lemma split_length (s : string) : List.length (Str.split c s) = S (Spec.count c s).
Proof.
  induction s as [|d s IH]; simpl; [reflexivity|].
  destruct (Ascii.eqb d c); simpl; [now rewrite IH|].
  destruct (Str.split c s) as [|w ws] eqn:E; simpl in *; [discriminate|exact IH].
Qed.

Lemma contains_count (s : string) :
  Str.contains c s = negb (Nat.eqb (Spec.count c s) 0).
Proof.
  induction s as [|d s IH]; simpl; [reflexivity|].
  destruct (Ascii.eqb d c); simpl; [reflexivity|exact IH].
Qed.

(** A string without the separator is one part. *)
Lemma split_none (s : string) : Spec.count c s = O -> Str.split c s = [s].
Proof.
  induction s as [|d s IH]; simpl; [reflexivity|].
  destruct (Ascii.eqb d c); [discriminate|].
  intros H. rewrite (IH H). reflexivity.
Qed.

(** The parts of [a ++ c ++ b] are those of [a], then those of [b]. *)
Lemma split_app (a b : string) :
  Str.split c (a ++ String c b) = (Str.split c a ++ Str.split c b)%list.
Proof.
  induction a as [|d a IH]; simpl.
  - rewrite Ascii.eqb_refl. reflexivity.
  - destruct (Ascii.eqb d c); [now rewrite IH|].
    rewrite IH. destruct (Str.split c a) as [|w ws] eqn:E; [|reflexivity].
    now destruct (split_not_nil a).
Qed.

Lemma split_pair (k v : string) :
  Spec.count c k = O -> Spec.count c v = O -> Str.split c (k ++ String c v) = [k; v].
Proof.
  intros Hk Hv. rewrite split_app, (split_none k Hk), (split_none v Hv). reflexivity.
Qed.

End Strings.

Lemma key_value_pair (k v : string) :
  Spec.count "=" k = O -> Spec.count "=" v = O ->
  Spec.key_value (k ++ String "=" v) = Some (k, v).
Proof. intros Hk Hv. unfold Spec.key_value. now rewrite split_pair. Qed.

Lemma key_value_count (part k v : string) :
  Spec.key_value part = Some (k, v) -> Spec.count "=" part = 1%nat.
Proof.
  unfold Spec.key_value. intros H.
  pose proof (split_length "=" part) as L.
  destruct (Str.split "=" part) as [|a [|b [|x l]]]; try discriminate.
  simpl in L. now injection L.
Qed.

Lemma count_key_value (part : string) :
  Spec.count "=" part = 1%nat -> exists k v, Spec.key_value part = Some (k, v).
Proof.
  intros H. unfold Spec.key_value.
  pose proof (split_length "=" part) as L. rewrite H in L.
  destruct (Str.split "=" part) as [|a [|b [|x l]]]; try discriminate.
  now exists a, b.
Qed.

(** ** The parser of file names *)

Section ExtractPart.

Import verify_performance.

(** The value of a segment, through the two handlers of the loop body. *)
Lemma coerce_in_loop (key text : string) (metrics : Dict.t value) :
  try_except
    (v <- (if Str.contains "." text
           then f <- Py.float_ text ;; ret (VFloat f)
           else n <- Py.int_ text ;; ret (VInt n)) ;;
     ret (Dict.set key v metrics))
    is_ValueError
    (fun _ => ret (Dict.set key (VStr text) metrics))
  = ret (Dict.set key (Spec.coerced text) metrics).
Proof.
  unfold Spec.coerced, Py.float_, Py.int_.
  destruct (Str.contains "." text).
  - destruct (Float.py_float text); reflexivity.
  - destruct (Num.py_int text); reflexivity.
Qed.

(** A segment without [=] leaves the mapping as it is. *)
Lemma extract_part_skip (part : string) (metrics : Dict.t value) :
  Spec.count "=" part = O -> extract_part part metrics = ret metrics.
Proof.
  intros H. unfold extract_part. rewrite contains_count, H. reflexivity.
Qed.

(** A segment with one [=] assigns the coerced value to the key. *)
Lemma extract_part_assign (part : string) (metrics : Dict.t value) :
  Spec.count "=" part = 1%nat ->
  extract_part part metrics = ret (Spec.assign metrics part).
Proof.
  intros H. unfold extract_part, Spec.assign, Spec.key_value.
  rewrite contains_count, H. simpl negb. cbv iota.
  pose proof (split_length "=" part) as L. rewrite H in L.
  destruct (Str.split "=" part) as [|k [|v [|x l]]]; try discriminate.
  unfold unpack2. rewrite bind_ret. apply coerce_in_loop.
Qed.

(** A segment with more raises, whatever the mapping. *)
Lemma extract_part_raise (part : string) (metrics : Dict.t value) :
  (2 <= Spec.count "=" part)%nat ->
  extract_part part metrics = raise ValueError "too many values to unpack (expected 2)".
Proof.
  intros H. unfold extract_part. rewrite contains_count.
  destruct (Spec.count "=" part) as [|[|n]] eqn:E; try lia. simpl negb. cbv iota.
  pose proof (split_length "=" part) as L. rewrite E in L.
  destruct (Str.split "=" part) as [|k [|v [|x l]]]; try discriminate.
  reflexivity.
Qed.

Lemma assign_skip (part : string) (metrics : Dict.t value) :
  Spec.count "=" part = O -> Spec.assign metrics part = metrics.
Proof.
  intros H. unfold Spec.assign, Spec.key_value.
  now rewrite (split_none "=" part H).
Qed.

(** The loop over segments with one [=] at most is the fold of the
    assignments. *)
Lemma for_each_parts (parts : list string) (metrics : Dict.t value) :
  Forall (fun part => (Spec.count "=" part <= 1)%nat) parts ->
  for_each parts extract_part metrics = ret (fold_left Spec.assign parts metrics).
Proof.
  intros H. revert metrics. induction H as [|part parts Hp _ IH]; intros metrics.
  - reflexivity.
  - cbn [for_each fold_left].
    assert (E : extract_part part metrics = ret (Spec.assign metrics part)).
    { destruct (Spec.count "=" part) as [|[|n]] eqn:C; try lia.
      - rewrite assign_skip by exact C. now apply extract_part_skip.
      - now apply extract_part_assign. }
    rewrite E, bind_ret. apply IH.
Qed.

(** The loop raises as soon as a segment has two [=]. *)
Lemma for_each_parts_raise (parts : list string) (metrics : Dict.t value) :
  Exists (fun part => (2 <= Spec.count "=" part)%nat) parts ->
  for_each parts extract_part metrics
  = raise ValueError "too many values to unpack (expected 2)".
Proof.
  intros H. revert metrics. induction parts as [|part parts IH]; intros metrics.
  - inversion H.
  - cbn [for_each].
    destruct (Spec.count "=" part) as [|[|n]] eqn:C.
    + rewrite extract_part_skip, bind_ret by exact C. apply IH.
      inversion H; subst; [lia|assumption].
    + rewrite extract_part_assign, bind_ret by exact C. apply IH.
      inversion H; subst; [lia|assumption].
    + rewrite extract_part_raise by lia. reflexivity.
Qed.

Lemma extract_metrics_ok (checkpoint_path : string) :
  Forall (fun part => (Spec.count "=" part <= 1)%nat) (Spec.parts_of checkpoint_path) ->
  extract_metrics_from_checkpoint checkpoint_path
  = ([], inr (Spec.metrics_of_parts (Spec.parts_of checkpoint_path))).
Proof.
  intros H. unfold extract_metrics_from_checkpoint.
  fold (Spec.parts_of checkpoint_path).
  rewrite (for_each_parts _ _ H). reflexivity.
Qed.

Lemma extract_metrics_failed (checkpoint_path : string) :
  Exists (fun part => (2 <= Spec.count "=" part)%nat) (Spec.parts_of checkpoint_path) ->
  extract_metrics_from_checkpoint checkpoint_path
  = (["Error extracting metrics: too many values to unpack (expected 2)"], inr Dict.empty).
Proof.
  intros H. unfold extract_metrics_from_checkpoint.
  fold (Spec.parts_of checkpoint_path).
  rewrite (for_each_parts_raise _ _ H). reflexivity.
Qed.

(** The parser returns a mapping, whatever the path. *)
Lemma extract_metrics_returns (checkpoint_path : string) :
  exists out m, extract_metrics_from_checkpoint checkpoint_path = (out, inr m).
Proof.
  destruct (Forall_Exists_dec (fun part => (Spec.count "=" part <= 1)%nat)
              (fun part => le_dec (Spec.count "=" part) 1) (Spec.parts_of checkpoint_path))
    as [Hall|Hex].
  - eexists _, _. now apply extract_metrics_ok.
  - eexists _, _. apply extract_metrics_failed.
    eapply Exists_impl; [|exact Hex]. simpl. intros; lia.
Qed.

End ExtractPart.

(** ** Dictionaries *)

Section Dictionaries.

Context {V : Type}.

Lemma get_set_eq (k : string) (v : V) (d : Dict.t V) :
  Dict.get k (Dict.set k v d) = Some v.
Proof.
  induction d as [|[k' v'] d IH]; simpl.
  - now rewrite String.eqb_refl.
  - destruct (String.eqb k k') eqn:E; simpl.
    + now rewrite String.eqb_refl.
    + rewrite E. exact IH.
Qed.

Lemma get_set_ne (k k' : string) (v : V) (d : Dict.t V) :
  k <> k' -> Dict.get k (Dict.set k' v d) = Dict.get k d.
Proof.
  intros Hne. induction d as [|[k0 v0] d IH]; simpl.
  - destruct (String.eqb_spec k k'); [contradiction|reflexivity].
  - destruct (String.eqb_spec k' k0) as [->|Hk0]; simpl.
    + destruct (String.eqb_spec k k0); [contradiction|reflexivity].
    + destruct (String.eqb k k0); [reflexivity|exact IH].
Qed.

Lemma mem_set (k k' : string) (v : V) (d : Dict.t V) :
  Dict.mem k d = true -> Dict.mem k (Dict.set k' v d) = true.
Proof.
  unfold Dict.mem. destruct (String.eqb_spec k k') as [->|Hne].
  - now rewrite get_set_eq.
  - now rewrite get_set_ne.
Qed.

End Dictionaries.

(** ** The mapping of a file name *)

Section Mapping.

Import verify_performance.

Lemma count_app (c : ascii) (a b : string) :
  Spec.count c (a ++ b) = (Spec.count c a + Spec.count c b)%nat.
Proof.
  induction a as [|d a IH]; simpl; [reflexivity|].
  destruct (Ascii.eqb d c); simpl; now rewrite IH.
Qed.

Lemma get_assign_other (key part : string) (m : Dict.t value) :
  (forall t, Spec.key_value part <> Some (key, t)) ->
  Dict.get key (Spec.assign m part) = Dict.get key m.
Proof.
  intros H. unfold Spec.assign.
  destruct (Spec.key_value part) as [[k v]|] eqn:E; [|reflexivity].
  apply get_set_ne. intros ->. now apply (H v).
Qed.

Lemma get_fold_other (key : string) (parts : list string) (m : Dict.t value) :
  Forall (fun part => forall t, Spec.key_value part <> Some (key, t)) parts ->
  Dict.get key (fold_left Spec.assign parts m) = Dict.get key m.
Proof.
  intros H. revert m. induction H as [|part parts Hp _ IH]; intros m; simpl.
  - reflexivity.
  - now rewrite IH, get_assign_other.
Qed.

Lemma mem_assign (k part : string) (m : Dict.t value) :
  Dict.mem k m = true -> Dict.mem k (Spec.assign m part) = true.
Proof.
  intros H. unfold Spec.assign.
  destruct (Spec.key_value part) as [[k' v]|]; [now apply mem_set|exact H].
Qed.

Lemma mem_fold (k : string) (parts : list string) (m : Dict.t value) :
  Dict.mem k m = true -> Dict.mem k (fold_left Spec.assign parts m) = true.
Proof.
  revert m. induction parts as [|part parts IH]; intros m H; simpl; [exact H|].
  now apply IH, mem_assign.
Qed.

(** Every segment that reads [key=value] leaves its key in the mapping. *)
Lemma mem_fold_key (k v part : string) (parts : list string) (m : Dict.t value) :
  In part parts -> Spec.key_value part = Some (k, v) ->
  Dict.mem k (fold_left Spec.assign parts m) = true.
Proof.
  revert m. induction parts as [|p parts IH]; intros m Hin Hkv; [contradiction|].
  simpl. destruct Hin as [->|Hin].
  - apply mem_fold. unfold Spec.assign. rewrite Hkv.
    unfold Dict.mem. now rewrite get_set_eq.
  - now apply IH.
Qed.

(** The segments without [=] can be left out. *)
Lemma fold_assign_filter (parts : list string) (m : Dict.t value) :
  fold_left Spec.assign (filter (Str.contains "=") parts) m
  = fold_left Spec.assign parts m.
Proof.
  revert m. induction parts as [|part parts IH]; intros m; simpl; [reflexivity|].
  destruct (Str.contains "=" part) eqn:E; simpl; [apply IH|].
  rewrite IH. f_equal. symmetry. apply assign_skip.
  rewrite contains_count in E. now destruct (Spec.count "=" part).
Qed.

End Mapping.

(** ** Paths *)

Section Paths.

(** The name of a path that ends in [/name]. *)
Lemma name_of_child (dir name : string) :
  Spec.count "/" name = O -> Path.is_component name = true ->
  Path.name (Path.parse (dir ++ "/" ++ name)) = name.
Proof.
  intros Hc Hn. unfold Path.name, Path.parse. cbn [Path.parts].
  change ("/" ++ name) with (String "/" name).
  rewrite split_app, filter_app, (split_none "/" name Hc).
  cbn [filter]. rewrite Hn. apply last_last.
Qed.

Lemma stem_of_child (dir name : string) :
  Spec.count "/" name = O -> Path.is_component name = true ->
  Path.stem (Path.parse (dir ++ "/" ++ name)) = Path.stem (Path.parse name).
Proof.
  intros Hc Hn. unfold Path.stem. rewrite (name_of_child dir name Hc Hn).
  replace (Path.name (Path.parse name)) with name; [reflexivity|].
  unfold Path.name, Path.parse. cbn [Path.parts].
  rewrite (split_none "/" name Hc). cbn [filter]. now rewrite Hn.
Qed.

End Paths.

Import verify_performance.

(** C1, as stated, fails: a value that has a decimal point is not always
    coerced to a float.  When [float()] does not read it, the inner handler
    keeps the text: the file [x=1.0.2.ckpt] gives the string [1.0.2]. *)
Lemma coerced_as_specified_counterexample :
  extract_metrics_from_checkpoint "x=1.0.2.ckpt" = ([], inr [("x", VStr "1.0.2")])
  /\ Str.contains "." "1.0.2" = true
  /\ Float.py_float "1.0.2" = None
  /\ ~ Spec.coerced_as_specified "1.0.2" (VStr "1.0.2").
Proof.
  split; [vm_compute; reflexivity|]. split; [reflexivity|]. split; [reflexivity|].
  unfold Spec.coerced_as_specified.
  replace (Str.contains "." "1.0.2") with true by reflexivity.
  intros [f H]. discriminate H.
Qed.

(** C1, amended.  The parser of checkpoint file names coerces the value of
    each [key=value] segment: a file named [a=1-b=2.5-c=text.ckpt], in any
    directory, gives the mapping of [a] to the integer 1, [b] to the float
    2.5 and [c] to the string [text]; in general the key of a segment is
    mapped to the value of its last segment, which is a float when the text
    has a decimal point and [float()] reads it, an integer when the text
    has no decimal point and [int()] reads it, and the text itself
    otherwise: so also for a text with a decimal point that is no float. *)
Theorem extract_metrics_coerces_values :
  (forall dir,
     extract_metrics_from_checkpoint (dir ++ "/" ++ "a=1-b=2.5-c=text.ckpt")
     = ([], inr [("a", VInt 1); ("b", VFloat Records.two_and_a_half); ("c", VStr "text")]))
  /\ extract_metrics_from_checkpoint "a=1-b=2.5-c=text.ckpt"
     = ([], inr [("a", VInt 1); ("b", VFloat Records.two_and_a_half); ("c", VStr "text")])
  /\ Spec.is_exactly (5 # 2) Records.two_and_a_half = true
  /\ (forall checkpoint_path pre key text post,
        Spec.parts_of checkpoint_path = (pre ++ (key ++ "=" ++ text)%string :: post)%list ->
        Spec.count "=" key = O -> Spec.count "=" text = O ->
        Forall (fun part => (Spec.count "=" part <= 1)%nat) (pre ++ post) ->
        Forall (fun part => forall t, Spec.key_value part <> Some (key, t)) post ->
        exists m,
          extract_metrics_from_checkpoint checkpoint_path = ([], inr m) /\
          Dict.get key m = Some (Spec.coerced text))
  /\ (forall text f,
        Str.contains "." text = true -> Float.py_float text = Some f ->
        Spec.coerced text = VFloat f)
  /\ (forall text n,
        Str.contains "." text = false -> Num.py_int text = Some n ->
        Spec.coerced text = VInt n)
  /\ (forall text,
        (if Str.contains "." text then Float.py_float text = None else Num.py_int text = None) ->
        Spec.coerced text = VStr text).
Proof.
  split; [|split; [|split; [|split; [|split; [|split]]]]].
  - intros dir. unfold extract_metrics_from_checkpoint.
    rewrite stem_of_child by reflexivity. vm_compute. reflexivity.
  - vm_compute. reflexivity.
  - vm_compute. reflexivity.
  - intros checkpoint_path pre key text post Hparts Hk Ht Hrest Hlast.
    assert (Hone : Spec.count "=" (key ++ "=" ++ text) = 1%nat).
    { rewrite count_app. simpl. rewrite Hk, Ht. reflexivity. }
    exists (Spec.metrics_of_parts (Spec.parts_of checkpoint_path)). split.
    + apply extract_metrics_ok. rewrite Hparts.
      apply Forall_app in Hrest as [Hpre Hpost].
      apply Forall_app. split; [exact Hpre|]. constructor; [lia|exact Hpost].
    + unfold Spec.metrics_of_parts. rewrite Hparts, fold_left_app. cbn [fold_left].
      rewrite get_fold_other by exact Hlast.
      unfold Spec.assign at 1.
      change (key ++ "=" ++ text) with (key ++ String "=" text).
      rewrite (key_value_pair key text Hk Ht). apply get_set_eq.
  - intros text f Hdot Hf. unfold Spec.coerced. now rewrite Hdot, Hf.
  - intros text n Hdot Hn. unfold Spec.coerced. now rewrite Hdot, Hn.
  - intros text H. unfold Spec.coerced.
    destruct (Str.contains "." text); now rewrite H.
Qed.

Lemma extract_metrics_coerces_values_witness :
  exists m,
    extract_metrics_from_checkpoint "checkpoints/epoch=1-step=230-val_loss=0.3504.ckpt"
    = ([], inr m)
    /\ Dict.get "val_loss" m = Some (Spec.coerced "0.3504")
    /\ Spec.coerced "0.3504" = VFloat Records.loss_0_3504
    /\ Spec.is_nearest (3504 # 10000) Records.loss_0_3504 = true
    /\ Spec.coerced "230" = VInt 230
    /\ Spec.coerced "nan" = VStr "nan"
    /\ Spec.coerced "1.0.2" = VStr "1.0.2".
Proof.
  destruct extract_metrics_coerces_values as (_ & _ & _ & Hget & Hfloat & Hint & Hstr).
  destruct (Hget "checkpoints/epoch=1-step=230-val_loss=0.3504.ckpt"
              ["epoch=1"; "step=230"] "val_loss" "0.3504" [])
    as [m [Hm Hv]].
  - reflexivity.
  - reflexivity.
  - reflexivity.
  - repeat constructor.
  - constructor.
  - exists m. split; [exact Hm|]. split; [exact Hv|]. split; [|split; [|split; [|split]]].
    + apply Hfloat; vm_compute; reflexivity.
    + vm_compute. reflexivity.
    + apply Hint; reflexivity.
    + apply Hstr; reflexivity.
    + apply Hstr; reflexivity.
Defined.

(** C2, as stated, fails: a segment with two [=] is malformed, and it is
    not skipped on its own.  The parse of [a=1-b=c=d.ckpt] prints an error
    and returns the empty mapping, without the entry of the segment
    [a=1]. *)
Lemma skips_malformed_counterexample :
  verify_performance.extract_metrics_from_checkpoint "a=1-b=c=d.ckpt"
  = (["Error extracting metrics: too many values to unpack (expected 2)"], inr Dict.empty)
  /\ In "a=1" (Spec.parts_of "a=1-b=c=d.ckpt")
  /\ Spec.key_value "a=1" = Some ("a", "1")
  /\ ~ Spec.skips_malformed "a=1-b=c=d.ckpt".
Proof.
  split; [reflexivity|]. split; [now left|]. split; [reflexivity|].
  intros [_ Hkeys].
  destruct (Hkeys "a=1" "a" "1") as [m [Hm Hmem]]; [now left|reflexivity|].
  vm_compute in Hm. injection Hm as <-. discriminate Hmem.
Qed.

(** C2, amended.  A segment without [=] is skipped on its own: when no
    segment has more than one [=], the parse is silent, its mapping is the
    one of the segments that have an [=], and every segment that reads
    [key=value] has its key in it.  A segment with two [=] or more is not
    skipped: the parse then prints the error and returns the empty
    mapping. *)
Theorem malformed_segments_amended (checkpoint_path : string) :
  let parts := Spec.parts_of checkpoint_path in
  (Forall (fun part => (Spec.count "=" part <= 1)%nat) parts ->
     extract_metrics_from_checkpoint checkpoint_path
     = ([], inr (Spec.metrics_of_parts (filter (Str.contains "=") parts)))
     /\ forall part k v,
          In part parts -> Spec.key_value part = Some (k, v) ->
          Dict.mem k (Spec.metrics_of_parts (filter (Str.contains "=") parts)) = true)
  /\ (Exists (fun part => (2 <= Spec.count "=" part)%nat) parts ->
        extract_metrics_from_checkpoint checkpoint_path
        = (["Error extracting metrics: too many values to unpack (expected 2)"],
           inr Dict.empty)).
Proof.
  intros parts. split.
  - intros Hall. unfold Spec.metrics_of_parts. rewrite fold_assign_filter. split.
    + now apply extract_metrics_ok.
    + intros part k v Hin Hkv. now apply (mem_fold_key k v part).
  - apply extract_metrics_failed.
Qed.

Lemma malformed_segments_amended_witness :
  extract_metrics_from_checkpoint "epoch=1-step=230-val_loss=0.3504-v1.ckpt"
  = ([], inr (Spec.metrics_of_parts ["epoch=1"; "step=230"; "val_loss=0.3504"]))
  /\ extract_metrics_from_checkpoint "a=1-b=c=d.ckpt"
     = (["Error extracting metrics: too many values to unpack (expected 2)"], inr Dict.empty).
Proof.
  split.
  - apply (proj1 (malformed_segments_amended "epoch=1-step=230-val_loss=0.3504-v1.ckpt")).
    vm_compute. repeat constructor.
  - apply (proj2 (malformed_segments_amended "a=1-b=c=d.ckpt")).
    vm_compute. apply Exists_cons_tl, Exists_cons_hd. repeat constructor.
Defined.

(** ** The order of numbers *)

Section Order.

Lemma ext_ltb_false (x y : Py.ext) : Py.ext_ltb y x = false <-> Spec.ext_le x y.
Proof.
  destruct x as [|p|], y as [|q|]; simpl; try tauto;
    try (split; [discriminate|contradiction]).
  rewrite Qle_alt, <- (Qcompare_antisym p q).
  destruct (Qcompare p q); simpl; split; congruence.
Qed.

Lemma ext_le_trans (x y z : Py.ext) :
  Spec.ext_le x y -> Spec.ext_le y z -> Spec.ext_le x z.
Proof.
  destruct x as [|p|], y as [|q|], z as [|r|]; simpl; try tauto.
  apply Qle_trans.
Qed.

Lemma ext_ltb_asym (x y : Py.ext) : Py.ext_ltb x y = true -> Py.ext_ltb y x = false.
Proof.
  destruct x as [|p|], y as [|q|]; simpl; try reflexivity; try discriminate.
  rewrite <- (Qcompare_antisym p q). destruct (Qcompare p q); simpl; congruence.
Qed.

Lemma num_ltb_asym (a b : value) : Py.num_ltb a b = true -> Py.num_ltb b a = false.
Proof.
  unfold Py.num_ltb. destruct (Py.ext_of a), (Py.ext_of b); try discriminate.
  apply ext_ltb_asym.
Qed.

(** "Not above" on real numbers is transitive. *)
Lemma num_le_trans (a b c : value) :
  Spec.is_real b = true ->
  Py.num_ltb b a = false -> Py.num_ltb c b = false -> Py.num_ltb c a = false.
Proof.
  unfold Spec.is_real, Py.num_ltb.
  destruct (Py.ext_of a) as [x|], (Py.ext_of b) as [y|], (Py.ext_of c) as [z|];
    try reflexivity; try discriminate.
  intros _. rewrite !ext_ltb_false. apply ext_le_trans.
Qed.

Lemma lt_real (a b : value) :
  Spec.is_real a = true -> Spec.is_real b = true -> Py.lt a b = ret (Py.num_ltb a b).
Proof.
  destruct a, b; try discriminate; reflexivity.
Qed.

End Order.

(** ** Sorting *)

Section Sorting.

Context {A : Type}.
Variable key : A -> value.

Let real (x : A) : Prop := Spec.is_real (key x) = true.
Let le (a b : A) : Prop := Py.num_ltb (key b) (key a) = false.

Lemma insert_real (x : A) (l : list A) :
  real x -> Forall real l ->
  exists l', Py.insert key x l = ret l' /\
             Permutation (x :: l) l' /\
             (StronglySorted le l -> StronglySorted le l').
Proof.
  intros Hx Hl. induction Hl as [|y l Hy Hl IH].
  - exists [x]. repeat split; auto. intros _. repeat constructor.
  - destruct IH as [r [Hins [Hperm Hsorted]]].
    cbn [Py.insert]. rewrite (lt_real _ _ Hy Hx), bind_ret.
    destruct (Py.num_ltb (key y) (key x)) eqn:E.
    + exists (y :: r). rewrite Hins, bind_ret. repeat split.
      * rewrite perm_swap. now constructor.
      * intros Hs. apply StronglySorted_inv in Hs as [Hs Hall].
        constructor; [now apply Hsorted|].
        eapply Permutation_Forall; [exact Hperm|].
        constructor; [|exact Hall]. now apply num_ltb_asym.
    + exists (x :: y :: l). repeat split; auto.
      intros Hs. constructor; [exact Hs|].
      apply StronglySorted_inv in Hs as [_ Hall].
      constructor; [exact E|].
      rewrite Forall_forall in Hall |- *. intros z Hz.
      apply (num_le_trans (key x) (key y) (key z) Hy E). now apply Hall.
Qed.

(** On real keys the sort returns, and returns the items in ascending
    order of their keys. *)
Lemma sorted_real (l : list A) :
  Forall real l ->
  exists l', Py.sorted key l = ret l' /\ Permutation l l' /\ StronglySorted le l'.
Proof.
  induction 1 as [|x l Hx Hl IH].
  - exists []. repeat split; constructor.
  - destruct IH as [s [Hs [Hperm Hsorted]]].
    destruct (insert_real x s Hx) as [r [Hr [Hperm' Hsorted']]].
    + eapply Permutation_Forall; eassumption.
    + exists r. cbn [Py.sorted]. rewrite Hs, bind_ret. repeat split; auto.
      apply perm_trans with (x :: s); [now constructor|exact Hperm'].
Qed.

Lemma strongly_sorted_after (R : A -> A -> Prop) (l1 l2 : list A) (c : A) :
  StronglySorted R (l1 ++ c :: l2) -> Forall (R c) l2.
Proof.
  induction l1 as [|a l1 IH]; simpl; intros H; apply StronglySorted_inv in H as [H Hall].
  - exact Hall.
  - now apply IH.
Qed.

End Sorting.

(** ** The listing *)

Section Listing.

Import verify_performance.

Lemma metrics_of_extract (p : string) :
  exists out, extract_metrics_from_checkpoint p = (out, inr (Spec.metrics_of p)).
Proof.
  destruct (extract_metrics_returns p) as [out [m H]].
  exists out. unfold Spec.metrics_of. now rewrite H.
Qed.

(** The loop of [list_checkpoints] collects the records in scan order. *)
Lemma scan_records (files : list Path.path) (acc : list checkpoint) :
  exists out,
    for_each files
      (fun ckpt_file checkpoints =>
         metrics <- extract_metrics_from_checkpoint (Path.str ckpt_file) ;;
         ret ((checkpoints ++ [ {| filename := Path.name ckpt_file;
                                   path := Path.str ckpt_file;
                                   metrics := metrics |} ])%list))
      acc
    = (out, inr (acc ++ map Spec.record_of files)%list).
Proof.
  set (body := fun (ckpt_file : Path.path) (checkpoints : list checkpoint) =>
                 metrics <- extract_metrics_from_checkpoint (Path.str ckpt_file) ;;
                 ret ((checkpoints ++ [ {| filename := Path.name ckpt_file;
                                           path := Path.str ckpt_file;
                                           metrics := metrics |} ])%list)).
  revert acc. induction files as [|f files IH]; intros acc.
  - exists []. simpl. now rewrite app_nil_r.
  - destruct (metrics_of_extract (Path.str f)) as [out1 H1].
    destruct (IH (acc ++ [Spec.record_of f])%list) as [out2 H2].
    exists (out1 ++ out2)%list. cbn [for_each].
    unfold body at 1. rewrite H1, bind_value.
    cbn [fst snd ret Monad_M]. fold (Spec.record_of f).
    rewrite bind_value, H2. cbn [fst snd map].
    now rewrite app_nil_r, <- app_assoc.
Qed.

End Listing.

(** ** No file name gives a NaN *)

Section Rounding.

Let nonneg (mrs : shr_record) : Prop := 0 <= shr_m mrs.

Lemma shr_1_nonneg (mrs : shr_record) : nonneg mrs -> nonneg (shr_1 mrs).
Proof.
  unfold nonneg. destruct mrs as [m r s]. simpl.
  destruct m as [|[p|p|]|[p|p|]]; simpl; intros H; lia.
Qed.

Lemma iter_shr_1_nonneg (p : positive) (mrs : shr_record) :
  nonneg mrs -> nonneg (iter_pos shr_1 p mrs).
Proof.
  revert mrs. induction p as [p IH|p IH|]; intros mrs H; simpl.
  - apply IH, IH, shr_1_nonneg, H.
  - apply IH, IH, H.
  - apply shr_1_nonneg, H.
Qed.

Lemma shr_fexp_nonneg (m e : Z) (l : location) :
  0 <= m -> nonneg (fst (shr_fexp Float.prec Float.emax m e l)).
Proof.
  intros H. unfold shr_fexp, shr.
  assert (H0 : nonneg (shr_record_of_loc m l)).
  { unfold nonneg. destruct l as [|[| |]]; exact H. }
  destruct (fexp Float.prec Float.emax (Zdigits2 m + e) - e); simpl;
    [exact H0|now apply iter_shr_1_nonneg|exact H0].
Qed.

Lemma round_nearest_even_nonneg (m : Z) (l : location) :
  0 <= m -> 0 <= round_nearest_even m l.
Proof.
  intros H. destruct l as [|[| |]]; simpl; try lia.
  destruct (Z.even m); lia.
Qed.

(** Rounding a mantissa that is not negative gives no NaN. *)
Lemma binary_round_aux_number (s : bool) (m e : Z) (l : location) :
  0 <= m -> binary_round_aux Float.prec Float.emax s m e l <> S754_nan.
Proof.
  intros H. unfold binary_round_aux.
  pose proof (shr_fexp_nonneg m e l H) as H1.
  destruct (shr_fexp Float.prec Float.emax m e l) as [mrs' e'].
  cbn [fst] in H1. unfold nonneg in H1.
  pose proof (shr_fexp_nonneg
                (round_nearest_even (shr_m mrs') (loc_of_shr_record mrs')) e' loc_Exact
                (round_nearest_even_nonneg _ _ H1)) as H2.
  destruct (shr_fexp Float.prec Float.emax
              (round_nearest_even (shr_m mrs') (loc_of_shr_record mrs')) e' loc_Exact)
    as [mrs'' e''].
  cbn [fst] in H2. unfold nonneg in H2.
  destruct (shr_m mrs'') as [|p|p]; [discriminate| |lia].
  destruct (e'' <=? Float.emax - Float.prec); discriminate.
Qed.

Lemma of_ratio_number (s : bool) (n d : positive) : Float.of_ratio s n d <> S754_nan.
Proof.
  unfold Float.of_ratio, SFdiv_core_binary.
  set (e' := Z.min _ _). set (m' := match 0 - 0 - e' with Z0 => _ | Zpos _ => _ | Zneg _ => _ end).
  assert (Hm : 0 <= m').
  { unfold m'. destruct (0 - 0 - e'); try lia. apply Z.shiftl_nonneg. lia. }
  pose proof (Z_div_mod m' (Zpos d) eq_refl) as Hdiv.
  destruct (Z.div_eucl m' (Zpos d)) as [q r]. destruct Hdiv as [Hq Hr].
  apply binary_round_aux_number. nia.
Qed.

Lemma of_decimal_number (s : bool) (m e : Z) : Float.of_decimal s m e <> S754_nan.
Proof.
  unfold Float.of_decimal. destruct m; try discriminate.
  destruct (0 <=? e); apply of_ratio_number.
Qed.

End Rounding.

Section NoNaN.

Lemma lstrip_keeps (x : ascii) (l : list ascii) :
  Num.is_space x = false -> In x l -> In x (Num.lstrip l).
Proof.
  intros Hx. induction l as [|c l IH]; simpl; [auto|].
  destruct (Num.is_space c) eqn:E; [|auto].
  intros [->|H]; [congruence|auto].
Qed.

Lemma strip_keeps (x : ascii) (l : list ascii) :
  Num.is_space x = false -> In x l -> In x (Num.strip l).
Proof.
  intros Hx H. unfold Num.strip.
  apply -> in_rev. apply lstrip_keeps; [exact Hx|].
  apply -> in_rev. now apply lstrip_keeps.
Qed.

Lemma drop_underscores_keeps (x : ascii) (l l' : list ascii) (prev : ascii) :
  x <> "_"%char -> Num.drop_underscores prev l = Some l' -> In x l -> In x l'.
Proof.
  intros Hx. revert prev l'. induction l as [|c l IH]; intros prev l' H Hin; [contradiction|].
  simpl in H. destruct (Ascii.eqb_spec c "_") as [->|Hc].
  - destruct (Num.is_digit prev); [|discriminate].
    destruct Hin as [<-|Hin]; [contradiction|]. eapply IH; eauto.
  - destruct (Ascii.eqb prev "_" && negb (Num.is_digit c))%bool; [discriminate|].
    destruct (Num.drop_underscores c l) as [r|] eqn:E; [|discriminate].
    injection H as <-. destruct Hin as [<-|Hin]; [now left|right]. eapply IH; eauto.
Qed.

Lemma take_sign_keeps (l : list ascii) :
  In "."%char l -> In "."%char (snd (Num.take_sign l)).
Proof.
  destruct l as [|c l]; [contradiction|]. simpl.
  destruct (Ascii.eqb_spec c "-") as [->|H1]; simpl.
  - intros [H|H]; [discriminate|exact H].
  - destruct (Ascii.eqb_spec c "+") as [->|H2]; simpl; [|auto].
    intros [H|H]; [discriminate|exact H].
Qed.

Lemma contains_chars (c : ascii) (s : string) :
  Str.contains c s = true -> In c (Str.chars s).
Proof.
  induction s as [|d s IH]; simpl; [discriminate|].
  destruct (Ascii.eqb_spec d c) as [->|H]; simpl; [now left|]. intros E. right. now apply IH.
Qed.

Lemma parse_inf_nan_with_point (neg : bool) (l : list ascii) :
  In "."%char l -> Float.parse_inf_nan neg l <> Some S754_nan.
Proof.
  intros Hin. unfold Float.parse_inf_nan.
  destruct (_ || _)%bool; [discriminate|].
  destruct (String.eqb_spec (Str.of_chars (map Float.lower l)) "nan") as [E|E]; [|discriminate].
  exfalso. apply (f_equal list_ascii_of_string) in E.
  unfold Str.of_chars in E. rewrite list_ascii_of_string_of_list_ascii in E.
  apply (in_map Float.lower) in Hin. rewrite E in Hin. simpl in Hin.
  destruct Hin as [H|[H|[H|[]]]]; discriminate H.
Qed.

Lemma parse_decimal_number (neg : bool) (l : list ascii) :
  Float.parse_decimal neg l <> Some S754_nan.
Proof.
  unfold Float.parse_decimal.
  destruct (Num.span_digits l) as [ip r1].
  destruct (match r1 with
            | [] => ([], [])
            | c :: r => if Ascii.eqb c "." then Num.span_digits r else ([], r1)
            end) as [fp r2].
  destruct (ip ++ fp)%list; [discriminate|].
  destruct (Float.parse_exponent r2); [|discriminate].
  intros H. injection H as H. now apply of_decimal_number in H.
Qed.

(** A text with a decimal point does not read as a NaN. *)
Lemma py_float_with_point (text : string) :
  Str.contains "." text = true -> Float.py_float text <> Some S754_nan.
Proof.
  intros Hdot. apply contains_chars in Hdot. unfold Float.py_float.
  destruct (Num.drop_underscores " " (Num.strip (Str.chars text))) as [l|] eqn:E; [|discriminate].
  assert (Hl : In "."%char l).
  { eapply drop_underscores_keeps; [discriminate|exact E|].
    apply strip_keeps; [reflexivity|exact Hdot]. }
  apply take_sign_keeps in Hl.
  destruct (Num.take_sign l) as [neg body]. cbn [snd] in Hl.
  pose proof (parse_decimal_number neg body) as Hd.
  destruct (Float.parse_decimal neg body) as [f|]; [congruence|].
  now apply parse_inf_nan_with_point.
Qed.

Lemma coerced_real (text : string) :
  Py.is_number (Spec.coerced text) = true -> Spec.is_real (Spec.coerced text) = true.
Proof.
  unfold Spec.coerced. destruct (Str.contains "." text) eqn:Hdot.
  - pose proof (py_float_with_point text Hdot) as Hnan.
    destruct (Float.py_float text) as [[s|s| |s m e]|]; try reflexivity; try discriminate.
    now destruct Hnan.
  - destruct (Num.py_int text); [reflexivity|discriminate].
Qed.

(** The numbers in the mapping of a file name are real. *)
Let real_values (m : Dict.t value) : Prop :=
  forall k v, Dict.get k m = Some v -> Py.is_number v = true -> Spec.is_real v = true.

Lemma real_values_set (k : string) (text : string) (m : Dict.t value) :
  real_values m -> real_values (Dict.set k (Spec.coerced text) m).
Proof.
  intros Hm k' v Hget Hnum. destruct (String.eqb_spec k' k) as [->|Hne].
  - rewrite get_set_eq in Hget. injection Hget as <-. now apply coerced_real.
  - rewrite get_set_ne in Hget by exact Hne. now apply (Hm k').
Qed.

Lemma real_values_parts (parts : list string) (m : Dict.t value) :
  real_values m -> real_values (fold_left Spec.assign parts m).
Proof.
  revert m. induction parts as [|part parts IH]; intros m Hm; simpl; [exact Hm|].
  apply IH. unfold Spec.assign. destruct (Spec.key_value part) as [[k v]|]; [|exact Hm].
  now apply real_values_set.
Qed.

Lemma metrics_of_real (checkpoint_path : string) : real_values (Spec.metrics_of checkpoint_path).
Proof.
  unfold Spec.metrics_of.
  destruct (Forall_Exists_dec (fun part => (Spec.count "=" part <= 1)%nat)
              (fun part => le_dec (Spec.count "=" part) 1) (Spec.parts_of checkpoint_path))
    as [Hall|Hex].
  - rewrite (extract_metrics_ok _ Hall). cbn [result snd].
    apply real_values_parts. intros k v H. discriminate H.
  - rewrite extract_metrics_failed.
    + intros k v H. discriminate H.
    + eapply Exists_impl; [|exact Hex]. simpl. intros; lia.
Qed.

(** The key of a parsed record is real as soon as it is a number. *)
Lemma parsed_record_key_real (f : Path.path) :
  Py.is_number (verify_performance.val_loss_key (Spec.record_of f)) = true ->
  Spec.is_real (verify_performance.val_loss_key (Spec.record_of f)) = true.
Proof.
  unfold verify_performance.val_loss_key, Dict.get_default, Spec.record_of.
  cbn [verify_performance.metrics].
  destruct (Dict.get "val_loss" (Spec.metrics_of (Path.str f))) as [v|] eqn:E; [|reflexivity].
  now apply (metrics_of_real (Path.str f) "val_loss").
Qed.

Lemma parsed_records_real (fs : Path.filesystem) (checkpoint_dir : string) :
  Forall (fun c => Py.is_number (verify_performance.val_loss_key c) = true)
         (Spec.parsed_records fs checkpoint_dir) ->
  Forall (fun c => Spec.is_real (verify_performance.val_loss_key c) = true)
         (Spec.parsed_records fs checkpoint_dir).
Proof.
  unfold Spec.parsed_records. rewrite !Forall_map.
  apply Forall_impl. intros f. apply parsed_record_key_real.
Qed.

End NoNaN.

Section ListCheckpoints.

Import verify_performance.

Variable fs : Path.filesystem.
Variable checkpoint_dir : string.

Lemma list_checkpoints_missing :
  fs (Path.str (Path.parse checkpoint_dir)) = None ->
  list_checkpoints fs checkpoint_dir
  = (["Checkpoint directory not found: " ++ Fmt.encode checkpoint_dir], inr []).
Proof.
  intros H. unfold list_checkpoints, Path.exists_. rewrite H. reflexivity.
Qed.

(** An error of the operating system ends the listing before it prints. *)
Lemma list_checkpoints_os_error (msg : string) :
  Spec.os_error fs checkpoint_dir = Some msg ->
  list_checkpoints fs checkpoint_dir
  = ([], inl {| exn_kind := OSError; exn_msg := msg |}).
Proof.
  unfold Spec.os_error, list_checkpoints, Path.exists_, Path.glob_suffix.
  destruct (fs (Path.str (Path.parse checkpoint_dir))) as [[|entries|m|m]|];
    try discriminate; intros [= ->]; reflexivity.
Qed.

(** A path that exists is scanned, and the records are sorted. *)
Lemma list_checkpoints_scanned :
  fs (Path.str (Path.parse checkpoint_dir)) <> None ->
  Spec.os_error fs checkpoint_dir = None ->
  exists out,
    list_checkpoints fs checkpoint_dir
    = bind ((out, inr (Spec.parsed_records fs checkpoint_dir)) : M (list checkpoint))
           (Py.sorted val_loss_key).
Proof.
  intros H Hos.
  destruct (scan_records (Spec.scanned_files fs checkpoint_dir) []) as [out Hscan].
  exists out. revert Hos Hscan.
  unfold Spec.parsed_records, Spec.scanned_files, Spec.os_error, list_checkpoints,
    Path.exists_, Path.glob_suffix.
  destruct (fs (Path.str (Path.parse checkpoint_dir))) as [[|entries|m|m]|];
    try discriminate; try contradiction; intros _ Hscan; cbn [os_call negb];
    rewrite !bind_ret; cbv iota; rewrite Hscan; reflexivity.
Qed.

Lemma parsed_records_no_directory :
  (forall entries, fs (Path.str (Path.parse checkpoint_dir)) <> Some (Path.Dir entries)) ->
  Spec.parsed_records fs checkpoint_dir = [].
Proof.
  intros H. unfold Spec.parsed_records, Spec.scanned_files, Path.glob_suffix.
  destruct (fs (Path.str (Path.parse checkpoint_dir))) as [[|entries|m|m]|]; try reflexivity.
  now destruct (H entries).
Qed.

End ListCheckpoints.

(** ** The key of the sort and the validation loss *)

Section Loss.

Import verify_performance.

(** The key of the sort stands for the validation loss of the record. *)
Lemma key_loss (c : checkpoint) : Py.ext_of (val_loss_key c) = Spec.loss c.
Proof.
  unfold val_loss_key, Spec.loss, Dict.get_default.
  now destruct (Dict.get "val_loss" (metrics c)).
Qed.

Lemma key_numeric (c : checkpoint) : Py.is_number (val_loss_key c) = Spec.numeric_loss c.
Proof.
  unfold val_loss_key, Spec.numeric_loss, Dict.get_default.
  now destruct (Dict.get "val_loss" (metrics c)).
Qed.

Lemma key_le_loss (a b : checkpoint) :
  Spec.is_real (val_loss_key a) = true -> Spec.is_real (val_loss_key b) = true ->
  Py.num_ltb (val_loss_key b) (val_loss_key a) = false -> Spec.loss_le a b.
Proof.
  unfold Spec.is_real, Py.num_ltb, Spec.loss_le. rewrite <- !key_loss.
  destruct (Py.ext_of (val_loss_key a)) as [x|], (Py.ext_of (val_loss_key b)) as [y|];
    try discriminate.
  intros _ _. apply ext_ltb_false.
Qed.

Lemma strongly_sorted_among {A : Type} (P : A -> Prop) (R R' : A -> A -> Prop) (l : list A) :
  (forall a b, P a -> P b -> R a b -> R' a b) ->
  Forall P l -> StronglySorted R l -> StronglySorted R' l.
Proof.
  intros H Hl Hs. induction Hs as [|a l Hs IH Hall]; [constructor|].
  apply Forall_cons_iff in Hl as [Ha Hl]. constructor; [now apply IH|].
  rewrite Forall_forall in *. intros b Hb. apply H; auto.
Qed.

End Loss.

(** C3, as stated, fails: two checkpoints with the same validation loss
    are listed one after the other, and their values are not in strictly
    ascending order. *)
Lemma sorted_strictly_counterexample :
  map verify_performance.filename (Spec.parsed_records Examples.same_loss "checkpoints")
  = ["epoch=1-step=230-val_loss=0.3504.ckpt"; "epoch=2-step=460-val_loss=0.3504.ckpt"]
  /\ (exists l,
        verify_performance.list_checkpoints Examples.same_loss "checkpoints" = ([], inr l)
        /\ map (fun c => Dict.get "val_loss" (verify_performance.metrics c)) l
           = [Some (VFloat Records.loss_0_3504); Some (VFloat Records.loss_0_3504)])
  /\ ~ Spec.sorted_strictly Examples.same_loss "checkpoints".
Proof.
  split; [reflexivity|]. split; [eexists; split; vm_compute; reflexivity|].
  intros [l [Hres [_ [_ Hstrict]]]].
  vm_compute in Hres. injection Hres as <-.
  unfold Spec.strictly_ascending in Hstrict. cbn [filter] in Hstrict.
  change (Spec.has_val_loss _) with true in Hstrict. cbv iota in Hstrict.
  change (Spec.has_val_loss _) with true in Hstrict. cbv iota in Hstrict.
  apply StronglySorted_inv in Hstrict as [_ Hall].
  apply Forall_inv in Hall. vm_compute in Hall. discriminate Hall.
Qed.

(** C3, amended.  When the directory is looked up and scanned without an
    error and every validation loss a file name gives is a number,
    [list_checkpoints] returns the parsed records of the directory, each
    once, in ascending order of the number their mapping has under
    [val_loss], a missing one counting as positive infinity; the order is
    not strict, as two records may have the same value.  A record that
    lacks the validation loss is followed only by records that lack it or
    whose value is infinite. *)
Theorem list_checkpoints_ascending (fs : Path.filesystem) (checkpoint_dir : string) :
  Spec.os_error fs checkpoint_dir = None ->
  Forall (fun c => Spec.numeric_loss c = true) (Spec.parsed_records fs checkpoint_dir) ->
  exists l,
    result (verify_performance.list_checkpoints fs checkpoint_dir) = inr l /\
    Permutation (Spec.parsed_records fs checkpoint_dir) l /\
    StronglySorted Spec.loss_le l /\
    Spec.missing_after_finite l.
Proof.
  intros Hos Hnumbers.
  assert (Hkeys : Forall (fun c => Py.is_number (verify_performance.val_loss_key c) = true)
                         (Spec.parsed_records fs checkpoint_dir)).
  { eapply Forall_impl; [|exact Hnumbers]. intros c. now rewrite key_numeric. }
  apply parsed_records_real in Hkeys as Hreal.
  destruct (fs (Path.str (Path.parse checkpoint_dir))) as [n|] eqn:E.
  - destruct (list_checkpoints_scanned fs checkpoint_dir) as [out Hlist];
      [congruence|exact Hos|].
    destruct (sorted_real verify_performance.val_loss_key _ Hreal) as [l [Hs [Hperm Hsorted]]].
    assert (Hl : Forall (fun c => Spec.is_real (verify_performance.val_loss_key c) = true) l).
    { eapply Permutation_Forall; eassumption. }
    exists l. rewrite Hlist, bind_value, Hs. split; [reflexivity|]. split; [exact Hperm|].
    split.
    + eapply strongly_sorted_among; [|exact Hl|exact Hsorted].
      intros a b Ha Hb. now apply key_le_loss.
    + intros l1 c l2 -> Hc.
      apply strongly_sorted_after in Hsorted.
      apply Forall_app in Hl as [_ Hl]. apply Forall_cons_iff in Hl as [_ Hl].
      rewrite Forall_forall in *. intros d Hd.
      specialize (Hsorted d Hd). specialize (Hl d Hd). cbv beta in Hsorted.
      replace (verify_performance.val_loss_key c) with (VFloat Float.pos_inf) in Hsorted.
      * unfold Spec.is_real in Hl. unfold Py.num_ltb in Hsorted.
        rewrite key_loss in Hl, Hsorted.
        destruct (Spec.loss d) as [[|q|]|]; try discriminate; reflexivity.
      * unfold verify_performance.val_loss_key, Dict.get_default.
        unfold Spec.has_val_loss, Dict.mem in Hc.
        now destruct (Dict.get "val_loss" (verify_performance.metrics c)).
  - rewrite (list_checkpoints_missing fs checkpoint_dir E).
    rewrite parsed_records_no_directory by congruence.
    exists []. repeat split; try constructor.
    intros [|a l1] c l2 H; discriminate H.
Qed.

Lemma list_checkpoints_ascending_witness :
  exists l,
    result (verify_performance.list_checkpoints Examples.three_checkpoints "checkpoints") = inr l /\
    Permutation (Spec.parsed_records Examples.three_checkpoints "checkpoints") l /\
    StronglySorted Spec.loss_le l /\
    Spec.missing_after_finite l /\
    map verify_performance.filename (Spec.parsed_records Examples.three_checkpoints "checkpoints")
    = ["epoch=2-step=500-val_loss=0.3400.ckpt"; "last.ckpt";
       "epoch=1-step=230-val_loss=0.3504.ckpt"] /\
    map (fun c => (verify_performance.filename c,
                   Dict.get "val_loss" (verify_performance.metrics c))) l
    = [("epoch=2-step=500-val_loss=0.3400.ckpt", Some (VFloat Records.loss_0_34));
       ("epoch=1-step=230-val_loss=0.3504.ckpt", Some (VFloat Records.loss_0_3504));
       ("last.ckpt", None)].
Proof.
  destruct (list_checkpoints_ascending Examples.three_checkpoints "checkpoints")
    as [l [Hl [Hperm [Hsorted Hlast]]]].
  - reflexivity.
  - vm_compute. repeat constructor.
  - exists l. repeat (split; [assumption|]). split; [vm_compute; reflexivity|].
    vm_compute in Hl. injection Hl as <-. vm_compute. reflexivity.
Defined.

(** C6, as stated, fails.  A path that names a file, not a directory, gives
    the empty list, but no notice is printed.  And for a path that the
    operating system refuses to look up, as one with a name of 300
    characters, [exists()] raises: the listing ends with the [OSError], it
    returns no list and prints no notice. *)
Lemma empty_with_notice_counterexample :
  ~ Spec.names_directory Examples.only_a_file "model.bin"
  /\ verify_performance.list_checkpoints Examples.only_a_file "model.bin" = ([], inr [])
  /\ ~ Spec.empty_with_notice Examples.only_a_file "model.bin"
  /\ ~ Spec.names_directory Examples.name_too_long Examples.long_name
  /\ verify_performance.list_checkpoints Examples.name_too_long Examples.long_name
     = ([], inl {| exn_kind := OSError;
                   exn_msg := "[Errno 36] File name too long: '" ++ Examples.long_name ++ "'" |})
  /\ ~ Spec.empty_with_notice Examples.name_too_long Examples.long_name.
Proof.
  split; [|split; [|split; [|split; [|split]]]].
  - intros [entries He]. vm_compute in He. discriminate He.
  - reflexivity.
  - intros H. unfold Spec.empty_with_notice in H. vm_compute in H. discriminate H.
  - intros [entries He]. vm_compute in He. discriminate He.
  - vm_compute. reflexivity.
  - intros H. unfold Spec.empty_with_notice in H. vm_compute in H. discriminate H.
Qed.

(** C6, amended.  A path that the lookup reports as absent gives the empty
    list and the notice; a path that exists and is no directory gives the
    empty list without a notice; so does a directory without checkpoint
    files, an empty one in particular.  None of them raises.  When the
    lookup fails with another error of the operating system, or the scan
    of the directory does, the listing raises that [OSError] and prints
    nothing. *)
Theorem list_checkpoints_fails_soft (fs : Path.filesystem) (checkpoint_dir : string) :
  (fs (Path.str (Path.parse checkpoint_dir)) = None ->
     Spec.empty_with_notice fs checkpoint_dir)
  /\ (fs (Path.str (Path.parse checkpoint_dir)) = Some Path.File ->
        verify_performance.list_checkpoints fs checkpoint_dir = ([], inr []))
  /\ (forall entries,
        fs (Path.str (Path.parse checkpoint_dir)) = Some (Path.Dir entries) ->
        filter (Str.endswith ".ckpt") entries = [] ->
        verify_performance.list_checkpoints fs checkpoint_dir = ([], inr []))
  /\ (forall msg,
        fs (Path.str (Path.parse checkpoint_dir)) = Some (Path.Failing msg) ->
        verify_performance.list_checkpoints fs checkpoint_dir
        = ([], inl {| exn_kind := OSError; exn_msg := msg |}))
  /\ (forall msg,
        fs (Path.str (Path.parse checkpoint_dir)) = Some (Path.Unscannable msg) ->
        verify_performance.list_checkpoints fs checkpoint_dir
        = ([], inl {| exn_kind := OSError; exn_msg := msg |})).
Proof.
  split; [|split; [|split; [|split]]].
  - apply list_checkpoints_missing.
  - intros H. unfold verify_performance.list_checkpoints, Path.exists_, Path.glob_suffix.
    rewrite H. reflexivity.
  - intros entries H Hnone.
    unfold verify_performance.list_checkpoints, Path.exists_, Path.glob_suffix.
    rewrite H, Hnone. reflexivity.
  - intros msg H. apply list_checkpoints_os_error. unfold Spec.os_error. now rewrite H.
  - intros msg H. apply list_checkpoints_os_error. unfold Spec.os_error. now rewrite H.
Qed.

Lemma list_checkpoints_fails_soft_witness :
  Spec.empty_with_notice Examples.nothing "checkpoints"
  /\ verify_performance.list_checkpoints Examples.only_a_file "model.bin" = ([], inr [])
  /\ verify_performance.list_checkpoints (Examples.checkpoints_with []) "checkpoints" = ([], inr [])
  /\ verify_performance.list_checkpoints Examples.not_searchable "checkpoints"
     = ([], inl {| exn_kind := OSError;
                   exn_msg := "[Errno 13] Permission denied: 'checkpoints'" |})
  /\ verify_performance.list_checkpoints Examples.unscannable "checkpoints"
     = ([], inl {| exn_kind := OSError;
                   exn_msg := "[Errno 5] Input/output error: 'checkpoints'" |}).
Proof.
  split; [|split; [|split; [|split]]].
  - apply (proj1 (list_checkpoints_fails_soft Examples.nothing "checkpoints")). reflexivity.
  - apply (proj1 (proj2 (list_checkpoints_fails_soft Examples.only_a_file "model.bin"))).
    reflexivity.
  - apply (proj1 (proj2 (proj2 (list_checkpoints_fails_soft (Examples.checkpoints_with [])
                                   "checkpoints"))) []); reflexivity.
  - apply (proj1 (proj2 (proj2 (proj2 (list_checkpoints_fails_soft Examples.not_searchable
                                          "checkpoints"))))). reflexivity.
  - apply (proj2 (proj2 (proj2 (proj2 (list_checkpoints_fails_soft Examples.unscannable
                                          "checkpoints"))))). reflexivity.
Defined.

(** ** The verdict *)

Section Verdict.

Import verify_performance.








End Verdict.

(** C5, as stated, fails.  For the checkpoint
    [epoch=2-step=500-val_loss=0.3400.ckpt] and the expected validation
    loss 0.3504 the difference the code computes is the binary64 number
    -0.010399999999999965, twenty units in the last place away from the
    number nearest to -0.0104, and the percentage is -2.9680365296803553,
    not -2.97. *)
Lemma scenario_as_specified_counterexample :
  verify_performance.extract_metrics_from_checkpoint "epoch=2-step=500-val_loss=0.3400.ckpt"
  = ([], inr [("epoch", VInt 2); ("step", VInt 500); ("val_loss", VFloat Records.loss_0_34)])
  /\ Dict.get "val_loss" verify_performance.expected_results = Some Records.loss_0_3504
  /\ Py.sub_float (VFloat Records.loss_0_34) Records.loss_0_3504
     = ([], inr Records.scenario_diff)
  /\ verify_performance.percent Records.scenario_diff Records.loss_0_3504
     = Records.scenario_pct
  /\ Fmt.repr_float Records.scenario_diff = "-0.010399999999999965"
  /\ Fmt.repr_float Records.scenario_pct = "-2.9680365296803553"
  /\ Spec.is_nearest (-104 # 10000) Records.scenario_diff = false
  /\ Spec.is_nearest (-297 # 100) Records.scenario_pct = false
  /\ ~ Spec.scenario_as_specified Records.scenario_diff Records.scenario_pct.
Proof.
  repeat (split; [vm_compute; reflexivity|]).
  intros [H _]. vm_compute in H. discriminate H.
Qed.

(** C5, amended.  For the checkpoint [epoch=2-step=500-val_loss=0.3400.ckpt]
    the validation loss is the binary64 number nearest to 0.34 and the
    expected one the number nearest to 0.3504; the difference the code
    computes is -0.010399999999999965, which is within 10^-16 of -0.0104
    and is printed as [-0.0104] at the four decimals of the report; the
    percentage is -2.9680365296803553, which is -2.97 at two decimals, and
    the report, which prints one decimal, shows it as [-3.0%]. *)
Theorem scenario_difference_and_percentage :
  verify_performance.extract_metrics_from_checkpoint "epoch=2-step=500-val_loss=0.3400.ckpt"
  = ([], inr [("epoch", VInt 2); ("step", VInt 500); ("val_loss", VFloat Records.loss_0_34)])
  /\ Spec.is_nearest (34 # 100) Records.loss_0_34 = true
  /\ Dict.get "val_loss" verify_performance.expected_results = Some Records.loss_0_3504
  /\ Spec.is_nearest (3504 # 10000) Records.loss_0_3504 = true
  /\ Py.sub_float (VFloat Records.loss_0_34) Records.loss_0_3504
     = ([], inr Records.scenario_diff)
  /\ verify_performance.percent Records.scenario_diff Records.loss_0_3504
     = Records.scenario_pct
  /\ Fmt.repr_float Records.scenario_diff = "-0.010399999999999965"
  /\ Fmt.repr_float Records.scenario_pct = "-2.9680365296803553"
  /\ Spec.is_within (1 # 10 ^ 16) (-104 # 10000) Records.scenario_diff = true
  /\ Spec.is_within (2 # 1000) (-297 # 100) Records.scenario_pct = true
  /\ Fmt.format_f false 4 Records.scenario_diff = "-0.0104"
  /\ Fmt.format_f false 2 Records.scenario_pct = "-2.97"
  /\ verify_performance.compare_metric
       [("epoch", VInt 2); ("step", VInt 500); ("val_loss", VFloat Records.loss_0_34)]
       ("val_loss", Records.loss_0_3504)
     = (["⚠ val_loss: 0.3400 (expected: 0.3504, diff: -0.0104 / -3.0%)"], inr tt).
Proof.
  repeat (split; [vm_compute; reflexivity|]). vm_compute. reflexivity.
Qed.

(** C7: [main] at the failing inputs.  With a checkpoint whose validation
    loss is no number next to one whose is, the sort raises [TypeError];
    with a single checkpoint that has the three metrics, one of them no
    number, the verdict raises [TypeError].  The exception is not caught
    and the exit status is 1. *)
Theorem main_raises_on_unreadable_metric :
  (exists out msg,
     verify_performance.main Examples.diverged
     = (out, inl {| exn_kind := TypeError; exn_msg := msg |}))
  /\ verify_performance.exit_status (verify_performance.main Examples.diverged) = 1
  /\ (exists out msg,
        verify_performance.main Examples.unreadable_accuracy
        = (out, inl {| exn_kind := TypeError; exn_msg := msg |}))
  /\ verify_performance.exit_status (verify_performance.main Examples.unreadable_accuracy) = 1.
Proof.
  split; [|split; [|split]].
  - eexists _, _. vm_compute. reflexivity.
  - vm_compute. reflexivity.
  - eexists _, _. vm_compute. reflexivity.
  - vm_compute. reflexivity.
Qed.

(** C10.  The table [print_comparison_table] prints depends on the entry
    [docker] of its argument alone: two mappings of environments with the
    same entry, or both without one, give the same output and the same
    result. *)
Theorem comparison_table_reads_docker_only (environments1 environments2 : Dict.t (Dict.t value)) :
  Dict.get "docker" environments1 = Dict.get "docker" environments2 ->
  verify_performance.print_comparison_table environments1
  = verify_performance.print_comparison_table environments2.
Proof.
  intros H. unfold verify_performance.print_comparison_table, Dict.get_default.
  rewrite H. reflexivity.
Qed.

Lemma comparison_table_reads_docker_only_witness :
  verify_performance.print_comparison_table Records.three_environments
  = verify_performance.print_comparison_table Records.two_environments.
Proof.
  apply (comparison_table_reads_docker_only Records.three_environments Records.two_environments).
  reflexivity.
Defined.

(** ** The argument parser *)

Section Parser.

Import train.

(** The parse from a state of the second pass. *)
Let parse_from (argv : list string) (ns : Dict.t arg_value) (extras : list string) : parsed :=
  match classify argv with
  | inl e => Usage e
  | inr tokens => consume tokens ns extras
  end.

(** The run of the parser ends with a usage message, or with the help
    that one of the strings in [seen] selects. *)
Let stops (seen : list string) (r : parsed) : Prop :=
  (exists e, r = Usage e)
  \/ (r = Help /\ Exists (fun s => Spec.selects_help s = true) seen).

Lemma stops_more (s : string) (seen : list string) (r : parsed) :
  stops seen r -> stops (s :: seen) r.
Proof.
  intros [H|[H1 H2]]; [now left|right]. split; [exact H1|now apply Exists_cons_tl].
Qed.

(** What is left over makes the parse end with a usage message. *)
Lemma consume_arguments (rest : list string) (ns : Dict.t arg_value) (extras : list string) :
  (extras ++ rest)%list <> [] ->
  consume (map TArg rest) ns extras = Usage (UnrecognizedArguments (extras ++ rest)%list).
Proof.
  revert extras. induction rest as [|s rest IH]; intros extras H; simpl.
  - rewrite app_nil_r in *. destruct extras; [contradiction|reflexivity].
  - rewrite IH; rewrite <- app_assoc; [reflexivity|exact H].
Qed.

Lemma check_value_task (v : string) :
  ~ In v glue_tasks -> check_value task_name_argument v = false.
Proof.
  intros H. unfold check_value. cbn [choices task_name_argument].
  apply not_true_is_false. intros E. apply existsb_exists in E as [t [Ht Hv]].
  apply String.eqb_eq in Hv. subst. contradiction.
Qed.

Lemma store_task (o v : string) (ns : Dict.t arg_value) :
  ~ In v glue_tasks -> String.eqb v "--" = false ->
  store task_name_argument o v ns = inl (InvalidChoice o v).
Proof.
  intros H Hd. unfold store. rewrite Hd. cbn [type task_name_argument get_value].
  now rewrite check_value_task.
Qed.

Lemma parse_optional_task_name :
  parse_optional "--task_name"
  = inr (Some (Some (Store task_name_argument), "--task_name", None)).
Proof. reflexivity. Qed.

Lemma parse_optional_task_name_eq (v : string) :
  parse_optional ("--task_name=" ++ v)
  = inr (Some (Some (Store task_name_argument), "--task_name", Some v)).
Proof. reflexivity. Qed.

(** The option with a value that is no task stops the parse. *)
Lemma parse_from_task_name (v : string) (post : list string)
    (ns : Dict.t arg_value) (extras : list string) :
  ~ In v glue_tasks ->
  exists e, parse_from ("--task_name" :: v :: post) ns extras = Usage e.
Proof.
  intros Hv. unfold parse_from. cbn [classify].
  change (String.eqb "--task_name" "--") with false. cbv iota.
  rewrite parse_optional_task_name.
  destruct (String.eqb v "--") eqn:Edash.
  - eexists. reflexivity.
  - destruct (parse_optional v) as [e|[[[a o] x]|]] eqn:Ev.
    + eexists. reflexivity.
    + destruct (classify post); eexists; reflexivity.
    + destruct (classify post); [eexists; reflexivity|].
      cbn [consume]. rewrite store_task by assumption. eexists. reflexivity.
Qed.

Lemma parse_from_task_name_eq (v : string) (post : list string)
    (ns : Dict.t arg_value) (extras : list string) :
  ~ In v glue_tasks -> v <> "--" ->
  exists e, parse_from (("--task_name=" ++ v)%string :: post) ns extras = Usage e.
Proof.
  intros Hv Hd. apply String.eqb_neq in Hd. unfold parse_from. cbn [classify].
  change (String.eqb ("--task_name=" ++ v) "--") with false. cbv iota.
  rewrite parse_optional_task_name_eq.
  destruct (classify post); [eexists; reflexivity|].
  cbn [consume]. rewrite store_task by assumption. eexists. reflexivity.
Qed.

(** The head of the suffix is no argument an option before it could take. *)
Let option_first (suffix : list string) : Prop :=
  match suffix with
  | s :: _ => String.eqb s "--" = true
              \/ (exists e, parse_optional s = inl e)
              \/ (exists a o x, parse_optional s = inr (Some (a, o, x)))
  | [] => True
  end.

(** A suffix that stops the parse stops it after any prefix. *)
Lemma parse_from_prefix (suffix : list string) :
  option_first suffix ->
  (forall ns extras, exists e, parse_from suffix ns extras = Usage e) ->
  forall n pre, (List.length pre <= n)%nat ->
  forall ns extras, stops pre (parse_from (pre ++ suffix)%list ns extras).
Proof.
  intros Hfirst Hsuffix. induction n as [|n IH]; intros pre Hlen ns extras.
  { destruct pre; [|simpl in Hlen; lia]. left. apply Hsuffix. }
  destruct pre as [|s pre]; [left; apply Hsuffix|].
  simpl in Hlen. assert (Hpre : (List.length pre <= n)%nat) by lia.
  unfold parse_from. cbn [app classify].
  destruct (String.eqb s "--") eqn:Edash.
  { left. cbn [consume]. eexists. apply consume_arguments.
    destruct extras; discriminate. }
  destruct (parse_optional s) as [e|[[[a o] x]|]] eqn:Es; [left; now exists e| |].
  - (* an option string *)
    pose proof (IH pre Hpre) as IHpre. unfold parse_from in IHpre.
    destruct (classify (pre ++ suffix)) as [e|tokens] eqn:Ec; [left; now exists e|].
    destruct a as [[|a]|].
    + (* the help *)
      destruct x as [x|]; cbn [consume].
      * destruct (String.eqb o "-h" && negb (String.eqb x "") && only_h x).
        -- right. split; [reflexivity|]. apply Exists_cons_hd.
           unfold Spec.selects_help. now rewrite Es.
        -- left. eexists. reflexivity.
      * right. split; [reflexivity|]. apply Exists_cons_hd.
        unfold Spec.selects_help. now rewrite Es.
    + (* an option that stores *)
      destruct x as [x|].
      * cbn [consume]. destruct (store a o x ns) as [e|ns']; [left; now exists e|].
        apply stops_more. apply IHpre.
      * (* the value is the next string *)
        destruct pre as [|s2 pre].
        -- (* the next string is the head of the suffix *)
           cbn [app] in Ec. destruct suffix as [|s1 suffix].
           ++ cbn [classify] in Ec. injection Ec as <-. left. eexists. reflexivity.
           ++ cbn [classify] in Ec. cbn [option_first] in Hfirst.
              destruct (String.eqb s1 "--") eqn:E1.
              { injection Ec as <-. left. eexists. reflexivity. }
              destruct Hfirst as [H|[[e He]|[a1 [o1 [x1 H1]]]]]; [discriminate| |].
              { rewrite He in Ec. discriminate. }
              rewrite H1 in Ec. destruct (classify suffix); [discriminate|].
              injection Ec as <-. left. eexists. reflexivity.
        -- cbn [app classify] in Ec.
           destruct (String.eqb s2 "--") eqn:E2.
           { injection Ec as <-. left. eexists. reflexivity. }
           destruct (parse_optional s2) as [e|[[[a2 o2] x2]|]] eqn:Es2; [discriminate| |].
           ++ destruct (classify (pre ++ suffix)); [discriminate|].
              injection Ec as <-. left. eexists. reflexivity.
           ++ simpl in Hpre. assert (Hpre2 : (List.length pre <= n)%nat) by lia.
              pose proof (IH pre Hpre2) as IH2. unfold parse_from in IH2.
              destruct (classify (pre ++ suffix)) as [e|tokens2]; [discriminate|].
              injection Ec as <-. cbn [consume].
              destruct (store a o s2 ns) as [e|ns']; [left; now exists e|].
              apply stops_more, stops_more. apply IH2.
    + (* an unknown option *)
      cbn [consume]. apply stops_more. apply IHpre.
  - (* an argument *)
    pose proof (IH pre Hpre ns (extras ++ [s])%list) as IHpre. unfold parse_from in IHpre.
    destruct (classify (pre ++ suffix)) as [e|tokens] eqn:Ec; [left; now exists e|].
    cbn [consume]. now apply stops_more.
Qed.

(** A command line that gives [--task_name] a value that is no task
    makes the parser stop: with a usage message, unless a string before the
    option selects the help. *)
Lemma parse_args_task_name (pre post : list string) (v : string) :
  ~ In v glue_tasks ->
  forall argv,
    argv = (pre ++ "--task_name" :: v :: post)%list
    \/ (argv = (pre ++ ("--task_name=" ++ v)%string :: post)%list /\ v <> "--") ->
    (exists e, parse_args argv = Usage e)
    \/ (parse_args argv = Help /\ Exists (fun s => Spec.selects_help s = true) pre).
Proof.
  intros Hv argv [ -> | [ -> Hd ] ]; unfold parse_args.
  - apply (parse_from_prefix ("--task_name" :: v :: post)) with (n := List.length pre).
    + right. right. now exists (Some (Store task_name_argument)), "--task_name", None.
    + intros ns extras. now apply parse_from_task_name.
    + apply le_n.
  - apply (parse_from_prefix (("--task_name=" ++ v)%string :: post)) with (n := List.length pre).
    + right. right. now exists (Some (Store task_name_argument)), "--task_name", (Some v).
    + intros ns extras. now apply parse_from_task_name_eq.
    + apply le_n.
Qed.

End Parser.

(** C8, as stated, fails: with the help asked for first, the parser prints
    the help text and exits with status 0 before it reads the task name. *)
Lemma usage_error_counterexample :
  Spec.gives_task_name ["--help"; "--task_name"; "imdb"] "imdb"
  /\ ~ In "imdb" train.glue_tasks
  /\ train.run Worlds.quiet Worlds.no_variables ["--help"; "--task_name"; "imdb"]
     = ([train.HelpMessage], inl (train.SystemExit 0))
  /\ ~ (forall w env argv v,
          Spec.gives_task_name argv v -> ~ In v train.glue_tasks ->
          Spec.usage_error_only (train.run w env argv)).
Proof.
  assert (Hgives : Spec.gives_task_name ["--help"; "--task_name"; "imdb"] "imdb").
  { exists ["--help"], []. left. reflexivity. }
  assert (Hno : ~ In "imdb" train.glue_tasks).
  { simpl. intuition discriminate. }
  split; [exact Hgives|]. split; [exact Hno|]. split; [reflexivity|].
  intros H.
  destruct (H Worlds.quiet Worlds.no_variables ["--help"; "--task_name"; "imdb"] "imdb"
              Hgives Hno) as [e He].
  vm_compute in He. discriminate He.
Qed.

(** C8, amended.  A command line that gives [--task_name] a value that is
    none of the nine task names ends in the argument parser, before any
    call is made, so before the data module, the model and the trainer are
    wired: with a usage error and status 2, or, when a string before the
    option selects the help, with the help text and status 0.  (The value
    [--] attached with [=] is left aside: the parser drops it unchecked.) *)
Theorem bad_task_name_stops_in_parser (w : train.world) (env : string -> option string)
    (pre post : list string) (v : string) (argv : list string) :
  argv = (pre ++ "--task_name" :: v :: post)%list
  \/ (argv = (pre ++ ("--task_name=" ++ v)%string :: post)%list /\ v <> "--") ->
  ~ In v train.glue_tasks ->
  (Spec.usage_error_only (train.run w env argv)
   \/ (Spec.help_only (train.run w env argv)
       /\ Exists (fun s => Spec.selects_help s = true) pre))
  /\ (Forall (fun s => Spec.selects_help s = false) pre ->
      Spec.usage_error_only (train.run w env argv))
  /\ Forall (fun e => train.is_call e = false) (fst (train.run w env argv)).
Proof.
  intros Hargv Hv.
  assert (H : Spec.usage_error_only (train.run w env argv)
              \/ (Spec.help_only (train.run w env argv)
                  /\ Exists (fun s => Spec.selects_help s = true) pre)).
  { destruct (parse_args_task_name pre post v Hv argv Hargv) as [[e He]|[Hh Hex]].
    - left. exists e. unfold train.run, train.main. rewrite He. reflexivity.
    - right. split; [|exact Hex]. unfold Spec.help_only, train.run, train.main.
      rewrite Hh. reflexivity. }
  split; [exact H|]. split.
  - intros Hnone. destruct H as [H|[_ Hex]]; [exact H|].
    apply Exists_exists in Hex as [s [Hin Hs]].
    rewrite Forall_forall in Hnone. rewrite (Hnone s Hin) in Hs. discriminate Hs.
  - destruct H as [[e He]|[Hh _]].
    + rewrite He. repeat constructor.
    + unfold Spec.help_only in Hh. rewrite Hh. repeat constructor.
Qed.

Lemma bad_task_name_stops_in_parser_witness :
  Spec.usage_error_only
    (train.run Worlds.quiet Worlds.with_key ["--epochs"; "5"; "--task_name"; "imdb"; "--seed"; "1"]).
Proof.
  apply (bad_task_name_stops_in_parser Worlds.quiet Worlds.with_key
           ["--epochs"; "5"] ["--seed"; "1"] "imdb"
           ["--epochs"; "5"; "--task_name"; "imdb"; "--seed"; "1"]).
  - left. reflexivity.
  - simpl. intuition discriminate.
  - repeat constructor.
Defined.

(** ** The credential file *)

Section Credentials.

Import train.

Variable w : world.
Variable env : string -> option string.

Lemma wants_credentials_iff :
  wants_credentials env = true <->
  (exists k, env "WANDB_API_KEY" = Some k /\ k <> "") /\ env "WANDB_MODE" <> Some "offline".
Proof.
  unfold wants_credentials, truthy, is_offline.
  destruct (env "WANDB_API_KEY") as [[|c k]|], (env "WANDB_MODE") as [m|]; simpl.
  - split; [discriminate|]. intros [[k [Hk Hne]] _]. injection Hk as <-. contradiction.
  - split; [discriminate|]. intros [[k [Hk Hne]] _]. injection Hk as <-. contradiction.
  - destruct (String.eqb_spec m "offline") as [->|Hm]; simpl.
    + split; [discriminate|]. intros [_ H]. contradiction.
    + split; [|reflexivity]. intros _. split; [|congruence].
      exists (String c k). split; [reflexivity|discriminate].
  - split; [|reflexivity]. intros _. split; [|discriminate].
    exists (String c k). split; [reflexivity|discriminate].
  - split; [discriminate|]. intros [[k [Hk _]] _]. discriminate Hk.
  - split; [discriminate|]. intros [[k [Hk _]] _]. discriminate Hk.
Qed.

(** The events of the block that configures W&B: none when no credential
    is wanted; else the file is opened first, the block returns whatever
    raises, and a call that raises leaves the warning as the last
    event. *)
Lemma configure_wandb_events (h : list event) :
  exists evs,
    configure_wandb w env h = ((h ++ evs)%list, inr tt)
    /\ (wants_credentials env = false -> evs = [])
    /\ (wants_credentials env = true ->
        exists evs', evs = Call (Open (expanduser_home w env "/.netrc")) :: evs')
    /\ (forall before c after msg,
          evs = (before ++ Call c :: after)%list ->
          raises w (h ++ before)%list c = Some msg ->
          exists msg', last evs (Stdout "") = Stdout ("⚠ Failed to configure W&B: " ++ msg')).
Proof.
  unfold configure_wandb. fold (wants_credentials env).
  destruct (wants_credentials env).
  - unfold try_except_Exception, with_open, do, print, emit.
    cbn [bind ret Monad_T].
    repeat match goal with
           | |- context [raises w ?hist ?c] => destruct (raises w hist c) eqn:?
           end;
      rewrite <- ?app_assoc in *; cbn [app] in *;
      (eexists; split; [reflexivity|]; split; [discriminate|];
       split; [intros _; eexists; reflexivity|]);
      first
        [ solve [intros; eexists; reflexivity]
        | intros before c after msg Hevs Hr;
          repeat (destruct before as [|? before]; cbn [app] in Hevs;
                  [ try discriminate Hevs; injection Hevs as <- <-;
                    rewrite ?app_nil_r in Hr;
                    match goal with
                    | E : raises w ?hist ?call = None |- _ =>
                        assert (X : raises w hist call = Some msg) by exact Hr;
                        congruence
                    end
                  | try discriminate Hevs; injection Hevs as <- Hevs ]);
          destruct before; discriminate Hevs ].
  - exists []. rewrite app_nil_r. repeat split; try discriminate.
    intros [|? ?] c after msg H; discriminate H.
Qed.

Lemma bind_returned {A B : Type} (m : T A) (k : A -> T B) (h h' : list event) (a : A) :
  m h = (h', inr a) -> bind m k h = k a h'.
Proof. intros H. cbn [bind Monad_T]. now rewrite H. Qed.

Lemma grows_do (c : call) : Spec.grows (do w c).
Proof.
  intros h. unfold do. destruct (raises w h c); eexists; reflexivity.
Qed.

Lemma grows_print (line : string) : Spec.grows (print line).
Proof. intros h. eexists. reflexivity. Qed.

Lemma grows_bind {A B : Type} (m : T A) (k : A -> T B) :
  Spec.grows m -> (forall a, Spec.grows (k a)) -> Spec.grows (bind m k).
Proof.
  intros Hm Hk h. destruct (Hm h) as [e1 H1]. cbn [bind Monad_T].
  destruct (m h) as [h' [s|a]]; cbn [fst] in *; subst.
  - now exists e1.
  - destruct (Hk a (h ++ e1)%list) as [e2 H2]. exists (e1 ++ e2)%list.
    now rewrite H2, app_assoc.
Qed.

(** A call that is attempted stays in the history. *)
Lemma in_after_do {B : Type} (c : call) (k : unit -> T B) (h : list event) :
  (forall u, Spec.grows (k u)) -> In (Call c) (fst (bind (do w c) k h)).
Proof.
  intros Hk. cbn [bind Monad_T]. unfold do. destruct (raises w h c).
  - cbn [fst]. apply in_or_app. right. now left.
  - destruct (Hk tt (h ++ [Call c])%list) as [evs H]. rewrite H.
    apply in_or_app. left. apply in_or_app. right. now left.
Qed.

(** After the block, [main] goes on to create the logger. *)
Lemma main_creates_logger (argv : list string) (args : Dict.t arg_value) :
  parse_args argv = Namespace args ->
  raises w [] (SeedEverything (attr "seed" args)) = None ->
  raises w [Call (SeedEverything (attr "seed" args))]
         (Mkdir (Path.str (Path.parse (str_arg (attr "checkpoint_dir" args))))) = None ->
  exists name,
    In (Call (NewWandbLogger (attr "wandb_project" args) name true)) (fst (run w env argv)).
Proof.
  intros Hparse Hseed Hmkdir. unfold run, main. rewrite Hparse. cbv zeta.
  erewrite bind_returned; [|unfold do; rewrite Hseed; reflexivity]. cbn [app].
  erewrite bind_returned; [|unfold do; rewrite Hmkdir; reflexivity]. cbn [app].
  destruct (configure_wandb_events
              [Call (SeedEverything (attr "seed" args));
               Call (Mkdir (Path.str (Path.parse (str_arg (attr "checkpoint_dir" args)))))])
    as [evs [Hrun _]].
  erewrite bind_returned by exact Hrun.
  eexists. apply in_after_do. intros [].
  repeat (apply grows_bind; [first [apply grows_do|apply grows_print]|intros []]).
  apply grows_print.
Qed.

Lemma added_events {A : Type} (m : T A) (h evs : list event) (r : stop + A) :
  m h = ((h ++ evs)%list, r) -> Spec.added m h = evs.
Proof.
  intros H. unfold Spec.added. rewrite H. cbn [fst].
  rewrite skipn_app, skipn_all, Nat.sub_diag. reflexivity.
Qed.

End Credentials.

(** C9, as stated, fails: with the API key set to the empty string the
    variable is set and the mode is not the offline one, but the block does
    nothing and no file is written. *)
Lemma credentials_counterexample :
  Spec.is_set Worlds.empty_key "WANDB_API_KEY"
  /\ Worlds.empty_key "WANDB_MODE" <> Some "offline"
  /\ train.configure_wandb Worlds.quiet Worlds.empty_key [] = ([], inr tt)
  /\ ~ Spec.writes_credentials Worlds.quiet Worlds.empty_key [].
Proof.
  split; [discriminate|]. split; [discriminate|]. split; [reflexivity|].
  intros [file Hin]. vm_compute in Hin. exact Hin.
Qed.

(** C9, amended.  The credential file is written exactly when the API key
    is set to a non-empty string and the mode is not the offline one.  When
    no call raises, the three lines are written, the file is closed and its
    mode is changed to 0o600 (384).  Whatever raises, the block returns;
    when one of its calls raises, the last thing the block does is print
    the warning; and [main], once it has reached the block, goes on to
    create the logger. *)
Theorem credentials_written_for_nonempty_key (w : train.world) (env : string -> option string)
    (h : list train.event) :
  (Spec.writes_credentials w env h <->
     (exists k, env "WANDB_API_KEY" = Some k /\ k <> "") /\ env "WANDB_MODE" <> Some "offline")
  /\ (forall k,
        env "WANDB_API_KEY" = Some k -> k <> "" -> env "WANDB_MODE" <> Some "offline" ->
        (forall h' c, train.raises w h' c = None) ->
        let file := train.expanduser_home w env "/.netrc" in
        train.configure_wandb w env h
        = ((h ++ [ train.Call (train.Open file);
                   train.Call (train.Write file ("machine api.wandb.ai" ++ Fmt.nl));
                   train.Call (train.Write file ("  login user" ++ Fmt.nl));
                   train.Call (train.Write file ("  password " ++ k ++ Fmt.nl));
                   train.Call (train.Close file);
                   train.Call (train.Chmod file 384);
                   train.Stdout "✓ W&B API key configured" ])%list,
           inr tt))
  /\ (exists evs,
        train.configure_wandb w env h = ((h ++ evs)%list, inr tt)
        /\ forall before c after msg,
             evs = (before ++ train.Call c :: after)%list ->
             train.raises w (h ++ before)%list c = Some msg ->
             exists msg',
               last evs (train.Stdout "")
               = train.Stdout ("⚠ Failed to configure W&B: " ++ msg'))
  /\ (forall argv args,
        train.parse_args argv = train.Namespace args ->
        train.raises w [] (train.SeedEverything (train.attr "seed" args)) = None ->
        train.raises w [train.Call (train.SeedEverything (train.attr "seed" args))]
          (train.Mkdir (Path.str (Path.parse (train.str_arg (train.attr "checkpoint_dir" args)))))
        = None ->
        exists name,
          In (train.Call (train.NewWandbLogger (train.attr "wandb_project" args) name true))
             (fst (train.run w env argv))).
Proof.
  destruct (configure_wandb_events w env h) as [evs [Hrun [Hno [Hyes Hwarn]]]].
  split; [|split; [|split]]; [| | |apply main_creates_logger].
  - unfold Spec.writes_credentials. rewrite (added_events _ _ _ _ Hrun).
    rewrite <- wants_credentials_iff.
    destruct (train.wants_credentials env).
    + destruct (Hyes eq_refl) as [evs' ->]. split; [reflexivity|].
      intros _. eexists. left. reflexivity.
    + rewrite (Hno eq_refl). split; [intros [file []]|discriminate].
  - intros k Hk Hne Hmode Hquiet file.
    assert (Hwants : train.wants_credentials env = true).
    { apply wants_credentials_iff. split; [now exists k|exact Hmode]. }
    unfold train.configure_wandb. fold (train.wants_credentials env). rewrite Hwants.
    unfold train.try_except_Exception, train.with_open, train.do, train.print, train.emit.
    cbn [bind ret train.Monad_T]. rewrite !Hquiet, Hk.
    rewrite <- !app_assoc. reflexivity.
  - exists evs. split; [exact Hrun|exact Hwarn].
Qed.

Lemma credentials_written_for_nonempty_key_witness :
  train.configure_wandb Worlds.quiet Worlds.with_key []
  = ([ train.Call (train.Open "/home/user/.netrc");
       train.Call (train.Write "/home/user/.netrc" ("machine api.wandb.ai" ++ Fmt.nl));
       train.Call (train.Write "/home/user/.netrc" ("  login user" ++ Fmt.nl));
       train.Call (train.Write "/home/user/.netrc" ("  password secret" ++ Fmt.nl));
       train.Call (train.Close "/home/user/.netrc");
       train.Call (train.Chmod "/home/user/.netrc" 384);
       train.Stdout "✓ W&B API key configured" ],
     inr tt).
Proof.
  apply (proj1 (proj2 (credentials_written_for_nonempty_key Worlds.quiet Worlds.with_key []))
           "secret").
  - reflexivity.
  - discriminate.
  - discriminate.
  - reflexivity.
Defined.

(** * Further properties of [verify_performance.py] *)

(** ** The keys of the mapping *)

Section Keys.

Import verify_performance.

Context {V : Type}.

Lemma mem_keys (k : string) (d : Dict.t V) :
  Dict.mem k d = true <-> In k (Dict.keys d).
Proof.
  unfold Dict.mem, Dict.keys. induction d as [|[k' v] d IH]; simpl.
  - split; [discriminate|contradiction].
  - destruct (String.eqb_spec k k') as [->|Hne].
    + split; auto.
    + rewrite IH. split; [auto|]. intros [H|H]; [congruence|exact H].
Qed.

Lemma keys_set (k : string) (v : V) (d : Dict.t V) :
  Dict.keys (Dict.set k v d)
  = if Dict.mem k d then Dict.keys d else (Dict.keys d ++ [k])%list.
Proof.
  unfold Dict.mem, Dict.keys. induction d as [|[k' v'] d IH]; simpl; [reflexivity|].
  destruct (String.eqb_spec k k') as [->|Hne]; simpl; [reflexivity|].
  rewrite IH. now destruct (Dict.get k d).
Qed.

Lemma nodup_set (k : string) (v : V) (d : Dict.t V) :
  NoDup (Dict.keys d) -> NoDup (Dict.keys (Dict.set k v d)).
Proof.
  intros H. rewrite keys_set. destruct (Dict.mem k d) eqn:E; [exact H|].
  apply NoDup_app; [exact H|repeat constructor; intros []|].
  intros x Hx [<-|[]]. apply mem_keys in Hx. congruence.
Qed.

Lemma mem_set_inv (k k' : string) (v : V) (d : Dict.t V) :
  Dict.mem k (Dict.set k' v d) = true -> k = k' \/ Dict.mem k d = true.
Proof.
  intros H. destruct (String.eqb_spec k k') as [->|Hne]; [now left|right].
  unfold Dict.mem in *. now rewrite get_set_ne in H.
Qed.

End Keys.

Section MappingKeys.

Import verify_performance.

Lemma nodup_fold (parts : list string) (m : Dict.t value) :
  NoDup (Dict.keys m) -> NoDup (Dict.keys (fold_left Spec.assign parts m)).
Proof.
  revert m. induction parts as [|part parts IH]; intros m Hm; simpl; [exact Hm|].
  apply IH. unfold Spec.assign. destruct (Spec.key_value part) as [[k v]|]; [|exact Hm].
  now apply nodup_set.
Qed.

(** A key of the mapping was there before, or a segment brought it. *)
Lemma mem_fold_inv (k : string) (parts : list string) (m : Dict.t value) :
  Dict.mem k (fold_left Spec.assign parts m) = true ->
  Dict.mem k m = true
  \/ exists part v, In part parts /\ Spec.key_value part = Some (k, v).
Proof.
  revert m. induction parts as [|part parts IH]; intros m H; simpl in H; [now left|].
  destruct (IH _ H) as [Hm|[p [v [Hin Hkv]]]].
  - unfold Spec.assign in Hm. destruct (Spec.key_value part) as [[k' v]|] eqn:E; [|now left].
    apply mem_set_inv in Hm as [->|Hm]; [|now left].
    right. exists part, v. split; [now left|exact E].
  - right. exists p, v. split; [now right|exact Hkv].
Qed.

End MappingKeys.

(** X1.  The parser of file names never raises: whatever the path, it
    returns a mapping, and it prints nothing, or the one line of its
    handler, and then the mapping is empty.  A key is in the mapping once,
    and only when a segment of the file name reads [key=value]. *)
Theorem extract_metrics_never_raises (checkpoint_path : string) :
  exists out m,
    verify_performance.extract_metrics_from_checkpoint checkpoint_path = (out, inr m)
    /\ (out = [] \/ (out = [Laws.unpack_error] /\ m = Dict.empty))
    /\ NoDup (Dict.keys m)
    /\ forall k, Dict.mem k m = true ->
         exists part v,
           In part (Spec.parts_of checkpoint_path) /\ Spec.key_value part = Some (k, v).
Proof.
  destruct (Forall_Exists_dec (fun part => (Spec.count "=" part <= 1)%nat)
              (fun part => le_dec (Spec.count "=" part) 1) (Spec.parts_of checkpoint_path))
    as [Hall|Hex].
  - exists [], (Spec.metrics_of_parts (Spec.parts_of checkpoint_path)).
    split; [now apply extract_metrics_ok|]. split; [now left|]. split.
    + apply nodup_fold. constructor.
    + intros k Hk. apply mem_fold_inv in Hk as [Hk|Hk]; [discriminate Hk|exact Hk].
  - exists [Laws.unpack_error], Dict.empty. split.
    + apply extract_metrics_failed. eapply Exists_impl; [|exact Hex]. simpl. intros; lia.
    + split; [now right|]. split; [constructor|]. intros k Hk. discriminate Hk.
Qed.

Lemma extract_metrics_never_raises_witness :
  exists part v,
    In part (Spec.parts_of "checkpoints/epoch=1-val_loss=0.3504.ckpt")
    /\ Spec.key_value part = Some ("val_loss", v).
Proof.
  destruct (extract_metrics_never_raises "checkpoints/epoch=1-val_loss=0.3504.ckpt")
    as [out [m [Hm [_ [_ Hk]]]]].
  apply Hk. vm_compute in Hm. injection Hm as _ <-. reflexivity.
Defined.

(** ** What the numbers of a file name can be *)

Section Signs.

Import verify_performance.

(** The parts of a string hold no separator, and no character the
    string does not hold. *)
Lemma split_parts_free (c : ascii) (s : string) :
  Forall (fun p => Spec.count c p = O) (Str.split c s).
Proof.
  induction s as [|d s IH]; simpl; [repeat constructor|].
  destruct (Ascii.eqb_spec d c) as [->|Hne].
  - constructor; [reflexivity|exact IH].
  - destruct (Str.split c s) as [|w ws]; [repeat constructor; simpl|].
    + destruct (Ascii.eqb_spec d c); [contradiction|reflexivity].
    + apply Forall_cons_iff in IH as [Hw Hws]. constructor; [|exact Hws].
      simpl. destruct (Ascii.eqb_spec d c); [contradiction|exact Hw].
Qed.

Lemma split_parts_without (c d : ascii) (s : string) :
  Spec.count d s = O -> Forall (fun p => Spec.count d p = O) (Str.split c s).
Proof.
  induction s as [|x s IH]; simpl; [repeat constructor|].
  destruct (Ascii.eqb_spec x d) as [->|Hx]; [discriminate|]. intros H.
  specialize (IH H).
  destruct (Ascii.eqb x c).
  - constructor; [reflexivity|exact IH].
  - destruct (Str.split c s) as [|w ws]; [repeat constructor; simpl|].
    + destruct (Ascii.eqb_spec x d); [contradiction|reflexivity].
    + apply Forall_cons_iff in IH as [Hw Hws]. constructor; [|exact Hws].
      simpl. destruct (Ascii.eqb_spec x d); [contradiction|exact Hw].
Qed.

Lemma chars_count (c : ascii) (s : string) :
  In c (Str.chars s) -> Spec.count c s <> O.
Proof.
  induction s as [|d s IH]; simpl; [contradiction|].
  destruct (Ascii.eqb_spec d c) as [->|Hne]; [discriminate|].
  intros [H|H]; [contradiction|now apply IH].
Qed.

Lemma lstrip_in (x : ascii) (l : list ascii) : In x (Num.lstrip l) -> In x l.
Proof.
  induction l as [|c l IH]; simpl; [auto|].
  destruct (Num.is_space c); [auto|]. intros H. exact H.
Qed.

Lemma strip_in (x : ascii) (l : list ascii) : In x (Num.strip l) -> In x l.
Proof.
  unfold Num.strip. intros H.
  apply in_rev, lstrip_in, in_rev, lstrip_in in H. exact H.
Qed.

Lemma drop_underscores_in (x : ascii) (l l' : list ascii) (prev : ascii) :
  Num.drop_underscores prev l = Some l' -> In x l' -> In x l.
Proof.
  revert prev l'. induction l as [|c l IH]; intros prev l' H Hin; simpl in H.
  - destruct (Ascii.eqb prev "_"); [discriminate|]. injection H as <-. exact Hin.
  - destruct (Ascii.eqb c "_").
    + destruct (Num.is_digit prev); [|discriminate]. right. eapply IH; eauto.
    + destruct (Ascii.eqb prev "_" && negb (Num.is_digit c))%bool; [discriminate|].
      destruct (Num.drop_underscores c l) as [r|] eqn:E; [|discriminate].
      injection H as <-. destruct Hin as [<-|Hin]; [now left|right]. eapply IH; eauto.
Qed.

(** A list without a minus has no minus sign. *)
Lemma take_sign_plus (l : list ascii) :
  ~ In "-"%char l -> fst (Num.take_sign l) = false.
Proof.
  destruct l as [|c l]; [reflexivity|]. simpl. intros H.
  destruct (Ascii.eqb_spec c "-") as [->|Hc]; [exfalso; auto|].
  now destruct (Ascii.eqb c "+").
Qed.

Lemma binary_round_aux_sign (m e : Z) (l : location) :
  Float.sign_bit (binary_round_aux Float.prec Float.emax false m e l) = false.
Proof.
  unfold binary_round_aux.
  destruct (shr_fexp Float.prec Float.emax m e l) as [mrs' e'].
  destruct (shr_fexp Float.prec Float.emax _ e' loc_Exact) as [mrs'' e''].
  destruct (shr_m mrs''); [reflexivity| |reflexivity].
  now destruct (e'' <=? Float.emax - Float.prec).
Qed.

Lemma of_decimal_sign (m e : Z) : Float.sign_bit (Float.of_decimal false m e) = false.
Proof.
  unfold Float.of_decimal, Float.of_ratio. destruct m; try reflexivity.
  destruct (0 <=? e);
    match goal with
    | |- context [SFdiv_core_binary ?p ?x ?a ?b ?c ?d] =>
        destruct (SFdiv_core_binary p x a b c d) as [[mz ez] lz]
    end; apply binary_round_aux_sign.
Qed.

(** [float()] of a text without a minus is no negative number. *)
Lemma py_float_sign (text : string) (f : Float.float) :
  Spec.count "-" text = O -> Float.py_float text = Some f -> Float.sign_bit f = false.
Proof.
  intros Hc. unfold Float.py_float.
  destruct (Num.drop_underscores " " (Num.strip (Str.chars text))) as [l|] eqn:E; [|discriminate].
  assert (Hl : ~ In "-"%char l).
  { intros H. eapply drop_underscores_in in H; [|exact E].
    apply strip_in, chars_count in H. contradiction. }
  pose proof (take_sign_plus l Hl) as Hs.
  destruct (Num.take_sign l) as [neg body]. cbn [fst] in Hs. subst neg.
  unfold Float.parse_decimal.
  destruct (Num.span_digits body) as [ip r1].
  destruct (match r1 with
            | [] => ([], [])
            | c :: r => if Ascii.eqb c "." then Num.span_digits r else ([], r1)
            end) as [fp r2].
  assert (Hinf : Float.parse_inf_nan false body = Some f -> Float.sign_bit f = false).
  { unfold Float.parse_inf_nan. destruct (_ || _)%bool; [now intros [= <-]|].
    destruct (String.eqb _ "nan"); [now intros [= <-]|discriminate]. }
  destruct (ip ++ fp)%list as [|d ds]; [exact Hinf|].
  destruct (Float.parse_exponent r2); [|exact Hinf].
  intros [= <-]. apply of_decimal_sign.
Qed.

Lemma span_digits_all (l ds : list ascii) :
  Num.span_digits l = (ds, []) -> Forall (fun c => Num.is_digit c = true) l.
Proof.
  revert ds. induction l as [|c l IH]; intros ds H; [constructor|].
  simpl in H. destruct (Num.is_digit c) eqn:E; [|discriminate].
  destruct (Num.span_digits l) as [ds' r]. injection H as _ ->.
  constructor; [exact E|]. now apply (IH ds').
Qed.

Lemma digits_val_nonneg (l : list ascii) :
  Forall (fun c => Num.is_digit c = true) l -> 0 <= Num.digits_val l.
Proof.
  unfold Num.digits_val.
  assert (G : forall acc, 0 <= acc -> Forall (fun c => Num.is_digit c = true) l ->
                          0 <= fold_left (fun acc c => 10 * acc + Num.digit_val c) l acc).
  { induction l as [|c l IH]; intros acc Hacc H; cbn [fold_left]; [exact Hacc|].
    apply Forall_cons_iff in H as [Hc Hl]. apply IH; [|exact Hl].
    unfold Num.is_digit in Hc. apply andb_prop in Hc as [Hc _].
    apply Nat.leb_le in Hc. unfold Num.digit_val. lia. }
  apply G. lia.
Qed.

(** [int()] of a text without a minus is no negative number. *)
Lemma py_int_sign (text : string) (n : Z) :
  Spec.count "-" text = O -> Num.py_int text = Some n -> 0 <= n.
Proof.
  intros Hc. unfold Num.py_int.
  assert (Hl : ~ In "-"%char (Num.strip (Str.chars text))).
  { intros H. apply strip_in, chars_count in H. contradiction. }
  pose proof (take_sign_plus _ Hl) as Hs.
  destruct (Num.take_sign (Num.strip (Str.chars text))) as [neg body].
  cbn [fst] in Hs. subst neg.
  destruct (Num.drop_underscores " " body) as [ds|]; [|discriminate].
  destruct (Num.span_digits ds) as [[|d ip] [|r rs]] eqn:E; try discriminate.
  destruct (Nat.ltb Num.max_str_digits (List.length ds)); [discriminate|].
  intros [= <-]. apply digits_val_nonneg. eapply span_digits_all. exact E.
Qed.

(** What a value read from a text without a minus is. *)
Lemma coerced_sign (text : string) :
  Spec.count "-" text = O ->
  match Spec.coerced text with
  | VInt n => 0 <= n
  | VFloat f => Float.is_nan f = false /\ Float.sign_bit f = false
  | VStr s => s = text
  end.
Proof.
  intros Hc. unfold Spec.coerced. destruct (Str.contains "." text) eqn:Hdot.
  - pose proof (py_float_with_point text Hdot) as Hnan.
    pose proof (py_float_sign text) as Hsign.
    destruct (Float.py_float text) as [f|]; [|reflexivity].
    split; [|now apply Hsign].
    destruct f; try reflexivity. now destruct Hnan.
  - pose proof (py_int_sign text) as Hsign.
    destruct (Num.py_int text) as [n|]; [|reflexivity]. now apply Hsign.
Qed.

Lemma key_value_free (c : ascii) (part k v : string) :
  Spec.count c part = O -> Spec.key_value part = Some (k, v) ->
  Spec.count c k = O /\ Spec.count c v = O.
Proof.
  intros Hc. unfold Spec.key_value.
  pose proof (split_parts_without "=" c part Hc) as H.
  destruct (Str.split "=" part) as [|a [|b [|x l]]]; try discriminate.
  intros [= <- <-]. apply Forall_cons_iff in H as [Ha H].
  apply Forall_cons_iff in H as [Hb _]. now split.
Qed.

Lemma key_value_no_equals (part k v : string) :
  Spec.key_value part = Some (k, v) -> Spec.count "=" k = O /\ Spec.count "=" v = O.
Proof.
  unfold Spec.key_value.
  pose proof (split_parts_free "=" part) as H.
  destruct (Str.split "=" part) as [|a [|b [|x l]]]; try discriminate.
  intros [= <- <-]. apply Forall_cons_iff in H as [Ha H].
  apply Forall_cons_iff in H as [Hb _]. now split.
Qed.

(** The entries of a mapping: keys and texts without [-] and [=], numbers
    that are not negative. *)
Let plain (k : string) (v : value) : Prop :=
  Spec.count "-" k = O /\ Spec.count "=" k = O /\
  match v with
  | VInt n => 0 <= n
  | VFloat f => Float.is_nan f = false /\ Float.sign_bit f = false
  | VStr s => Spec.count "-" s = O /\ Spec.count "=" s = O
  end.

Let all_plain (m : Dict.t value) : Prop :=
  forall k v, Dict.get k m = Some v -> plain k v.

Lemma all_plain_assign (part : string) (m : Dict.t value) :
  Spec.count "-" part = O -> all_plain m -> all_plain (Spec.assign m part).
Proof.
  intros Hc Hm. unfold Spec.assign.
  destruct (Spec.key_value part) as [[k text]|] eqn:E; [|exact Hm].
  destruct (key_value_free "-" part k text Hc E) as [Hk Ht].
  destruct (key_value_no_equals part k text E) as [Hk' Ht'].
  intros k' v Hget. destruct (String.eqb_spec k' k) as [->|Hne].
  - rewrite get_set_eq in Hget. injection Hget as <-.
    split; [exact Hk|]. split; [exact Hk'|].
    pose proof (coerced_sign text Ht) as H.
    destruct (Spec.coerced text); [exact H|exact H|]. subst s. now split.
  - rewrite get_set_ne in Hget by exact Hne. now apply Hm.
Qed.

Lemma all_plain_fold (parts : list string) (m : Dict.t value) :
  Forall (fun part => Spec.count "-" part = O) parts ->
  all_plain m -> all_plain (fold_left Spec.assign parts m).
Proof.
  intros H. revert m. induction H as [|part parts Hp _ IH]; intros m Hm; simpl; [exact Hm|].
  apply IH. now apply all_plain_assign.
Qed.

End Signs.

(** X2.  The parser of file names never gives a negative number, nor a
    NaN: the name is cut at every [-], so that no key and no value holds
    one.  An integer of the mapping is at least 0, a float has no sign bit
    and is no NaN, and a key or a text holds neither [-] nor [=]. *)
Theorem parsed_numbers_not_negative (checkpoint_path : string) (out : list string)
    (m : Dict.t value) (k : string) (v : value) :
  verify_performance.extract_metrics_from_checkpoint checkpoint_path = (out, inr m) ->
  Dict.get k m = Some v ->
  Spec.count "-" k = O /\ Spec.count "=" k = O /\
  match v with
  | VInt n => 0 <= n
  | VFloat f => Float.is_nan f = false /\ Float.sign_bit f = false
  | VStr s => Spec.count "-" s = O /\ Spec.count "=" s = O
  end.
Proof.
  intros Hm Hget.
  destruct (Forall_Exists_dec (fun part => (Spec.count "=" part <= 1)%nat)
              (fun part => le_dec (Spec.count "=" part) 1) (Spec.parts_of checkpoint_path))
    as [Hall|Hex].
  - rewrite (extract_metrics_ok _ Hall) in Hm. injection Hm as _ <-.
    revert k v Hget. apply all_plain_fold; [apply split_parts_free|].
    intros k v H. discriminate H.
  - rewrite extract_metrics_failed in Hm.
    + injection Hm as _ <-. discriminate Hget.
    + eapply Exists_impl; [|exact Hex]. simpl. intros; lia.
Qed.

Lemma parsed_numbers_not_negative_witness :
  Spec.count "-" "val_loss" = O /\ Spec.count "=" "val_loss" = O /\
  Float.is_nan (Float.of_decimal false 3504 (-4)) = false /\
  Float.sign_bit (Float.of_decimal false 3504 (-4)) = false.
Proof.
  apply (parsed_numbers_not_negative
           "checkpoints/epoch=1-step=230-val_loss=0.3504.ckpt" []
           [("epoch", VInt 1); ("step", VInt 230);
            ("val_loss", VFloat (Float.of_decimal false 3504 (-4)))]
           "val_loss" (VFloat (Float.of_decimal false 3504 (-4)))).
  - vm_compute. reflexivity.
  - reflexivity.
Defined.

(** ** The part of a path the parser reads *)

Section Stems.

Import verify_performance.

Lemma rfind_none (c : ascii) (s : string) : Spec.count c s = O -> Str.rfind c s = None.
Proof.
  induction s as [|d s IH]; simpl; [reflexivity|].
  destruct (Ascii.eqb d c); [discriminate|]. intros H. now rewrite IH.
Qed.

Lemma rfind_last (c : ascii) (a b : string) :
  Spec.count c b = O -> Str.rfind c (a ++ String c b) = Some (String.length a).
Proof.
  intros Hb. induction a as [|d a IH]; simpl.
  - now rewrite rfind_none, Ascii.eqb_refl.
  - now rewrite IH.
Qed.

Lemma take_length (a b : string) : Str.take (String.length a) (a ++ b) = a.
Proof.
  induction a as [|d a IH]; simpl; [now destruct b|now rewrite IH].
Qed.

Lemma length_append (a b : string) :
  String.length (a ++ b) = (String.length a + String.length b)%nat.
Proof. induction a as [|d a IH]; simpl; [reflexivity|now rewrite IH]. Qed.

(** A name without a [/] is a path of one component. *)
Lemma parse_name (name : string) :
  Spec.count "/" name = O -> Path.is_component name = true ->
  Path.parse name = {| Path.root := ""; Path.parts := [name] |}.
Proof.
  intros Hc Hn. unfold Path.parse. rewrite (split_none "/" name Hc).
  cbn [filter]. rewrite Hn. f_equal.
  destruct name as [|d name]; [reflexivity|]. simpl in Hc |- *.
  destruct (Ascii.eqb_spec d "/") as [->|Hd]; [discriminate|].
  destruct d as [[] [] [] [] [] [] [] []]; try reflexivity. now destruct Hd.
Qed.

(** The stem of [base.ext] is [base]. *)
Lemma stem_with_extension (base ext : string) :
  base <> "" -> Spec.count "/" base = O ->
  ext <> "" -> Spec.count "." ext = O -> Spec.count "/" ext = O ->
  Spec.count "/" (base ++ "." ++ ext) = O
  /\ Path.is_component (base ++ "." ++ ext) = true
  /\ Path.stem (Path.parse (base ++ "." ++ ext)) = base.
Proof.
  intros Hb Hbs He Hed Hes.
  assert (Hc : Spec.count "/" (base ++ "." ++ ext) = O).
  { rewrite !count_app, Hbs, Hes. reflexivity. }
  assert (Hn : Path.is_component (base ++ "." ++ ext) = true).
  { destruct base as [|b [|b' base]]; [contradiction| |].
    - destruct ext as [|e ext]; [contradiction|].
      unfold Path.is_component. simpl. now destruct (Ascii.eqb b "."); simpl.
    - unfold Path.is_component. simpl. now destruct (Ascii.eqb b "."); simpl. }
  split; [exact Hc|]. split; [exact Hn|].
  rewrite (parse_name _ Hc Hn). unfold Path.stem, Path.name. cbn [Path.parts last].
  change (base ++ "." ++ ext) with (base ++ String "." ext).
  rewrite (rfind_last "." base ext Hed), length_append.
  assert (H1 : Nat.ltb 0 (String.length base) = true).
  { apply Nat.ltb_lt. destruct base; [contradiction|simpl; lia]. }
  assert (H2 : Nat.ltb (String.length base)
                 (String.length base + String.length (String "." ext) - 1) = true).
  { apply Nat.ltb_lt. destruct ext; [contradiction|simpl; lia]. }
  rewrite H1, H2. apply take_length.
Qed.

Lemma extract_by_stem (p q : string) :
  Path.stem (Path.parse p) = Path.stem (Path.parse q) ->
  extract_metrics_from_checkpoint p = extract_metrics_from_checkpoint q.
Proof. intros H. unfold extract_metrics_from_checkpoint. now rewrite H. Qed.

End Stems.

(** X3.  The parser of file names reads the stem of the file name and
    nothing else: the directory of the path and the extension of the file
    make no difference.  For a file [base.ext] the segments are those of
    [base].  A name without an extension loses what follows its last dot:
    [val_loss=0.3504] is read as the integer 0. *)
Theorem metrics_depend_on_stem (dir base ext : string) :
  base <> "" -> Spec.count "/" base = O ->
  ext <> "" -> Spec.count "." ext = O -> Spec.count "/" ext = O ->
  Spec.parts_of (dir ++ "/" ++ base ++ "." ++ ext) = Str.split "-" base
  /\ verify_performance.extract_metrics_from_checkpoint (dir ++ "/" ++ base ++ "." ++ ext)
     = verify_performance.extract_metrics_from_checkpoint (base ++ ".ckpt")
  /\ verify_performance.extract_metrics_from_checkpoint (base ++ "." ++ ext)
     = verify_performance.extract_metrics_from_checkpoint (base ++ ".ckpt")
  /\ verify_performance.extract_metrics_from_checkpoint "checkpoints/val_loss=0.3504"
     = ([], inr [("val_loss", VInt 0)]).
Proof.
  intros Hb Hbs He Hed Hes.
  destruct (stem_with_extension base ext Hb Hbs He Hed Hes) as [Hc [Hn Hstem]].
  destruct (stem_with_extension base "ckpt" Hb Hbs) as [_ [_ Hckpt]];
    [discriminate|reflexivity|reflexivity|].
  change (base ++ "." ++ "ckpt") with (base ++ ".ckpt") in Hckpt.
  pose proof (stem_of_child dir (base ++ "." ++ ext) Hc Hn) as Hdir.
  split; [|split; [|split]].
  - unfold Spec.parts_of. now rewrite Hdir, Hstem.
  - apply extract_by_stem. now rewrite Hdir, Hstem, Hckpt.
  - apply extract_by_stem. now rewrite Hstem, Hckpt.
  - vm_compute. reflexivity.
Qed.

Lemma metrics_depend_on_stem_witness :
  Spec.parts_of "runs/best/epoch=1-step=230-val_loss=0.3504.pt"
  = ["epoch=1"; "step=230"; "val_loss=0.3504"]
  /\ verify_performance.extract_metrics_from_checkpoint
       "runs/best/epoch=1-step=230-val_loss=0.3504.pt"
     = verify_performance.extract_metrics_from_checkpoint
         "epoch=1-step=230-val_loss=0.3504.ckpt".
Proof.
  destruct (metrics_depend_on_stem "runs/best" "epoch=1-step=230-val_loss=0.3504" "pt")
    as [H1 [H2 _]]; try reflexivity; try discriminate.
  split; [exact H1|exact H2].
Defined.

(** ** The listing, record by record *)

Section Scan.

Import verify_performance.

Lemma lt_silent (a b : value) : output (Py.lt a b) = [].
Proof. destruct a, b; reflexivity. Qed.

Section Sorted.

Context {A : Type}.
Variable key : A -> value.

(** The sort prints nothing; what it returns is a rearrangement. *)
Lemma insert_permutation (x : A) (l : list A) :
  output (Py.insert key x l) = []
  /\ forall l', result (Py.insert key x l) = inr l' -> Permutation (x :: l) l'.
Proof.
  induction l as [|y l [IHout IHperm]]; cbn [Py.insert].
  - split; [reflexivity|]. intros l' [= <-]. apply Permutation_refl.
  - pose proof (lt_silent (key y) (key x)) as Hlt.
    destruct (Py.lt (key y) (key x)) as [o [e|[|]]]; cbn [output fst] in Hlt; subst o.
    + split; [reflexivity|]. intros l' H. discriminate H.
    + rewrite bind_value. cbn [fst snd app].
      destruct (Py.insert key x l) as [o [e|r]]; cbn [output result fst snd] in *; subst o.
      * split; [reflexivity|]. intros l' H. discriminate H.
      * split; [reflexivity|]. intros l' [= <-].
        rewrite perm_swap. constructor. now apply IHperm.
    + rewrite bind_value. cbn [fst snd app]. split; [reflexivity|].
      intros l' [= <-]. apply Permutation_refl.
Qed.

Lemma sorted_permutation (l : list A) :
  output (Py.sorted key l) = []
  /\ forall l', result (Py.sorted key l) = inr l' -> Permutation l l'.
Proof.
  induction l as [|x l [IHout IHperm]]; cbn [Py.sorted].
  - split; [reflexivity|]. intros l' [= <-]. constructor.
  - destruct (Py.sorted key l) as [o [e|s]]; cbn [output result fst snd] in *; subst o.
    + split; [reflexivity|]. intros l' H. discriminate H.
    + rewrite bind_value. cbn [fst snd app].
      destruct (insert_permutation x s) as [Hout Hperm]. split; [exact Hout|].
      intros l' H. apply perm_trans with (x :: s); [|now apply Hperm].
      constructor. now apply IHperm.
Qed.

(** Among real keys, an item passes no item that ties with it. *)
Variable v : value.
Hypothesis v_real : Spec.is_real v = true.

Let real (x : A) : Prop := Spec.is_real (key x) = true.
Let tie (x : A) : bool :=
  negb (Py.num_ltb v (key x)) && negb (Py.num_ltb (key x) v).

Lemma insert_stable (x : A) (l l' : list A) :
  real x -> Forall real l ->
  Py.insert key x l = ret l' -> filter tie l' = filter tie (x :: l).
Proof.
  intros Hx Hl. revert l'. induction Hl as [|y l Hy Hl IH]; intros l'.
  - intros [= <-]. reflexivity.
  - cbn [Py.insert]. rewrite (lt_real _ _ Hy Hx), bind_ret.
    destruct (Py.num_ltb (key y) (key x)) eqn:E.
    + destruct (insert_real key x l Hx Hl) as [r [Hr _]].
      rewrite Hr, bind_ret. intros [= <-]. specialize (IH r Hr).
      cbn [filter] in IH |- *. rewrite IH.
      destruct (tie x) eqn:Tx; [|reflexivity].
      destruct (tie y) eqn:Ty; [|reflexivity].
      exfalso. unfold tie in Tx, Ty.
      apply andb_prop in Tx as [Tx _]. apply andb_prop in Ty as [_ Ty].
      apply negb_true_iff in Tx. apply negb_true_iff in Ty.
      pose proof (num_le_trans (key x) v (key y) v_real Tx Ty). congruence.
    + intros [= <-]. reflexivity.
Qed.

Lemma sorted_stable (l l' : list A) :
  Forall real l -> Py.sorted key l = ret l' -> filter tie l' = filter tie l.
Proof.
  intros Hl. revert l'. induction Hl as [|x l Hx Hl IH]; intros l'.
  - intros [= <-]. reflexivity.
  - cbn [Py.sorted].
    destruct (sorted_real key l Hl) as [s [Hs [Hperm _]]].
    rewrite Hs, bind_ret. intros H.
    rewrite (insert_stable x s l' Hx (Permutation_Forall Hperm Hl) H).
    cbn [filter]. now rewrite (IH s Hs).
Qed.

End Sorted.

(** The loop of [list_checkpoints] prints what the parser prints, file
    after file. *)
Lemma scan_output (files : list Path.path) (acc : list checkpoint) :
  for_each files
    (fun ckpt_file checkpoints =>
       metrics <- extract_metrics_from_checkpoint (Path.str ckpt_file) ;;
       ret ((checkpoints ++ [ {| filename := Path.name ckpt_file;
                                 path := Path.str ckpt_file;
                                 metrics := metrics |} ])%list))
    acc
  = (flat_map (fun f => output (extract_metrics_from_checkpoint (Path.str f))) files,
     inr (acc ++ map Spec.record_of files)%list).
Proof.
  set (body := fun (ckpt_file : Path.path) (checkpoints : list checkpoint) =>
                 metrics <- extract_metrics_from_checkpoint (Path.str ckpt_file) ;;
                 ret ((checkpoints ++ [ {| filename := Path.name ckpt_file;
                                           path := Path.str ckpt_file;
                                           metrics := metrics |} ])%list)).
  revert acc. induction files as [|f files IH]; intros acc.
  - simpl. now rewrite app_nil_r.
  - destruct (metrics_of_extract (Path.str f)) as [out1 H1].
    cbn [for_each flat_map]. unfold body at 1. rewrite H1, bind_value.
    cbn [fst snd ret Monad_M output]. fold (Spec.record_of f).
    rewrite bind_value, IH. cbn [fst snd map].
    now rewrite app_nil_r, <- app_assoc.
Qed.

Variable fs : Path.filesystem.
Variable checkpoint_dir : string.

Lemma list_checkpoints_sorted :
  fs (Path.str (Path.parse checkpoint_dir)) <> None ->
  Spec.os_error fs checkpoint_dir = None ->
  list_checkpoints fs checkpoint_dir
  = bind ((flat_map (fun f => output (extract_metrics_from_checkpoint (Path.str f)))
                    (Spec.scanned_files fs checkpoint_dir),
           inr (Spec.parsed_records fs checkpoint_dir)) : M (list checkpoint))
         (Py.sorted val_loss_key).
Proof.
  intros H Hos.
  pose proof (scan_output (Spec.scanned_files fs checkpoint_dir) []) as Hscan.
  revert Hos Hscan.
  unfold Spec.parsed_records, Spec.scanned_files, Spec.os_error, list_checkpoints,
    Path.exists_, Path.glob_suffix.
  destruct (fs (Path.str (Path.parse checkpoint_dir))) as [[|entries|m|m]|];
    try discriminate; try contradiction; intros _ Hscan; cbn [os_call negb];
    rewrite !bind_ret; cbv iota; rewrite Hscan; reflexivity.
Qed.

(** The listing is a rearrangement of the records of the scan. *)
Lemma list_checkpoints_permutation (l : list checkpoint) :
  result (list_checkpoints fs checkpoint_dir) = inr l ->
  Permutation (Spec.parsed_records fs checkpoint_dir) l.
Proof.
  destruct (Spec.os_error fs checkpoint_dir) as [msg|] eqn:Hos.
  { rewrite (list_checkpoints_os_error _ _ _ Hos). discriminate. }
  destruct (fs (Path.str (Path.parse checkpoint_dir))) as [n|] eqn:E.
  - rewrite list_checkpoints_sorted by congruence. rewrite bind_value.
    cbn [result snd]. apply sorted_permutation.
  - rewrite (list_checkpoints_missing _ _ E). intros [= <-].
    rewrite parsed_records_no_directory; [constructor|]. congruence.
Qed.

End Scan.

Section Children.

Import verify_performance.

Lemma append_assoc (a b c : string) : (a ++ b) ++ c = a ++ b ++ c.
Proof. induction a as [|d a IH]; simpl; [reflexivity|now rewrite IH]. Qed.

Lemma join_last (ps : list string) (p e : string) :
  Str.join "/" ((p :: ps) ++ [e]) = Str.join "/" (p :: ps) ++ "/" ++ e.
Proof.
  revert p. induction ps as [|q ps IH]; intros p; [reflexivity|].
  change (Str.join "/" ((p :: q :: ps) ++ [e]))
    with (p ++ "/" ++ Str.join "/" ((q :: ps) ++ [e])).
  rewrite IH.
  change (Str.join "/" (p :: q :: ps)) with (p ++ "/" ++ Str.join "/" (q :: ps)).
  now rewrite !append_assoc.
Qed.

Lemma parse_root_cases (s : string) :
  Path.parse_root s = "" \/ Path.parse_root s = "/" \/ Path.parse_root s = "//".
Proof.
  unfold Path.parse_root.
  destruct s as [|a s]; [now left|].
  destruct (Ascii.eqb_spec a "/") as [->|Ha].
  - destruct s as [|b s]; [now right; left|].
    destruct (Ascii.eqb_spec b "/") as [->|Hb].
    + destruct s as [|c s]; [now right; right|].
      destruct (Ascii.eqb_spec c "/") as [->|Hc]; [now right; left|].
      right; right.
      destruct c as [[] [] [] [] [] [] [] []]; try reflexivity. now destruct Hc.
    + right; left.
      destruct b as [[] [] [] [] [] [] [] []]; try reflexivity. now destruct Hb.
  - left. destruct a as [[] [] [] [] [] [] [] []]; try reflexivity. now destruct Ha.
Qed.

(** The path of an entry of a directory ends in the name of the entry. *)
Lemma child_str (dir e : string) :
  e <> "" ->
  Path.str (Path.child (Path.parse dir) e) = e
  \/ exists d, Path.str (Path.child (Path.parse dir) e) = d ++ "/" ++ e.
Proof.
  intros He. unfold Path.str, Path.child. cbn [Path.root Path.parts].
  destruct (Path.parts (Path.parse dir)) as [|p ps] eqn:P.
  - cbn [app Str.join].
    destruct (parse_root_cases dir) as [R|[R|R]]; unfold Path.parse in *;
      cbn [Path.root] in *; rewrite R.
    + left. reflexivity.
    + right. exists "". reflexivity.
    + right. exists "/". reflexivity.
  - right. exists (Path.root (Path.parse dir) ++ Str.join "/" (p :: ps)).
    rewrite append_assoc, <- join_last. cbn [app].
    now destruct (Path.root (Path.parse dir)).
Qed.

Lemma child_name (p : Path.path) (e : string) : Path.name (Path.child p e) = e.
Proof. unfold Path.name, Path.child. cbn [Path.parts]. apply last_last. Qed.

(** The parser reads the entry of a directory as it reads its name. *)
Lemma child_metrics (dir e : string) :
  Laws.entry_name e = true ->
  extract_metrics_from_checkpoint (Path.str (Path.child (Path.parse dir) e))
  = extract_metrics_from_checkpoint e.
Proof.
  unfold Laws.entry_name. intros H. apply andb_prop in H as [Hs Hn].
  rewrite contains_count in Hs. apply negb_true_iff, negb_false_iff, Nat.eqb_eq in Hs.
  assert (He : e <> "") by (intros ->; discriminate Hn).
  destruct (child_str dir e He) as [E|[d E]]; rewrite E; [reflexivity|].
  apply extract_by_stem. now apply stem_of_child.
Qed.

End Children.

(** X4.  The listing has one record for each entry of the directory that
    ends in [.ckpt], and none for the others: the file names of the
    records are those entries, rearranged.  The path of a record is the
    path of the directory followed by the file name, and its metrics are
    those of the file name alone. *)
Theorem list_checkpoints_one_record_per_file (fs : Path.filesystem) (checkpoint_dir : string)
    (entries : list string) (l : list verify_performance.checkpoint) :
  fs (Path.str (Path.parse checkpoint_dir)) = Some (Path.Dir entries) ->
  Forall (fun e => Laws.entry_name e = true) entries ->
  result (verify_performance.list_checkpoints fs checkpoint_dir) = inr l ->
  Permutation (filter (Str.endswith ".ckpt") entries) (map verify_performance.filename l)
  /\ List.length l = List.length (filter (Str.endswith ".ckpt") entries)
  /\ Forall (fun c =>
               verify_performance.path c
               = Path.str (Path.child (Path.parse checkpoint_dir) (verify_performance.filename c))
               /\ result (verify_performance.extract_metrics_from_checkpoint
                            (verify_performance.filename c))
                  = inr (verify_performance.metrics c)) l.
Proof.
  intros Hfs Hnames Hl.
  pose proof (list_checkpoints_permutation fs checkpoint_dir l Hl) as Hperm.
  assert (Hrec : Spec.parsed_records fs checkpoint_dir
                 = map (fun e => Spec.record_of (Path.child (Path.parse checkpoint_dir) e))
                       (filter (Str.endswith ".ckpt") entries)).
  { unfold Spec.parsed_records, Spec.scanned_files, Path.glob_suffix.
    rewrite Hfs. now rewrite map_map. }
  assert (Hfiles : map verify_performance.filename (Spec.parsed_records fs checkpoint_dir)
                   = filter (Str.endswith ".ckpt") entries).
  { rewrite Hrec, map_map. erewrite map_ext; [apply map_id|].
    intros e. unfold Spec.record_of. cbn [verify_performance.filename]. apply child_name. }
  split; [|split].
  - rewrite <- Hfiles. now apply Permutation_map.
  - rewrite <- (Permutation_length Hperm), <- Hfiles. now rewrite length_map.
  - eapply Permutation_Forall; [exact Hperm|].
    rewrite Hrec. apply Forall_map. apply Forall_forall. intros e He.
    apply filter_In in He as [He _].
    rewrite Forall_forall in Hnames. specialize (Hnames e He).
    unfold Spec.record_of.
    cbn [verify_performance.filename verify_performance.path verify_performance.metrics].
    rewrite child_name. split; [reflexivity|].
    rewrite <- (child_metrics checkpoint_dir e Hnames).
    destruct (metrics_of_extract (Path.str (Path.child (Path.parse checkpoint_dir) e)))
      as [out H].
    now rewrite H.
Qed.

Lemma list_checkpoints_one_record_per_file_witness :
  exists l,
    Permutation ["epoch=2-step=500-val_loss=0.3400.ckpt"; "last.ckpt";
                 "epoch=1-step=230-val_loss=0.3504.ckpt"]
                (map verify_performance.filename l)
    /\ List.length l = 3%nat
    /\ Forall (fun c =>
                 verify_performance.path c
                 = Path.str (Path.child (Path.parse "checkpoints") (verify_performance.filename c))
                 /\ result (verify_performance.extract_metrics_from_checkpoint
                              (verify_performance.filename c))
                    = inr (verify_performance.metrics c)) l.
Proof.
  eexists.
  apply (list_checkpoints_one_record_per_file Examples.three_checkpoints "checkpoints"
           ["epoch=2-step=500-val_loss=0.3400.ckpt"; "notes.txt";
            "last.ckpt"; "epoch=1-step=230-val_loss=0.3504.ckpt"]).
  - reflexivity.
  - repeat constructor.
  - vm_compute. reflexivity.
Defined.

Section Ties.

Import verify_performance.

Lemma filter_first {A : Type} (p : A -> bool) (l r : list A) (x : A) :
  filter p l = x :: r ->
  exists before after,
    l = (before ++ x :: after)%list /\ Forall (fun y => p y = false) before.
Proof.
  induction l as [|y l IH]; simpl; [discriminate|].
  destruct (p y) eqn:E.
  - intros [= -> _]. exists [], l. split; [reflexivity|constructor].
  - intros H. destruct (IH H) as [before [after [-> Hb]]].
    exists (y :: before), after. split; [reflexivity|now constructor].
Qed.

Lemma num_ltb_irrefl (v : value) : Py.num_ltb v v = false.
Proof.
  destruct (Py.num_ltb v v) eqn:E; [|reflexivity].
  pose proof (num_ltb_asym v v E). congruence.
Qed.

End Ties.

(** X5.  The sort of the listing is stable.  When the directory is looked
    up and scanned without an error and every validation loss is a number,
    the records whose keys tie (a missing validation loss
    ties with an infinite one) come in the order of the scan.  So the
    first record of the listing, which [main] takes for the best, is the
    first one of the scan that no other undercuts: what the scan returned
    before it has a larger key, what it returned after it has no smaller
    one. *)
Theorem list_checkpoints_stable (fs : Path.filesystem) (checkpoint_dir : string) :
  Spec.os_error fs checkpoint_dir = None ->
  Forall (fun c => Py.is_number (verify_performance.val_loss_key c) = true)
         (Spec.parsed_records fs checkpoint_dir) ->
  exists l,
    result (verify_performance.list_checkpoints fs checkpoint_dir) = inr l
    /\ (forall v, Spec.is_real v = true ->
          filter (Laws.ties v) l = filter (Laws.ties v) (Spec.parsed_records fs checkpoint_dir))
    /\ (forall best rest, l = best :: rest ->
          exists before after,
            Spec.parsed_records fs checkpoint_dir = (before ++ best :: after)%list
            /\ Forall (fun c => Py.num_ltb (verify_performance.val_loss_key best)
                                           (verify_performance.val_loss_key c) = true) before
            /\ Forall (fun c => Py.num_ltb (verify_performance.val_loss_key c)
                                           (verify_performance.val_loss_key best) = false) after).
Proof.
  intros Hos Hnum. pose proof (parsed_records_real fs checkpoint_dir Hnum) as Hreal.
  destruct (sorted_real verify_performance.val_loss_key _ Hreal) as [l [Hs [Hperm Hsorted]]].
  assert (Hres : result (verify_performance.list_checkpoints fs checkpoint_dir) = inr l).
  { destruct (fs (Path.str (Path.parse checkpoint_dir))) as [n|] eqn:E.
    - rewrite list_checkpoints_sorted by congruence. rewrite bind_value.
      cbn [result snd]. now rewrite Hs.
    - rewrite (list_checkpoints_missing _ _ E).
      rewrite parsed_records_no_directory in Hs by congruence.
      injection Hs as <-. reflexivity. }
  assert (Hties : forall v, Spec.is_real v = true ->
            filter (Laws.ties v) l
            = filter (Laws.ties v) (Spec.parsed_records fs checkpoint_dir)).
  { intros v Hv. now apply (sorted_stable verify_performance.val_loss_key v Hv). }
  exists l. split; [exact Hres|]. split; [exact Hties|].
  intros best rest ->.
  assert (Hbest : Spec.is_real (verify_performance.val_loss_key best) = true).
  { eapply Permutation_Forall in Hreal; [|exact Hperm].
    now apply Forall_cons_iff in Hreal as [H _]. }
  specialize (Hties _ Hbest). cbn [filter] in Hties.
  assert (T : Laws.ties (verify_performance.val_loss_key best) best = true).
  { unfold Laws.ties. now rewrite num_ltb_irrefl. }
  rewrite T in Hties. symmetry in Hties.
  destruct (filter_first _ _ _ _ Hties) as [before [after [Hsplit Hbefore]]].
  apply StronglySorted_inv in Hsorted as [_ Hmin].
  assert (Hle : forall c, In c (Spec.parsed_records fs checkpoint_dir) ->
                  Py.num_ltb (verify_performance.val_loss_key c)
                             (verify_performance.val_loss_key best) = false).
  { intros c Hc. apply (Permutation_in _ Hperm) in Hc as [<-|Hc].
    - apply num_ltb_irrefl.
    - rewrite Forall_forall in Hmin. now apply Hmin. }
  exists before, after. split; [exact Hsplit|]. split.
  - apply Forall_forall. intros c Hc.
    rewrite Forall_forall in Hbefore. specialize (Hbefore c Hc).
    unfold Laws.ties in Hbefore. rewrite Hle in Hbefore.
    + rewrite andb_true_r in Hbefore. now apply negb_false_iff in Hbefore.
    + rewrite Hsplit. apply in_or_app. now left.
  - apply Forall_forall. intros c Hc. apply Hle.
    rewrite Hsplit. apply in_or_app. right. now right.
Qed.

Lemma list_checkpoints_stable_witness :
  exists l,
    result (verify_performance.list_checkpoints Examples.same_loss "checkpoints") = inr l
    /\ map verify_performance.filename l
       = ["epoch=1-step=230-val_loss=0.3504.ckpt"; "epoch=2-step=460-val_loss=0.3504.ckpt"].
Proof.
  destruct (list_checkpoints_stable Examples.same_loss "checkpoints") as [l [Hl _]].
  - reflexivity.
  - repeat constructor.
  - exists l. split; [exact Hl|].
    vm_compute in Hl. injection Hl as <-. reflexivity.
Defined.

Section Errors.

Import verify_performance.

Lemma unparsable_output (f : Path.path) :
  output (extract_metrics_from_checkpoint (Path.str f))
  = if Laws.unparsable (Spec.record_of f) then [Laws.unpack_error] else [].
Proof.
  unfold Laws.unparsable, Spec.record_of. cbn [path].
  destruct (existsb _ _) eqn:E.
  - rewrite extract_metrics_failed; [reflexivity|].
    apply existsb_exists in E as [part [Hin Hpart]].
    apply Exists_exists. exists part. split; [exact Hin|]. now apply Nat.leb_le.
  - rewrite extract_metrics_ok; [reflexivity|].
    apply Forall_forall. intros part Hin.
    destruct (le_dec (Spec.count "=" part) 1) as [H|H]; [exact H|].
    assert (X : existsb (fun part => Nat.leb 2 (Spec.count "=" part))
                        (Spec.parts_of (Path.str f)) = true).
    { apply existsb_exists. exists part. split; [exact Hin|]. apply Nat.leb_le. lia. }
    congruence.
Qed.

Lemma unparsable_empty (f : Path.path) :
  Laws.unparsable (Spec.record_of f) = true ->
  metrics (Spec.record_of f) = Dict.empty.
Proof.
  unfold Laws.unparsable, Spec.record_of. cbn [path metrics]. intros E.
  unfold Spec.metrics_of. rewrite extract_metrics_failed; [reflexivity|].
  apply existsb_exists in E as [part [Hin Hpart]].
  apply Exists_exists. exists part. split; [exact Hin|]. now apply Nat.leb_le.
Qed.

Lemma scan_errors (files : list Path.path) :
  flat_map (fun f => output (extract_metrics_from_checkpoint (Path.str f))) files
  = map (fun _ => Laws.unpack_error) (filter Laws.unparsable (map Spec.record_of files)).
Proof.
  induction files as [|f files IH]; [reflexivity|].
  cbn [flat_map map filter]. rewrite IH, unparsable_output.
  now destruct (Laws.unparsable (Spec.record_of f)).
Qed.

End Errors.

(** X6.  The listing of a path that exists prints nothing of its own: its
    output is the line of the parser of file names, once for each
    checkpoint file whose name has a segment with two [=] or more, and
    this also when the sort raises.  Such a file has the empty mapping and
    so the key of a missing validation loss. *)
Theorem list_checkpoints_prints_parse_errors (fs : Path.filesystem) (checkpoint_dir : string) :
  fs (Path.str (Path.parse checkpoint_dir)) <> None ->
  output (verify_performance.list_checkpoints fs checkpoint_dir)
  = map (fun _ => Laws.unpack_error)
        (filter Laws.unparsable (Spec.parsed_records fs checkpoint_dir))
  /\ Forall (fun c => Laws.unparsable c = true ->
                      verify_performance.metrics c = Dict.empty
                      /\ verify_performance.val_loss_key c = VFloat Float.pos_inf)
            (Spec.parsed_records fs checkpoint_dir).
Proof.
  intros H. split.
  - destruct (Spec.os_error fs checkpoint_dir) as [msg|] eqn:Hos.
    { rewrite (list_checkpoints_os_error _ _ _ Hos).
      replace (Spec.parsed_records fs checkpoint_dir) with (@nil verify_performance.checkpoint);
        [reflexivity|].
      symmetry. apply parsed_records_no_directory. intros entries He.
      unfold Spec.os_error in Hos. rewrite He in Hos. discriminate Hos. }
    rewrite list_checkpoints_sorted by assumption. rewrite bind_value.
    pose proof (proj1 (sorted_permutation verify_performance.val_loss_key
                         (Spec.parsed_records fs checkpoint_dir))) as Hquiet.
    unfold output in *. cbn [fst]. rewrite Hquiet, app_nil_r.
    apply scan_errors.
  - unfold Spec.parsed_records. apply Forall_map. apply Forall_forall. intros f _ E.
    pose proof (unparsable_empty f E) as Hm. split; [exact Hm|].
    unfold verify_performance.val_loss_key. now rewrite Hm.
Qed.

Lemma list_checkpoints_prints_parse_errors_witness :
  output (verify_performance.list_checkpoints
            (Examples.checkpoints_with ["a=1-b=c=d.ckpt"; "epoch=1-val_loss=0.3504.ckpt"])
            "checkpoints")
  = [Laws.unpack_error].
Proof.
  destruct (list_checkpoints_prints_parse_errors
              (Examples.checkpoints_with ["a=1-b=c=d.ckpt"; "epoch=1-val_loss=0.3504.ckpt"])
              "checkpoints") as [H _].
  - discriminate.
  - rewrite H. reflexivity.
Defined.

(** ** The report of [main] *)

Section Report.

Import verify_performance.

Lemma result_bind {A B : Type} (m : M A) (k : A -> M B) :
  result (bind m k) = match result m with inl e => inl e | inr a => result (k a) end.
Proof.
  destruct m as [o [e|a]]; simpl; [reflexivity|]. now destruct (k a).
Qed.

Lemma output_bind {A B : Type} (m : M A) (k : A -> M B) :
  output (bind m k)
  = (output m ++ match result m with inl _ => [] | inr a => output (k a) end)%list.
Proof.
  destruct m as [o [e|a]]; simpl; [now rewrite app_nil_r|]. now destruct (k a).
Qed.

Lemma for_each_prints {X : Type} (f : X -> string) (l : list X) :
  for_each l (fun x _ => print (f x)) tt = (map f l, inr tt).
Proof.
  induction l as [|x l IH]; [reflexivity|].
  cbn [for_each]. rewrite bind_print, IH. reflexivity.
Qed.

Lemma display_checkpoint_returns (ckpt : checkpoint) (i : Z) :
  exists out, display_checkpoint ckpt i = (out, inr (i + 1)).
Proof.
  unfold display_checkpoint. rewrite bind_print.
  rewrite (for_each_prints
             (fun kv => "   " ++ Fmt.encode (fst kv) ++ ": " ++ Fmt.encode (Fmt.str_value (snd kv)))).
  rewrite bind_value. cbn [fst snd]. eexists. reflexivity.
Qed.

Lemma display_all_returns (l : list checkpoint) (i : Z) :
  exists out j, for_each l display_checkpoint i = (out, inr j).
Proof.
  revert i. induction l as [|c l IH]; intros i.
  - exists [], i. reflexivity.
  - destruct (display_checkpoint_returns c i) as [o1 H1].
    destruct (IH (i + 1)) as [o2 [j H2]].
    exists (o1 ++ o2)%list, j. cbn [for_each]. now rewrite H1, bind_value, H2.
Qed.

(** A line of the comparison is printed unless the metric is an integer
    out of the range of a float. *)
Lemma compare_metric_result (r : Dict.t value) (m : string) (e : Float.float) :
  (Laws.fits (Dict.get m r) = true -> exists line, compare_metric r (m, e) = ([line], inr tt))
  /\ (Laws.fits (Dict.get m r) = false ->
      compare_metric r (m, e)
      = ([], inl {| exn_kind := OverflowError;
                    exn_msg := "int too large to convert to float" |})).
Proof.
  unfold compare_metric, Dict.get_default, Laws.fits.
  destruct (Dict.get m r) as [[n|f|s]|]; cbn [Py.is_number].
  - unfold Py.sub_float, format_number_4f, Py.int_to_float.
    destruct (Z.abs n <? Py.float_overflow); split; try discriminate; intros _.
    + rewrite !bind_ret. eexists. reflexivity.
    + reflexivity.
  - split; [|discriminate]. intros _.
    unfold Py.sub_float, format_number_4f. rewrite !bind_ret. eexists. reflexivity.
  - split; [|discriminate]. intros _. eexists. reflexivity.
  - split; [|discriminate]. intros _. eexists. reflexivity.
Qed.

Lemma compare_all_result (r : Dict.t value) :
  (forallb (fun m => Laws.fits (Dict.get m r)) Laws.three_metrics = true ->
     exists out, for_each expected_results (fun item _ => compare_metric r item) tt
                 = (out, inr tt))
  /\ (forallb (fun m => Laws.fits (Dict.get m r)) Laws.three_metrics = false ->
      exists out e, for_each expected_results (fun item _ => compare_metric r item) tt
                    = (out, inl e)).
Proof.
  unfold expected_results. cbn [for_each forallb Laws.three_metrics].
  destruct (compare_metric_result r "val_loss" (Float.of_decimal false 3504 (-4))) as [A1 B1].
  destruct (compare_metric_result r "accuracy" (Float.of_decimal false 846 (-3))) as [A2 B2].
  destruct (compare_metric_result r "f1" (Float.of_decimal false 893 (-3))) as [A3 B3].
  destruct (Laws.fits (Dict.get "val_loss" r)).
  - destruct (A1 eq_refl) as [l1 ->]. rewrite bind_value. cbn [fst snd].
    destruct (Laws.fits (Dict.get "accuracy" r)).
    + destruct (A2 eq_refl) as [l2 ->]. rewrite bind_value. cbn [fst snd].
      destruct (Laws.fits (Dict.get "f1" r)).
      * destruct (A3 eq_refl) as [l3 ->]. rewrite bind_value. cbn [fst snd].
        split; [|discriminate]. intros _. eexists. reflexivity.
      * rewrite (B3 eq_refl). split; [discriminate|]. intros _. eexists _, _. reflexivity.
    + rewrite (B2 eq_refl). split; [discriminate|]. intros _. eexists _, _. reflexivity.
  - rewrite (B1 eq_refl). split; [discriminate|]. intros _. eexists _, _. reflexivity.
Qed.

(** The deviation of a metric is computed when the metric is a number
    that fits; else the computation raises. *)
Lemma deviation_result (r : Dict.t value) (m : string) (e : Float.float) :
  Dict.get m expected_results = Some e ->
  (Laws.number (Dict.get m r) && Laws.fits (Dict.get m r) = true ->
     exists d, deviation r m = ([], inr d))
  /\ (Laws.number (Dict.get m r) && Laws.fits (Dict.get m r) = false ->
      exists x, deviation r m = ([], inl x)).
Proof.
  intros He. unfold deviation, getitem, Laws.number, Laws.fits. rewrite He.
  destruct (Dict.get m r) as [[n|f|s]|]; cbn [Py.is_number andb].
  - rewrite !bind_ret. unfold Py.sub_float, Py.int_to_float.
    destruct (Z.abs n <? Py.float_overflow); split; try discriminate; intros _.
    + rewrite !bind_ret. eexists. reflexivity.
    + eexists. reflexivity.
  - split; [|discriminate]. intros _. eexists. reflexivity.
  - split; [discriminate|]. intros _. eexists. reflexivity.
  - split; [discriminate|]. intros _. eexists. reflexivity.
Qed.

Lemma classify_result (r : Dict.t value) :
  (Laws.readable r = true -> exists v, classify r = ([], inr v))
  /\ (forallb (fun m => Laws.fits (Dict.get m r)) Laws.three_metrics = true ->
      Laws.readable r = false -> exists x, classify r = ([], inl x)).
Proof.
  unfold Laws.readable, classify.
  change (Dict.keys expected_results) with Laws.three_metrics.
  unfold Py.all.
  destruct (forallb (fun m => Dict.mem m r) Laws.three_metrics) eqn:Hall.
  - cbn [negb orb].
    destruct (deviation_result r "val_loss" _ eq_refl) as [A1 B1].
    destruct (deviation_result r "accuracy" _ eq_refl) as [A2 B2].
    destruct (deviation_result r "f1" _ eq_refl) as [A3 B3].
    cbn [forallb Laws.three_metrics for_each] in *.
    destruct (Laws.fits (Dict.get "val_loss" r)); [|split; discriminate].
    destruct (Laws.fits (Dict.get "accuracy" r)); [|split; discriminate].
    destruct (Laws.fits (Dict.get "f1" r)); [|split; discriminate].
    cbn [andb] in *. rewrite !andb_true_r in *.
    destruct (Laws.number (Dict.get "val_loss" r)).
    + destruct (A1 eq_refl) as [d1 ->].
      repeat (rewrite bind_value; cbn [fst snd app ret Monad_M]).
      destruct (Laws.number (Dict.get "accuracy" r)).
      * destruct (A2 eq_refl) as [d2 ->].
        repeat (rewrite bind_value; cbn [fst snd app ret Monad_M]).
        destruct (Laws.number (Dict.get "f1" r)).
        -- destruct (A3 eq_refl) as [d3 ->].
           repeat (rewrite bind_value; cbn [fst snd app ret Monad_M]).
           split; [|discriminate]. intros _.
           destruct (forallb (under 2) _); [eexists; reflexivity|].
           destruct (forallb (under 5) _); eexists; reflexivity.
        -- destruct (B3 eq_refl) as [x ->]. split; [discriminate|]. intros _ _.
           eexists. reflexivity.
      * destruct (B2 eq_refl) as [x ->]. split; [discriminate|]. intros _ _.
        eexists. reflexivity.
    + destruct (B1 eq_refl) as [x ->]. split; [discriminate|]. intros _ _.
      eexists. reflexivity.
  - cbn [negb orb]. rewrite andb_true_r. split; [|congruence].
    intros _. eexists. reflexivity.
Qed.

Lemma print_verdict_returns (v : verdict) : exists out, print_verdict v = (out, inr tt).
Proof. destruct v; eexists; reflexivity. Qed.

Lemma analyze_wandb_results_returns (project_name : string) :
  exists out, analyze_wandb_results project_name = (out, inr tt).
Proof. eexists. reflexivity. Qed.

End Report.

Section Main.

Import verify_performance.

Variable fs : Path.filesystem.

(** What [main] does with the listing. *)
Lemma main_listing (out : list string) (l : list checkpoint) :
  list_checkpoints fs "checkpoints" = (out, inr l) ->
  result (main fs)
  = match l with
    | [] => inr tt
    | best :: _ =>
        match result (for_each expected_results
                        (fun item _ => compare_metric (metrics best) item) tt) with
        | inl e => inl e
        | inr _ =>
            match result (classify (metrics best)) with
            | inl e => inl e
            | inr _ => inr tt
            end
        end
    end.
Proof.
  intros H. unfold main.
  repeat (rewrite result_bind; cbn [result snd print]).
  rewrite H. cbn [result snd]. destruct l as [|best rest]; [reflexivity|].
  repeat (rewrite result_bind; cbn [result snd print]).
  destruct (display_all_returns (best :: rest) 1) as [o [j ->]]. cbn [result snd].
  repeat (rewrite result_bind; cbn [result snd print]).
  destruct (result (for_each expected_results
                      (fun item _ => compare_metric (metrics best) item) tt)) as [e|[]];
    [reflexivity|].
  repeat (rewrite result_bind; cbn [result snd print]).
  destruct (result (classify (metrics best))) as [e|v]; [reflexivity|].
  repeat (rewrite result_bind; cbn [result snd print]).
  destruct (print_verdict_returns v) as [o1 ->]. cbn [result snd].
  repeat (rewrite result_bind; cbn [result snd print]).
  destruct (analyze_wandb_results_returns "glue-docker-training") as [o2 ->]. cbn [result snd].
  repeat (rewrite result_bind; cbn [result snd print]).
  reflexivity.
Qed.

Lemma main_listing_raises (out : list string) (e : exn) :
  list_checkpoints fs "checkpoints" = (out, inl e) -> result (main fs) = inl e.
Proof.
  intros H. unfold main.
  repeat (rewrite result_bind; cbn [result snd print]).
  now rewrite H.
Qed.

(** The lines [main] prints on its way to the comparison. *)
Lemma main_names_best (out : list string) (best : checkpoint) (rest : list checkpoint) :
  list_checkpoints fs "checkpoints" = (out, inr (best :: rest)) ->
  In ("Found " ++ Fmt.str_int (Z.of_nat (S (List.length rest))) ++ " checkpoint(s):" ++ Fmt.nl)
     (output (main fs))
  /\ In ("Best checkpoint: " ++ Fmt.encode (filename best)) (output (main fs)).
Proof.
  intros H. unfold main.
  repeat (rewrite output_bind; cbn [result output fst snd print]).
  rewrite H. cbn [result output fst snd].
  repeat (rewrite output_bind; cbn [result output fst snd print]).
  destruct (display_all_returns (best :: rest) 1) as [o [j ->]]. cbn [result output fst snd].
  repeat (rewrite output_bind; cbn [result output fst snd print]).
  cbn [app]. split.
  - do 4 right. apply in_or_app. right. now left.
  - do 4 right. apply in_or_app. right. right. apply in_or_app. right. now left.
Qed.

End Main.

(** X7.  With no checkpoint to report on, [main] says so and returns
    before any analysis: it prints its heading, the notice of the listing
    if the directory [checkpoints] does not exist, and the hint to run the
    training; it prints no verdict and no checklist, and the exit status
    is 0.  This is so when [checkpoints] does not exist, when it is a file,
    and when it is a directory without an entry that ends in [.ckpt]. *)
Theorem main_without_checkpoints (fs : Path.filesystem) :
  let heading :=
    [ Fmt.nl ++ verify_performance.rule "=" 80;
      "MLOPS PROJECT 2 - PERFORMANCE VERIFICATION";
      verify_performance.rule "=" 80 ++ Fmt.nl;
      "Analyzing checkpoints..." ++ Fmt.nl ] in
  let hint :=
    [ "⚠ No checkpoints found. Have you run training yet?";
      "  Run: .\docker_run_wandb.ps1" ++ Fmt.nl ] in
  (fs "checkpoints" = None ->
     verify_performance.main fs
     = ((heading ++ ["Checkpoint directory not found: checkpoints"] ++ hint)%list, inr tt))
  /\ (fs "checkpoints" = Some Path.File ->
        verify_performance.main fs = ((heading ++ hint)%list, inr tt))
  /\ (forall entries,
        fs "checkpoints" = Some (Path.Dir entries) ->
        filter (Str.endswith ".ckpt") entries = [] ->
        verify_performance.main fs = ((heading ++ hint)%list, inr tt))
  /\ (forall out,
        verify_performance.list_checkpoints fs "checkpoints" = (out, inr []) ->
        verify_performance.exit_status (verify_performance.main fs) = 0).
Proof.
  intros heading hint.
  assert (G : forall out,
             verify_performance.list_checkpoints fs "checkpoints" = (out, inr []) ->
             verify_performance.main fs = ((heading ++ out ++ hint)%list, inr tt)).
  { intros out H. unfold verify_performance.main. rewrite H. reflexivity. }
  split; [|split; [|split]].
  - intros H. apply (G ["Checkpoint directory not found: checkpoints"]).
    now apply list_checkpoints_missing.
  - intros H. apply (G []).
    unfold verify_performance.list_checkpoints, Path.exists_, Path.glob_suffix.
    change (fs (Path.str (Path.parse "checkpoints"))) with (fs "checkpoints").
    rewrite H. reflexivity.
  - intros entries H Hnone. apply (G []).
    unfold verify_performance.list_checkpoints, Path.exists_, Path.glob_suffix.
    change (fs (Path.str (Path.parse "checkpoints"))) with (fs "checkpoints").
    rewrite H, Hnone. reflexivity.
  - intros out H. unfold verify_performance.exit_status. now rewrite (G out H).
Qed.

Lemma main_without_checkpoints_witness :
  verify_performance.main Examples.nothing
  = ([ Fmt.nl ++ verify_performance.rule "=" 80;
       "MLOPS PROJECT 2 - PERFORMANCE VERIFICATION";
       verify_performance.rule "=" 80 ++ Fmt.nl;
       "Analyzing checkpoints..." ++ Fmt.nl;
       "Checkpoint directory not found: checkpoints";
       "⚠ No checkpoints found. Have you run training yet?";
       "  Run: .\docker_run_wandb.ps1" ++ Fmt.nl ], inr tt)
  /\ verify_performance.main (Examples.checkpoints_with ["notes.txt"])
     = ([ Fmt.nl ++ verify_performance.rule "=" 80;
          "MLOPS PROJECT 2 - PERFORMANCE VERIFICATION";
          verify_performance.rule "=" 80 ++ Fmt.nl;
          "Analyzing checkpoints..." ++ Fmt.nl;
          "⚠ No checkpoints found. Have you run training yet?";
          "  Run: .\docker_run_wandb.ps1" ++ Fmt.nl ], inr tt).
Proof.
  split.
  - apply (proj1 (main_without_checkpoints Examples.nothing)). reflexivity.
  - apply (proj1 (proj2 (proj2 (main_without_checkpoints
                                  (Examples.checkpoints_with ["notes.txt"]))))
             ["notes.txt"]); reflexivity.
Defined.

(** X8.  The exit status of [main], case by case.  When the sort of the
    listing raises, [main] ends with that exception.  When the listing is
    empty the status is 0.  Otherwise [main] reports on the first record
    of the listing, names it as the best, and the status is 0 exactly when
    the record is readable: none of the metrics [val_loss], [accuracy] and
    [f1] is an integer out of the range of a float and, if the three are
    there, each is a number; else the status is 1. *)
Theorem main_exit_status (fs : Path.filesystem) :
  (forall out e,
     verify_performance.list_checkpoints fs "checkpoints" = (out, inl e) ->
     result (verify_performance.main fs) = inl e
     /\ verify_performance.exit_status (verify_performance.main fs) = 1)
  /\ (forall out l,
        verify_performance.list_checkpoints fs "checkpoints" = (out, inr l) ->
        verify_performance.exit_status (verify_performance.main fs)
        = match l with
          | [] => 0
          | best :: _ => if Laws.readable (verify_performance.metrics best) then 0 else 1
          end)
  /\ (forall out best rest,
        verify_performance.list_checkpoints fs "checkpoints" = (out, inr (best :: rest)) ->
        In ("Found " ++ Fmt.str_int (Z.of_nat (S (List.length rest))) ++ " checkpoint(s):" ++ Fmt.nl)
           (output (verify_performance.main fs))
        /\ In ("Best checkpoint: " ++ Fmt.encode (verify_performance.filename best))
              (output (verify_performance.main fs))).
Proof.
  split; [|split].
  - intros out e H. pose proof (main_listing_raises fs out e H) as Hr.
    split; [exact Hr|]. unfold verify_performance.exit_status. now rewrite Hr.
  - intros out l H. unfold verify_performance.exit_status.
    rewrite (main_listing fs out l H). destruct l as [|best rest]; [reflexivity|].
    destruct (compare_all_result (verify_performance.metrics best)) as [A B].
    destruct (classify_result (verify_performance.metrics best)) as [C D].
    unfold Laws.readable in *.
    destruct (forallb (fun m => Laws.fits (Dict.get m (verify_performance.metrics best)))
                      Laws.three_metrics).
    + destruct (A eq_refl) as [o ->]. cbn [result snd andb] in *.
      destruct (negb _ || _)%bool.
      * now destruct (C eq_refl) as [v ->].
      * now destruct (D eq_refl eq_refl) as [x ->].
    + now destruct (B eq_refl) as [o [e ->]].
  - intros out best rest. apply main_names_best.
Qed.

Lemma main_exit_status_witness :
  verify_performance.exit_status (verify_performance.main Examples.three_checkpoints) = 0
  /\ verify_performance.exit_status (verify_performance.main Examples.unreadable_accuracy) = 1
  /\ In "Best checkpoint: epoch=2-step=500-val_loss=0.3400.ckpt"
        (output (verify_performance.main Examples.three_checkpoints)).
Proof.
  destruct (main_exit_status Examples.three_checkpoints) as [_ [H1 H3]].
  destruct (main_exit_status Examples.unreadable_accuracy) as [_ [H2 _]].
  assert (E1 : verify_performance.list_checkpoints Examples.three_checkpoints "checkpoints"
               = ([], inr [ {| verify_performance.filename := "epoch=2-step=500-val_loss=0.3400.ckpt";
                               verify_performance.path := "checkpoints/epoch=2-step=500-val_loss=0.3400.ckpt";
                               verify_performance.metrics :=
                                 [("epoch", VInt 2); ("step", VInt 500);
                                  ("val_loss", VFloat (Float.of_decimal false 34 (-2)))] |};
                            {| verify_performance.filename := "epoch=1-step=230-val_loss=0.3504.ckpt";
                               verify_performance.path := "checkpoints/epoch=1-step=230-val_loss=0.3504.ckpt";
                               verify_performance.metrics :=
                                 [("epoch", VInt 1); ("step", VInt 230);
                                  ("val_loss", VFloat (Float.of_decimal false 3504 (-4)))] |};
                            {| verify_performance.filename := "last.ckpt";
                               verify_performance.path := "checkpoints/last.ckpt";
                               verify_performance.metrics := [] |} ])).
  { vm_compute. reflexivity. }
  assert (E2 : verify_performance.list_checkpoints Examples.unreadable_accuracy "checkpoints"
               = ([], inr [ {| verify_performance.filename := "val_loss=0.3504-accuracy=high-f1=0.893.ckpt";
                               verify_performance.path := "checkpoints/val_loss=0.3504-accuracy=high-f1=0.893.ckpt";
                               verify_performance.metrics :=
                                 [("val_loss", VFloat (Float.of_decimal false 3504 (-4)));
                                  ("accuracy", VStr "high");
                                  ("f1", VFloat (Float.of_decimal false 893 (-3)))] |} ])).
  { vm_compute. reflexivity. }
  split; [|split].
  - rewrite (H1 _ _ E1). reflexivity.
  - rewrite (H2 _ _ E2). reflexivity.
  - exact (proj2 (H3 _ _ _ E1)).
Defined.

(** ** The comparison table *)

Section Table.

Import verify_performance.

Variable docker : Dict.t value.

(** A row of the table is printed unless the result is an integer out of
    the range of a float. *)
Lemma table_row_result (metric_name : string) (expected : Float.float) (key : string) :
  let your_result := Dict.get_default key (VStr "N/A") docker in
  let row : M unit :=
    diff_str <-
      (if Py.is_number your_result then
         diff <- Py.sub_float your_result expected ;;
         let diff_pct := percent diff expected in
         ret (Fmt.format_f true 4 diff ++ " (" ++ Fmt.format_f true 1 diff_pct ++ "%)")
       else ret "N/A") ;;
    print (Str.ljust 20 metric_name ++ " | "
           ++ Str.ljust 15 (Fmt.format_f false 4 expected) ++ " | "
           ++ Fmt.encode (Str.ljust 15 (Fmt.str_value your_result)) ++ " | "
           ++ Str.ljust 15 diff_str) in
  (Laws.fits (Dict.get key docker) = true -> exists line, row = ([line], inr tt))
  /\ (Laws.fits (Dict.get key docker) = false ->
      row = ([], inl {| exn_kind := OverflowError;
                        exn_msg := "int too large to convert to float" |})).
Proof.
  unfold Dict.get_default, Laws.fits.
  destruct (Dict.get key docker) as [[n|f|s]|]; cbn [Py.is_number]; cbv zeta.
  - unfold Py.sub_float, Py.int_to_float.
    destruct (Z.abs n <? Py.float_overflow); split; try discriminate; intros _.
    + rewrite !bind_ret. eexists. reflexivity.
    + reflexivity.
  - split; [|discriminate]. intros _. eexists. reflexivity.
  - split; [|discriminate]. intros _. eexists. reflexivity.
  - split; [|discriminate]. intros _. eexists. reflexivity.
Qed.

End Table.

(** X9.  The comparison table never raises but for an integer too large
    for a float among the results of [docker]: apart from that it prints
    ten lines and returns, whatever the results are.  A result that is
    missing is shown as [N/A], and so is its difference: without results
    for [docker] the three rows read [N/A] twice, beside the expected
    values [0.3500], [0.8460] and [0.8930]. *)
Theorem comparison_table_rows (environments : Dict.t (Dict.t value)) :
  let docker := Dict.get_default "docker" Dict.empty environments in
  (forallb (fun key => Laws.fits (Dict.get key docker)) Laws.three_metrics = true ->
     exists lines,
       verify_performance.print_comparison_table environments = (lines, inr tt)
       /\ List.length lines = 10%nat)
  /\ (forallb (fun key => Laws.fits (Dict.get key docker)) Laws.three_metrics = false ->
      exists out,
        verify_performance.print_comparison_table environments
        = (out, inl {| exn_kind := OverflowError;
                       exn_msg := "int too large to convert to float" |}))
  /\ (Dict.get "val_loss" docker = None ->
      Dict.get "accuracy" docker = None ->
      Dict.get "f1" docker = None ->
      verify_performance.print_comparison_table environments
      = ([ Fmt.nl ++ verify_performance.rule "=" 80;
           "PERFORMANCE COMPARISON ACROSS ENVIRONMENTS";
           verify_performance.rule "=" 80 ++ Fmt.nl;
           "Metric               | Expected        | Your Result     | Difference     ";
           verify_performance.rule "-" 80;
           "Validation Loss      | 0.3500          | N/A             | N/A            ";
           "Accuracy             | 0.8460          | N/A             | N/A            ";
           "F1 Score             | 0.8930          | N/A             | N/A            ";
           verify_performance.rule "-" 80;
           Fmt.nl ], inr tt)).
Proof.
  intros docker.
  unfold verify_performance.print_comparison_table, verify_performance.table_metrics.
  fold docker. cbn [for_each].
  destruct (table_row_result docker "Validation Loss" (Float.of_decimal false 350 (-3)) "val_loss")
    as [A1 B1].
  destruct (table_row_result docker "Accuracy" (Float.of_decimal false 846 (-3)) "accuracy")
    as [A2 B2].
  destruct (table_row_result docker "F1 Score" (Float.of_decimal false 893 (-3)) "f1")
    as [A3 B3].
  cbv zeta in *. cbn [forallb Laws.three_metrics].
  split; [|split].
  - intros H. apply andb_prop in H as [H1 H]. apply andb_prop in H as [H2 H].
    apply andb_prop in H as [H3 _].
    destruct (A1 H1) as [l1 E1]. destruct (A2 H2) as [l2 E2]. destruct (A3 H3) as [l3 E3].
    rewrite E1, E2, E3. eexists. split; reflexivity.
  - intros H.
    destruct (Laws.fits (Dict.get "val_loss" docker)).
    + destruct (A1 eq_refl) as [l1 E1]. rewrite E1.
      destruct (Laws.fits (Dict.get "accuracy" docker)).
      * destruct (A2 eq_refl) as [l2 E2]. rewrite E2.
        destruct (Laws.fits (Dict.get "f1" docker)); [discriminate H|].
        rewrite (B3 eq_refl). eexists. reflexivity.
      * rewrite (B2 eq_refl). eexists. reflexivity.
    + rewrite (B1 eq_refl). eexists. reflexivity.
  - intros H1 H2 H3. unfold Dict.get_default.
    rewrite H1, H2, H3. vm_compute. reflexivity.
Qed.

Lemma comparison_table_rows_witness :
  (exists lines,
     verify_performance.print_comparison_table Records.two_environments = (lines, inr tt)
     /\ List.length lines = 10%nat)
  /\ verify_performance.print_comparison_table [("local", Records.docker)]
     = ([ Fmt.nl ++ verify_performance.rule "=" 80;
          "PERFORMANCE COMPARISON ACROSS ENVIRONMENTS";
          verify_performance.rule "=" 80 ++ Fmt.nl;
          "Metric               | Expected        | Your Result     | Difference     ";
          verify_performance.rule "-" 80;
          "Validation Loss      | 0.3500          | N/A             | N/A            ";
          "Accuracy             | 0.8460          | N/A             | N/A            ";
          "F1 Score             | 0.8930          | N/A             | N/A            ";
          verify_performance.rule "-" 80;
          Fmt.nl ], inr tt).
Proof.
  split.
  - apply (proj1 (comparison_table_rows Records.two_environments)). reflexivity.
  - apply (proj2 (proj2 (comparison_table_rows [("local", Records.docker)]))); reflexivity.
Defined.

Section VerdictOfMain.

Import verify_performance.

(** The verdict tells that the metrics could not be verified exactly
    when one of the three is missing. *)
Lemma classify_unverified (r : Dict.t value) (out : list string) (v : verdict) :
  classify r = (out, inr v) ->
  (v = Unverified <-> forallb (fun m => Dict.mem m r) Laws.three_metrics = false).
Proof.
  unfold classify. change (Dict.keys expected_results) with Laws.three_metrics.
  unfold Py.all.
  destruct (forallb (fun m => Dict.mem m r) Laws.three_metrics).
  - destruct (for_each Laws.three_metrics _ []) as [o [e|diffs]]; cbn [bind Monad_M];
      [discriminate|].
    destruct (forallb (under 2) diffs); [intros [= _ <-]; split; discriminate|].
    destruct (forallb (under 5) diffs); intros [= _ <-]; split; discriminate.
  - intros [= _ <-]. now split.
Qed.

Variable fs : Path.filesystem.

Lemma main_output (out : list string) (best : checkpoint) (rest : list checkpoint)
    (v : verdict) :
  list_checkpoints fs "checkpoints" = (out, inr (best :: rest)) ->
  Laws.readable (metrics best) = true ->
  classify (metrics best) = ([], inr v) ->
  exists before,
    main fs
    = ((before ++ (Fmt.nl ++ "Verdict:")%string
               :: output (print_verdict v)
               ++ output (analyze_wandb_results "glue-docker-training")
               ++ Laws.next_steps)%list,
       inr tt).
Proof.
  intros H Hr Hv.
  destruct (compare_all_result (metrics best)) as [A _].
  unfold Laws.readable in Hr. apply andb_prop in Hr as [Hfits _].
  destruct (A Hfits) as [oc Hc].
  destruct (display_all_returns (best :: rest) 1) as [od [j Hd]].
  destruct (print_verdict_returns v) as [ov Hov].
  destruct (analyze_wandb_results_returns "glue-docker-training") as [oa Ha].
  assert (Hres : result (main fs) = inr tt).
  { rewrite (main_listing fs out _ H), Hc, Hv. reflexivity. }
  exists ([ (Fmt.nl ++ rule "=" 80)%string; "MLOPS PROJECT 2 - PERFORMANCE VERIFICATION";
            (rule "=" 80 ++ Fmt.nl)%string; ("Analyzing checkpoints..." ++ Fmt.nl)%string ]
          ++ out
          ++ ("Found " ++ Fmt.str_int (Z.of_nat (List.length (best :: rest)))
              ++ " checkpoint(s):" ++ Fmt.nl)%string
          :: od
          ++ [ ("Best checkpoint: " ++ Fmt.encode (filename best))%string;
               (Fmt.nl ++ "Performance Comparison:")%string; rule "-" 50 ]
          ++ oc ++ [rule "-" 50])%list.
  rewrite (surjective_pairing (main fs)). fold (output (main fs)). fold (result (main fs)).
  rewrite Hres. f_equal.
  unfold main.
  repeat (rewrite output_bind; cbn [result output fst snd print]).
  rewrite H. cbn [result output fst snd].
  repeat (rewrite output_bind; cbn [result output fst snd print]).
  rewrite Hd. cbn [result output fst snd].
  repeat (rewrite output_bind; cbn [result output fst snd print]).
  unfold output, result in *. rewrite Hc. cbn [fst snd].
  fold (@output unit) (@result unit) (@output verdict) (@result verdict).
  repeat (rewrite output_bind; cbn [result output fst snd print]).
  unfold output, result in *. rewrite Hv. cbn [fst snd].
  repeat (rewrite output_bind; cbn [result output fst snd print]).
  unfold output, result in *. rewrite Hov, Ha.
  cbn [bind Monad_M fst snd print app Laws.next_steps].
  repeat first [rewrite <- app_assoc | progress cbn [app]]. reflexivity.
Qed.

End VerdictOfMain.

(** X10.  The verdict [main] prints.  When the first record of the
    listing is readable, [main] returns, and after the line that
    announces the verdict it prints the two lines of the verdict that the
    metrics of that record give, then the checklist and the next steps,
    and nothing more.  The verdict is that the metrics could not be
    verified exactly when one of [val_loss], [accuracy] and [f1] is missing
    from the file name: so it is for a file name that holds the validation
    loss only. *)
Theorem main_prints_verdict (fs : Path.filesystem) (out : list string)
    (best : verify_performance.checkpoint) (rest : list verify_performance.checkpoint) :
  verify_performance.list_checkpoints fs "checkpoints" = (out, inr (best :: rest)) ->
  Laws.readable (verify_performance.metrics best) = true ->
  exists v before,
    verify_performance.classify (verify_performance.metrics best) = ([], inr v)
    /\ verify_performance.main fs
       = ((before ++ (Fmt.nl ++ "Verdict:")%string
                  :: output (verify_performance.print_verdict v)
                  ++ output (verify_performance.analyze_wandb_results "glue-docker-training")
                  ++ Laws.next_steps)%list, inr tt)
    /\ (v = verify_performance.Unverified <->
        forallb (fun m => Dict.mem m (verify_performance.metrics best)) Laws.three_metrics
        = false).
Proof.
  intros H Hr.
  destruct (proj1 (classify_result (verify_performance.metrics best)) Hr) as [v Hv].
  destruct (main_output fs out best rest v H Hr Hv) as [before Hmain].
  exists v, before. split; [exact Hv|]. split; [exact Hmain|].
  now apply (classify_unverified _ []).
Qed.

Lemma main_prints_verdict_witness :
  exists before,
    verify_performance.main Examples.three_checkpoints
    = ((before ++ (Fmt.nl ++ "Verdict:")%string
               :: [ "⚠  Could not verify all metrics from checkpoint filename.";
                    "   Check W&B dashboard for complete results." ]
               ++ output (verify_performance.analyze_wandb_results "glue-docker-training")
               ++ Laws.next_steps)%list, inr tt).
Proof.
  assert (E : verify_performance.list_checkpoints Examples.three_checkpoints "checkpoints"
              = ([], inr ({| verify_performance.filename := "epoch=2-step=500-val_loss=0.3400.ckpt";
                             verify_performance.path := "checkpoints/epoch=2-step=500-val_loss=0.3400.ckpt";
                             verify_performance.metrics :=
                               [("epoch", VInt 2); ("step", VInt 500);
                                ("val_loss", VFloat (Float.of_decimal false 34 (-2)))] |}
                          :: [ {| verify_performance.filename := "epoch=1-step=230-val_loss=0.3504.ckpt";
                                  verify_performance.path := "checkpoints/epoch=1-step=230-val_loss=0.3504.ckpt";
                                  verify_performance.metrics :=
                                    [("epoch", VInt 1); ("step", VInt 230);
                                     ("val_loss", VFloat (Float.of_decimal false 3504 (-4)))] |};
                               {| verify_performance.filename := "last.ckpt";
                                  verify_performance.path := "checkpoints/last.ckpt";
                                  verify_performance.metrics := [] |} ]))).
  { vm_compute. reflexivity. }
  destruct (main_prints_verdict Examples.three_checkpoints _ _ _ E eq_refl)
    as [v [before [_ [Hmain Hv]]]].
  assert (X : v = verify_performance.Unverified) by (apply Hv; reflexivity).
  subst v. exists before. exact Hmain.
Defined.

(** ** The marks of the comparison and the verdict *)

Section Marks.

Import verify_performance.

Variable r : Dict.t value.



End Marks.




(** * Further properties of [train.py] *)

(** ** What the parser stores *)

Section Stored.

Import train.

Lemma get_in {V : Type} (k : string) (v : V) (d : Dict.t V) :
  Dict.get k d = Some v -> In (k, v) d.
Proof.
  induction d as [|[k' v'] d IH]; simpl; [discriminate|].
  destruct (String.eqb_spec k k') as [->|Hne].
  - intros [= ->]. now left.
  - intros H. right. now apply IH.
Qed.

(** An option string that stores is one of an argument of the parser. *)
Lemma option_string_known (o : string) (a : argument) :
  In (o, Store a) option_string_actions -> In a arguments /\ In o (option_strings a).
Proof.
  unfold option_string_actions. intros [H|[H|H]]; try discriminate H.
  apply in_flat_map in H as [x [Hx H]].
  apply in_map_iff in H as [o' [[= -> ->] Ho]]. now split.
Qed.

(** A string that does not start with a dash is an argument. *)
Lemma parse_optional_plain (c : ascii) (s : string) :
  c <> "-"%char -> parse_optional (String c s) = inr None.
Proof.
  intros Hc. destruct c as [[] [] [] [] [] [] [] []]; try reflexivity. now destruct Hc.
Qed.

Lemma get_option_tuples_plain (c : ascii) (s : string) :
  c <> "-"%char -> get_option_tuples (String c s) = [].
Proof.
  intros Hc. destruct c as [[] [] [] [] [] [] [] []]; try reflexivity. now destruct Hc.
Qed.

(** The two ways an abbreviation is looked up. *)
Let long_tuples (arg_string : string) : list (action * string * option string) :=
  let '(option_prefix, explicit_arg) :=
    match split_first "=" arg_string with
    | Some (p, e) => (p, Some e)
    | None => (arg_string, None)
    end in
  flat_map (fun oa : string * action =>
              if String.prefix option_prefix (fst oa)
              then [(snd oa, fst oa, explicit_arg)] else [])
           option_string_actions.

Let short_tuples (arg_string : string) : list (action * string * option string) :=
  let short_option_prefix := Str.take 2 arg_string in
  let short_explicit_arg := substring 2 (String.length arg_string - 2) arg_string in
  flat_map (fun oa : string * action =>
              if String.eqb (fst oa) short_option_prefix
              then [(snd oa, fst oa, Some short_explicit_arg)]
              else if String.prefix arg_string (fst oa)
              then [(snd oa, fst oa, None)] else [])
           option_string_actions.

Lemma get_option_tuples_cases (arg_string : string) :
  get_option_tuples arg_string = []
  \/ get_option_tuples arg_string = long_tuples arg_string
  \/ get_option_tuples arg_string = short_tuples arg_string.
Proof.
  destruct arg_string as [|c s]; [now left|].
  destruct (ascii_dec c "-") as [->|Hc]; [|left; now apply get_option_tuples_plain].
  destruct s as [|d s]; [right; right; reflexivity|].
  destruct (ascii_dec d "-") as [->|Hd]; [right; left; reflexivity|].
  right; right.
  destruct d as [[] [] [] [] [] [] [] []]; try reflexivity. now destruct Hd.
Qed.

Lemma get_option_tuples_known (arg_string o : string) (a : action) (e : option string) :
  In (a, o, e) (get_option_tuples arg_string) -> In (o, a) option_string_actions.
Proof.
  destruct (get_option_tuples_cases arg_string) as [E|[E|E]]; rewrite E.
  - intros [].
  - unfold long_tuples.
    destruct (match split_first "=" arg_string with
              | Some (p, e0) => (p, Some e0)
              | None => (arg_string, None)
              end) as [option_prefix explicit_arg].
    intros H. apply in_flat_map in H as [[o' a'] [Hin H]]. cbn [fst snd] in H.
    destruct (String.prefix option_prefix o'); [|contradiction].
    destruct H as [[= <- <- <-]|[]]. exact Hin.
  - unfold short_tuples.
    intros H. apply in_flat_map in H as [[o' a'] [Hin H]]. cbn [fst snd] in H.
    destruct (String.eqb o' (Str.take 2 arg_string)).
    + destruct H as [[= <- <- <-]|[]]. exact Hin.
    + destruct (String.prefix arg_string o'); [|contradiction].
      destruct H as [[= <- <- <-]|[]]. exact Hin.
Qed.

(** What [parse_optional] does with a string that starts with a dash. *)
Lemma parse_optional_dash (s : string) :
  parse_optional (String "-" s)
  = match Dict.get (String "-" s) option_string_actions with
    | Some a => inr (Some (Some a, String "-" s, None))
    | None =>
        if Nat.eqb (String.length (String "-" s)) 1 then inr None
        else
          match
            match split_first "=" (String "-" s) with
            | Some (option_string, explicit_arg) =>
                match Dict.get option_string option_string_actions with
                | Some a => Some (Some a, option_string, Some explicit_arg)
                | None => None
                end
            | None => None
            end
          with
          | Some t => inr (Some t)
          | None =>
              match get_option_tuples (String "-" s) with
              | _ :: _ :: _ => inl (AmbiguousOption (String "-" s))
              | [(a, o, e)] => inr (Some (Some a, o, e))
              | [] =>
                  if negative_number (String "-" s) then inr None
                  else if Str.contains " " (String "-" s) then inr None
                  else inr (Some (None, String "-" s, None))
              end
          end
    end.
Proof. reflexivity. Qed.

Lemma parse_optional_known (s o : string) (a : argument) (e : option string) :
  parse_optional s = inr (Some (Some (Store a), o, e)) ->
  In a arguments /\ In o (option_strings a).
Proof.
  destruct s as [|c s]; [discriminate|].
  destruct (ascii_dec c "-") as [->|Hc]; [|now rewrite parse_optional_plain].
  rewrite parse_optional_dash.
  destruct (Dict.get (String "-" s) option_string_actions) as [act|] eqn:E1.
  { intros [= -> <- <-]. apply option_string_known. now apply get_in. }
  destruct (Nat.eqb (String.length (String "-" s)) 1); [discriminate|].
  destruct (split_first "=" (String "-" s)) as [[option_string explicit_arg]|].
  - destruct (Dict.get option_string option_string_actions) as [act|] eqn:E2.
    { intros [= -> <- <-]. apply option_string_known. now apply get_in. }
    pose proof (get_option_tuples_known (String "-" s)) as K.
    destruct (get_option_tuples (String "-" s)) as [|[[a1 o1] e1] [|t2 l]].
    + destruct (negative_number _); [discriminate|].
      destruct (Str.contains " " _); discriminate.
    + intros [= -> -> ->]. apply option_string_known. apply (K o (Store a) e). now left.
    + discriminate.
  - pose proof (get_option_tuples_known (String "-" s)) as K.
    destruct (get_option_tuples (String "-" s)) as [|[[a1 o1] e1] [|t2 l]].
    + destruct (negative_number _); [discriminate|].
      destruct (Str.contains " " _); discriminate.
    + intros [= -> -> ->]. apply option_string_known. apply (K o (Store a) e). now left.
    + discriminate.
Qed.

(** A token that stores does so for an argument of the parser. *)
Let known (t : token) : Prop :=
  match t with
  | TOpt (Some (Store a)) o _ => In a arguments /\ In o (option_strings a)
  | _ => True
  end.

Lemma classify_known (argv : list string) (tokens : list token) :
  classify argv = inr tokens -> Forall known tokens.
Proof.
  revert tokens. induction argv as [|s argv IH]; intros tokens; cbn [classify].
  - intros [= <-]. constructor.
  - destruct (String.eqb s "--").
    + intros [= <-]. constructor; [exact I|]. apply Forall_map. now apply Forall_forall.
    + pose proof (parse_optional_known s) as K.
      destruct (parse_optional s) as [e|t]; [discriminate|].
      destruct (classify argv) as [e|ts]; [discriminate|].
      intros [= <-]. constructor; [|now apply IH].
      destruct t as [[[[[|a]|] o] e]|]; try exact I. now apply (K o a e).
Qed.

(** A property of the attributes that every stored value keeps holds
    for the attributes the parser returns. *)
Lemma consume_keeps (P : Dict.t arg_value -> Prop) :
  (forall a o v ns ns', In a arguments -> P ns -> store a o v ns = inr ns' -> P ns') ->
  forall n tokens, (List.length tokens <= n)%nat -> Forall known tokens ->
  forall ns extras ns', P ns -> consume tokens ns extras = Namespace ns' -> P ns'.
Proof.
  intros Hstore. induction n as [|n IH]; intros tokens Hlen Hk ns extras ns' Hns.
  { destruct tokens; [|simpl in Hlen; lia]. cbn [consume].
    destruct extras; [|discriminate]. now intros [= <-]. }
  destruct tokens as [|t tokens].
  { cbn [consume]. destruct extras; [|discriminate]. now intros [= <-]. }
  simpl in Hlen. apply Forall_cons_iff in Hk as [Ht Hk].
  assert (Hn : (List.length tokens <= n)%nat) by lia.
  destruct t as [s| |[[|a]|] o [e|]]; cbn [consume];
    try (now apply IH); try discriminate.
  - destruct (String.eqb o "-h" && negb (String.eqb e "") && only_h e); discriminate.
  - destruct (store a o e ns) as [err|ns1] eqn:Es; [discriminate|].
    apply (IH tokens Hn Hk). apply (Hstore a o e ns ns1); [apply Ht|exact Hns|exact Es].
  - destruct tokens as [|[v| |x y z] tokens]; try discriminate.
    destruct (store a o v ns) as [err|ns1] eqn:Es; [discriminate|].
    apply Forall_cons_iff in Hk as [_ Hk]. simpl in Hn.
    apply (IH tokens); [lia|exact Hk|].
    apply (Hstore a o v ns ns1); [apply Ht|exact Hns|exact Es].
Qed.

Lemma parse_args_keeps (P : Dict.t arg_value -> Prop) :
  (forall a o v ns ns', In a arguments -> P ns -> store a o v ns = inr ns' -> P ns') ->
  P defaults ->
  forall argv ns, parse_args argv = Namespace ns -> P ns.
Proof.
  intros Hstore Hd argv ns. unfold parse_args.
  destruct (classify argv) as [e|tokens] eqn:E; [discriminate|].
  apply (consume_keeps P Hstore (List.length tokens) tokens (le_n _));
    [now apply (classify_known argv)|exact Hd].
Qed.

End Stored.

Section Typed.

Import train.

(** What [store] does to the attributes. *)
Lemma store_sets (a : argument) (o v : string) (ns ns' : Dict.t arg_value) :
  store a o v ns = inr ns' ->
  exists x, ns' = Dict.set (dest a) x ns
            /\ ((v = "--" /\ x = AEmptyList)
                \/ (v <> "--" /\ get_value (type a) v = Some x /\ check_value a v = true)).
Proof.
  unfold store. destruct (String.eqb_spec v "--") as [->|Hv].
  - intros [= <-]. exists AEmptyList. split; [reflexivity|now left].
  - destruct (get_value (type a) v) as [x|]; [|discriminate].
    destruct (check_value a v) eqn:E; [|discriminate].
    intros [= <-]. exists x. split; [reflexivity|now right].
Qed.

(** No two arguments of the parser share a destination. *)
Lemma dest_injective (a a' : argument) :
  In a arguments -> In a' arguments -> dest a = dest a' -> a = a'.
Proof.
  unfold arguments. intros Ha Ha'.
  repeat (destruct Ha as [<-|Ha];
          [ repeat (destruct Ha' as [<-|Ha'];
                    [ intros H; first [reflexivity|discriminate H] | ]);
            contradiction | ]).
  contradiction.
Qed.

Lemma dest_in_defaults (a : argument) :
  In a arguments -> In (dest a) (Dict.keys defaults).
Proof.
  intros H. unfold defaults, Dict.keys. rewrite map_map. cbn [fst].
  now apply (in_map dest).
Qed.

Lemma attr_defaults (a : argument) :
  In a arguments -> attr (dest a) defaults = default a.
Proof.
  unfold arguments. intros H.
  repeat (destruct H as [<-|H]; [reflexivity|]). contradiction.
Qed.

Lemma attr_set_same (k : string) (v : arg_value) (ns : Dict.t arg_value) :
  attr k (Dict.set k v ns) = v.
Proof. unfold attr, Dict.get_default. now rewrite get_set_eq. Qed.

Lemma attr_set_other (k k' : string) (v : arg_value) (ns : Dict.t arg_value) :
  k <> k' -> attr k (Dict.set k' v ns) = attr k ns.
Proof. intros H. unfold attr, Dict.get_default. now rewrite get_set_ne. Qed.

(** The parse keeps the attributes of the defaults, and each holds an
    admissible value. *)
Lemma parse_args_keys (argv : list string) (ns : Dict.t arg_value) :
  parse_args argv = Namespace ns -> Dict.keys ns = Dict.keys defaults.
Proof.
  apply (parse_args_keeps (fun ns => Dict.keys ns = Dict.keys defaults)); [|reflexivity].
  intros a o v ns0 ns' Ha Hns H.
  apply store_sets in H as [x [-> _]].
  rewrite keys_set.
  assert (M : Dict.mem (dest a) ns0 = true).
  { apply mem_keys. rewrite Hns. now apply dest_in_defaults. }
  now rewrite M.
Qed.

Lemma parse_args_admissible (argv : list string) (ns : Dict.t arg_value) :
  parse_args argv = Namespace ns ->
  forall a, In a arguments -> Laws.admissible a (attr (dest a) ns).
Proof.
  apply (parse_args_keeps
           (fun ns => forall a, In a arguments -> Laws.admissible a (attr (dest a) ns))).
  - intros a o v ns0 ns' Ha Hns H a' Ha'.
    apply store_sets in H as [x [-> Hx]].
    destruct (String.eqb_spec (dest a') (dest a)) as [E|E].
    + rewrite E, attr_set_same.
      rewrite (dest_injective a' a Ha' Ha E).
      destruct Hx as [[_ ->]|[_ [Hv Hc]]]; [right; now left|].
      right; right. now exists v.
    + rewrite attr_set_other by exact E. now apply Hns.
  - intros a Ha. left. now apply attr_defaults.
Qed.

(** The type of an admissible value. *)
Lemma admissible_type (a : argument) (v : arg_value) :
  In a arguments -> Laws.admissible a v ->
  match v with
  | AStr _ => type a = TStr
  | AInt _ => type a = TInt
  | AFloat _ => type a = TFloat
  | ANone => dest a = "wandb_run_name"
  | AEmptyList => True
  end.
Proof.
  intros Ha [->|[->|[s [Hv _]]]]; [|exact I|].
  - unfold arguments in Ha.
    repeat (destruct Ha as [<-|Ha]; [reflexivity|]). contradiction.
  - unfold get_value in Hv. destruct (type a).
    + now injection Hv as <-.
    + destruct (Num.py_int s); [|discriminate]. now injection Hv as <-.
    + destruct (Float.py_float s); [|discriminate]. now injection Hv as <-.
Qed.

End Typed.

(** X11.  Whatever the command line, the attributes the parser returns
    are the fifteen of the defaults, each one there, and each holds its
    default, the conversion to the type of its option of a string that
    passes the check of its choices, or the empty list that [--option=--]
    leaves: an option of type [int] never holds a string.  The task name
    is one of the nine tasks (or that empty list). *)
Theorem parsed_arguments_are_typed (argv : list string) (ns : Dict.t train.arg_value) :
  train.parse_args argv = train.Namespace ns ->
  Dict.keys ns = map train.dest train.arguments
  /\ (forall a, In a train.arguments -> Laws.admissible a (train.attr (train.dest a) ns))
  /\ (forall a, In a train.arguments ->
        match train.attr (train.dest a) ns with
        | train.AStr _ => train.type a = train.TStr
        | train.AInt _ => train.type a = train.TInt
        | train.AFloat _ => train.type a = train.TFloat
        | train.ANone => train.dest a = "wandb_run_name"
        | train.AEmptyList => True
        end)
  /\ (train.attr "task_name" ns = train.AEmptyList
      \/ exists t, train.attr "task_name" ns = train.AStr t /\ In t train.glue_tasks).
Proof.
  intros H. pose proof (parse_args_admissible argv ns H) as Hadm.
  split; [|split; [|split]].
  - rewrite (parse_args_keys argv ns H). unfold train.defaults, Dict.keys.
    now rewrite map_map.
  - exact Hadm.
  - intros a Ha. apply admissible_type; [exact Ha|now apply Hadm].
  - assert (Ht : In train.task_name_argument train.arguments) by (right; now left).
    destruct (Hadm _ Ht) as [E|[E|[s [Hv Hc]]]].
    + right. exists "mrpc". split; [exact E|]. right; right; now left.
    + now left.
    + right. exists s. cbn [train.type train.task_name_argument train.get_value] in Hv.
      injection Hv as E. split; [now symmetry|].
      unfold train.check_value in Hc. cbn [train.choices train.task_name_argument] in Hc.
      apply existsb_exists in Hc as [t [Ht' Hs]]. apply String.eqb_eq in Hs. now subst.
Qed.

Lemma parsed_arguments_are_typed_witness :
  exists ns,
    train.parse_args ["--epochs"; "5"; "--task_name=rte"; "--lr"; "1e-3"] = train.Namespace ns
    /\ Dict.keys ns = map train.dest train.arguments
    /\ (train.attr "task_name" ns = train.AEmptyList
        \/ exists t, train.attr "task_name" ns = train.AStr t /\ In t train.glue_tasks).
Proof.
  eexists. split; [vm_compute; reflexivity|].
  refine (let H := parsed_arguments_are_typed
                     ["--epochs"; "5"; "--task_name=rte"; "--lr"; "1e-3"] _ _ in
          conj (proj1 H) (proj2 (proj2 (proj2 H)))).
  vm_compute. reflexivity.
Defined.

(** ** One more option at the end of the command line *)

Section Appended.

Import train.

(** The option strings of the arguments select their arguments, with the
    value that follows and with the value attached. *)
Lemma option_string_selects (a : argument) (o : string) :
  In a arguments -> In o (option_strings a) ->
  String.eqb o "--" = false
  /\ parse_optional o = inr (Some (Some (Store a), o, None))
  /\ forall v, String.eqb (o ++ "=" ++ v) "--" = false
               /\ parse_optional (o ++ "=" ++ v) = inr (Some (Some (Store a), o, Some v)).
Proof.
  unfold arguments. intros Ha Ho.
  repeat (destruct Ha as [<-|Ha];
          [ cbn [option_strings simple task_name_argument] in Ho;
            repeat (destruct Ho as [<-|Ho];
                    [ split; [reflexivity|]; split; [reflexivity|];
                      intros v; split; reflexivity | ]);
            contradiction | ]).
  contradiction.
Qed.

(** With something left over the parse returns no attributes. *)
Lemma consume_leftover (n : nat) :
  forall tokens, (List.length tokens <= n)%nat ->
  forall ns extras ns', extras <> [] -> consume tokens ns extras <> Namespace ns'.
Proof.
  induction n as [|n IH]; intros tokens Hlen ns extras ns' Hex.
  { destruct tokens; [|simpl in Hlen; lia]. cbn [consume]. now destruct extras. }
  destruct tokens as [|t tokens]; [cbn [consume]; now destruct extras|].
  simpl in Hlen. assert (Hn : (List.length tokens <= n)%nat) by lia.
  assert (Hmore : forall s, (extras ++ [s])%list <> []) by (intros s; now destruct extras).
  destruct t as [s| |[[|a]|] o [e|]]; cbn [consume];
    try (apply IH; [exact Hn|apply Hmore]); try discriminate.
  - destruct (String.eqb o "-h" && negb (String.eqb e "") && only_h e); discriminate.
  - destruct (store a o e ns) as [err|ns1]; [discriminate|]. now apply IH.
  - destruct tokens as [|[v| |x y z] tokens]; try discriminate.
    destruct (store a o v ns) as [err|ns1]; [discriminate|].
    simpl in Hn. apply IH; [lia|exact Hex].
Qed.

(** A parse that returns attributes goes on from them when more tokens
    follow; it has seen no [--]. *)
Lemma consume_more (n : nat) :
  forall tokens, (List.length tokens <= n)%nat ->
  forall ns extras ns', consume tokens ns extras = Namespace ns' ->
  ~ In TDashes tokens
  /\ forall more, consume (tokens ++ more) ns extras = consume more ns' [].
Proof.
  induction n as [|n IH]; intros tokens Hlen ns extras ns'.
  { destruct tokens; [|simpl in Hlen; lia]. cbn [consume].
    destruct extras; [|discriminate]. intros [= <-]. split; [intros []|reflexivity]. }
  destruct tokens as [|t tokens].
  { cbn [consume]. destruct extras; [|discriminate]. intros [= <-].
    split; [intros []|reflexivity]. }
  simpl in Hlen. assert (Hn : (List.length tokens <= n)%nat) by lia.
  assert (Hmore : forall s, (extras ++ [s])%list <> []) by (intros s; now destruct extras).
  destruct t as [s| |[[|a]|] o [e|]]; cbn [consume app];
    try (intros H; now apply (consume_leftover n tokens Hn) in H); try discriminate.
  - destruct (String.eqb o "-h" && negb (String.eqb e "") && only_h e); discriminate.
  - destruct (store a o e ns) as [err|ns1]; [discriminate|]. intros H.
    destruct (IH tokens Hn ns1 extras ns' H) as [Hd Happ].
    split; [intros [X|X]; [discriminate X|contradiction]|exact Happ].
  - destruct tokens as [|[v| |x y z] tokens]; try discriminate.
    cbn [app]. destruct (store a o v ns) as [err|ns1]; [discriminate|]. intros H.
    simpl in Hn. destruct (IH tokens ltac:(lia) ns1 extras ns' H) as [Hd Happ].
    split; [intros [X|[X|X]]; [discriminate X|discriminate X|contradiction]|exact Happ].
Qed.

(** The first pass goes string by string as long as there is no [--]. *)
Lemma classify_more (argv more : list string) (tokens : list token) :
  classify argv = inr tokens -> ~ In TDashes tokens ->
  classify (argv ++ more)
  = match classify more with
    | inl e => inl e
    | inr tokens' => inr (tokens ++ tokens')%list
    end.
Proof.
  revert tokens. induction argv as [|s argv IH]; intros tokens; cbn [classify app].
  - intros [= <-] _. now destruct (classify more).
  - destruct (String.eqb s "--").
    + intros [= <-] H. exfalso. apply H. now left.
    + destruct (parse_optional s) as [e|t]; [discriminate|].
      destruct (classify argv) as [e|ts]; [discriminate|].
      intros [= <-] H. rewrite (IH ts eq_refl).
      * now destruct (classify more).
      * intros X. apply H. now right.
Qed.

Lemma parse_args_more (argv more : list string) (ns : Dict.t arg_value) (tokens : list token) :
  parse_args argv = Namespace ns -> classify more = inr tokens ->
  parse_args (argv ++ more) = consume tokens ns [].
Proof.
  unfold parse_args. destruct (classify argv) as [e|ts] eqn:E; [discriminate|].
  intros H Hm.
  destruct (consume_more (List.length ts) ts (le_n _) defaults [] ns H) as [Hd Happ].
  now rewrite (classify_more argv more ts E Hd), Hm, Happ.
Qed.

End Appended.

(** X12.  Options are taken from left to right, and one more at the end
    overrides what came before it.  When a command line is accepted, the
    same command line followed by an option of the parser and a value the
    option accepts is accepted too, the value given as the next string or
    attached with [=]; the attribute of the option holds the converted
    value, and no other attribute changes. *)
Theorem later_option_overrides (argv : list string) (ns : Dict.t train.arg_value)
    (a : train.argument) (o v : string) (x : train.arg_value) :
  train.parse_args argv = train.Namespace ns ->
  In a train.arguments -> In o (train.option_strings a) ->
  train.parse_optional v = inr None ->
  train.get_value (train.type a) v = Some x -> train.check_value a v = true ->
  train.parse_args (argv ++ [o; v]) = train.Namespace (Dict.set (train.dest a) x ns)
  /\ train.parse_args (argv ++ [o ++ "=" ++ v]) = train.Namespace (Dict.set (train.dest a) x ns)
  /\ train.attr (train.dest a) (Dict.set (train.dest a) x ns) = x
  /\ forall a', In a' train.arguments -> a' <> a ->
       train.attr (train.dest a') (Dict.set (train.dest a) x ns) = train.attr (train.dest a') ns.
Proof.
  intros Hns Ha Ho Hv Hx Hc.
  destruct (option_string_selects a o Ha Ho) as [Hd [Hsel Heq]].
  destruct (Heq v) as [Hd' Hsel'].
  assert (Hvd : String.eqb v "--" = false).
  { destruct (String.eqb_spec v "--") as [->|]; [discriminate Hv|reflexivity]. }
  assert (Hstore : train.store a o v ns = inr (Dict.set (train.dest a) x ns)).
  { unfold train.store. now rewrite Hvd, Hx, Hc. }
  split; [|split; [|split]].
  - rewrite (parse_args_more argv [o; v] ns
               [train.TOpt (Some (train.Store a)) o None; train.TArg v] Hns).
    + cbn [train.consume]. now rewrite Hstore.
    + cbn [train.classify]. now rewrite Hd, Hsel, Hvd, Hv.
  - rewrite (parse_args_more argv [o ++ "=" ++ v] ns
               [train.TOpt (Some (train.Store a)) o (Some v)] Hns).
    + cbn [train.consume]. now rewrite Hstore.
    + cbn [train.classify]. now rewrite Hd', Hsel'.
  - apply attr_set_same.
  - intros a' Ha' Hne. apply attr_set_other. intros E. apply Hne.
    now apply dest_injective.
Qed.

Lemma later_option_overrides_witness :
  train.parse_args ["--epochs"; "5"; "--seed"; "7"; "--epochs"; "9"]
  = train.Namespace (Dict.set "epochs" (train.AInt 9)
                       (Dict.set "seed" (train.AInt 7)
                          (Dict.set "epochs" (train.AInt 5) train.defaults))).
Proof.
  destruct (later_option_overrides ["--epochs"; "5"; "--seed"; "7"]
              (Dict.set "seed" (train.AInt 7)
                 (Dict.set "epochs" (train.AInt 5) train.defaults))
              (train.simple "epochs" train.TInt (train.AInt 3)) "--epochs" "9"
              (train.AInt 9)) as [H _].
  - vm_compute. reflexivity.
  - do 3 right. now left.
  - now left.
  - reflexivity.
  - reflexivity.
  - reflexivity.
  - exact H.
Defined.

(** ** The run of [main], call by call *)

Section Pipeline.

Import train.

Variable w : world.
Variable env : string -> option string.

(** The steps are performed up to the first call that raises. *)
Lemma perform_all_cases (l : list Laws.step) (k : T unit) (h : list event) :
  (exists l1 c l2 msg,
      l = (l1 ++ Laws.Do c :: l2)%list
      /\ raises w (h ++ map Laws.event_of l1)%list c = Some msg
      /\ Laws.perform_all w l k h
         = (((h ++ map Laws.event_of l1) ++ [Call c])%list, inl (Exception msg)))
  \/ Laws.perform_all w l k h = k (h ++ map Laws.event_of l)%list.
Proof.
  revert h. induction l as [|s l IH]; intros h.
  - right. cbn [Laws.perform_all map]. now rewrite app_nil_r.
  - cbn [Laws.perform_all bind Monad_T]. destruct s as [c|line]; cbn [Laws.perform].
    + unfold train.do. destruct (raises w h c) as [msg|] eqn:E; cbv beta iota.
      * left. exists [], c, l, msg. cbn [map app]. rewrite app_nil_r. now repeat split.
      * destruct (IH (h ++ [Call c])%list) as [[l1 [c' [l2 [msg [-> [Hr Hrun]]]]]]|Hrun].
        -- left. exists (Laws.Do c :: l1), c', l2, msg. cbn [map app Laws.event_of].
           rewrite <- (app_assoc h [Call c]) in Hr, Hrun. cbn [app] in Hr, Hrun.
           now repeat split.
        -- right. rewrite Hrun. cbn [map Laws.event_of]. now rewrite <- app_assoc.
    + unfold print, emit. cbv beta iota.
      destruct (IH (h ++ [Stdout line])%list) as [[l1 [c' [l2 [msg [-> [Hr Hrun]]]]]]|Hrun].
      * left. exists (Laws.Say line :: l1), c', l2, msg. cbn [map app Laws.event_of].
        rewrite <- (app_assoc h [Stdout line]) in Hr, Hrun. cbn [app] in Hr, Hrun.
        now repeat split.
      * right. rewrite Hrun. cbn [map Laws.event_of]. now rewrite <- app_assoc.
Qed.

(** The credential block returns, and makes no call but on the file. *)
Lemma configure_wandb_on_file (h : list event) :
  exists evs,
    configure_wandb w env h = ((h ++ evs)%list, inr tt) /\ Laws.pipeline_calls evs = [].
Proof.
  unfold configure_wandb.
  destruct (truthy (env "WANDB_API_KEY") && negb (is_offline (env "WANDB_MODE"))).
  - unfold try_except_Exception, with_open, do, print, emit.
    cbn [bind ret Monad_T].
    repeat match goal with
           | |- context [raises w ?hist ?c] => destruct (raises w hist c) eqn:?
           end;
      rewrite <- ?app_assoc; cbn [app]; eexists; split; reflexivity.
  - exists []. now rewrite app_nil_r.
Qed.

Lemma pipeline_calls_app (h1 h2 : list event) :
  Laws.pipeline_calls (h1 ++ h2) = (Laws.pipeline_calls h1 ++ Laws.pipeline_calls h2)%list.
Proof. apply flat_map_app. Qed.

Lemma calls_of_app (l1 l2 : list Laws.step) :
  Laws.calls_of (l1 ++ l2) = (Laws.calls_of l1 ++ Laws.calls_of l2)%list.
Proof. apply flat_map_app. Qed.

(** The steps of [main] are no calls on the credential file. *)
Let clean (s : Laws.step) : Prop :=
  match s with
  | Laws.Do c => Laws.file_operation c = false
  | Laws.Say _ => True
  end.

Lemma pipeline_calls_steps (l : list Laws.step) :
  Forall clean l -> Laws.pipeline_calls (map Laws.event_of l) = Laws.calls_of l.
Proof.
  induction 1 as [|s l Hs _ IH]; [reflexivity|].
  cbn [map Laws.pipeline_calls Laws.calls_of flat_map] in *.
  fold (Laws.pipeline_calls (map Laws.event_of l)). fold (Laws.calls_of l).
  rewrite IH. destruct s as [c|line]; cbn [Laws.event_of clean] in *; [|reflexivity].
  now rewrite Hs.
Qed.

Lemma steps_clean (args : Dict.t arg_value) :
  Forall clean (Laws.steps_before args) /\ Forall clean (Laws.steps_after w args).
Proof. split; repeat constructor. Qed.

Lemma firstn_length_app {A : Type} (a b : list A) : firstn (List.length a) (a ++ b) = a.
Proof. induction a as [|x a IH]; simpl; [reflexivity|now rewrite IH]. Qed.

(** [main] performs its steps around the credential block. *)
Lemma main_steps (argv : list string) (args : Dict.t arg_value) (h : list event) :
  parse_args argv = Namespace args ->
  main w env argv h
  = Laws.perform_all w (Laws.steps_before args)
      (configure_wandb w env ;; Laws.perform_all w (Laws.steps_after w args) (ret tt)) h.
Proof. intros H. unfold main. rewrite H. reflexivity. Qed.

(** A run with parsed arguments stops at a call that raises, or goes
    through the whole pipeline. *)
Lemma run_cases (argv : list string) (args : Dict.t arg_value) :
  parse_args argv = Namespace args ->
  (exists l1 c l2 msg h0,
      (Laws.steps_before args ++ Laws.steps_after w args)%list = (l1 ++ Laws.Do c :: l2)%list
      /\ run w env argv = ((h0 ++ [Call c])%list, inl (Exception msg))
      /\ raises w h0 c = Some msg
      /\ Laws.file_operation c = false
      /\ Laws.pipeline_calls h0 = Laws.calls_of l1)
  \/ (exists h, run w env argv = (h, inr tt)
                /\ Laws.pipeline_calls h = Laws.pipeline w args).
Proof.
  intros Hargs. unfold run. rewrite (main_steps argv args [] Hargs).
  destruct (steps_clean args) as [Cb Ca].
  destruct (perform_all_cases (Laws.steps_before args)
              (configure_wandb w env ;; Laws.perform_all w (Laws.steps_after w args) (ret tt)) [])
    as [[l1 [c [l2 [msg [Hl [Hr Hrun]]]]]]|Hrun].
  - left. exists l1, c, (l2 ++ Laws.steps_after w args)%list, msg, ([] ++ map Laws.event_of l1)%list.
    rewrite Hl in Cb. apply Forall_app in Cb as [C1 C2].
    apply Forall_cons_iff in C2 as [Cc _].
    split; [now rewrite Hl, <- app_assoc|]. split; [exact Hrun|]. split; [exact Hr|].
    split; [exact Cc|]. cbn [app]. now apply pipeline_calls_steps.
  - rewrite Hrun. cbn [app bind Monad_T].
    destruct (configure_wandb_on_file (map Laws.event_of (Laws.steps_before args)))
      as [evs [Hc Hevs]].
    rewrite Hc.
    destruct (perform_all_cases (Laws.steps_after w args) (ret tt)
                (map Laws.event_of (Laws.steps_before args) ++ evs)%list)
      as [[l1 [c [l2 [msg [Hl [Hr Hrun']]]]]]|Hrun'].
    + left. exists (Laws.steps_before args ++ l1)%list, c, l2, msg,
        ((map Laws.event_of (Laws.steps_before args) ++ evs) ++ map Laws.event_of l1)%list.
      rewrite Hl in Ca. apply Forall_app in Ca as [C1 C2].
      apply Forall_cons_iff in C2 as [Cc _].
      split; [now rewrite Hl, <- app_assoc|]. split; [exact Hrun'|]. split; [exact Hr|].
      split; [exact Cc|].
      rewrite !pipeline_calls_app, Hevs, app_nil_r, calls_of_app.
      now rewrite !pipeline_calls_steps.
    + right. eexists. split; [exact Hrun'|].
      rewrite !pipeline_calls_app, Hevs, app_nil_r.
      unfold Laws.pipeline. rewrite calls_of_app. now rewrite !pipeline_calls_steps.
Qed.

End Pipeline.

(** X13.  The calls of a run follow the pipeline of [main]: the seed, the
    checkpoint directory, the logger and its configuration, the data
    module and its setup, the model, the checkpoint callback, the trainer,
    the fit, the end of the W&B run.  Whatever raises, the calls the run
    has made (those on the credential file apart) are the first ones of
    this list, in this order, each made once; a run that returns has made
    them all.  So the model is never fitted before the seed is set and the
    logger is there, and the W&B run is ended only after the fit. *)
Theorem main_follows_pipeline (w : train.world) (env : string -> option string)
    (argv : list string) (args : Dict.t train.arg_value) :
  train.parse_args argv = train.Namespace args ->
  let calls := Laws.pipeline_calls (fst (train.run w env argv)) in
  (exists n, calls = firstn n (Laws.pipeline w args))
  /\ (snd (train.run w env argv) = inr tt -> calls = Laws.pipeline w args)
  /\ (calls = Laws.pipeline w args ->
      snd (train.run w env argv) = inr tt
      \/ exists msg, snd (train.run w env argv) = inl (train.Exception msg)
                     /\ train.raises w (removelast (fst (train.run w env argv))) train.WandbFinish
                        = Some msg)
  /\ List.length (Laws.pipeline w args) = 11%nat.
Proof.
  intros Hargs calls. subst calls.
  assert (Hlen : List.length (Laws.pipeline w args) = 11%nat).
  { now cbv [List.length Laws.pipeline Laws.calls_of Laws.steps_before Laws.steps_after
             app flat_map]. }
  destruct (run_cases w env argv args Hargs)
    as [[l1 [c [l2 [msg [h0 [Hl [Hrun [Hr [Hc Hcalls]]]]]]]]]|[h [Hrun Hcalls]]];
    rewrite Hrun; cbn [fst snd].
  - assert (Hpre : Laws.pipeline_calls (h0 ++ [train.Call c])
                   = (Laws.calls_of l1 ++ [c])%list).
    { rewrite pipeline_calls_app, Hcalls. cbn [Laws.pipeline_calls flat_map].
      now rewrite Hc. }
    assert (Hpipe : Laws.pipeline w args = ((Laws.calls_of l1 ++ [c]) ++ Laws.calls_of l2)%list).
    { unfold Laws.pipeline. rewrite Hl, calls_of_app. cbn [Laws.calls_of flat_map app].
      now rewrite <- app_assoc. }
    split; [|split; [|split]].
    + exists (List.length (Laws.calls_of l1 ++ [c])%list).
      now rewrite Hpre, Hpipe, firstn_length_app.
    + discriminate.
    + intros Hall. right. exists msg. split; [reflexivity|].
      rewrite removelast_last.
      rewrite Hpre, Hpipe in Hall.
      assert (Hnil : Laws.calls_of l2 = []).
      { apply (f_equal (@List.length train.call)) in Hall. rewrite !length_app in Hall.
        destruct (Laws.calls_of l2); [reflexivity|simpl in Hall; lia]. }
      assert (Hlast : last (Laws.pipeline w args) train.Fit = c).
      { rewrite Hpipe, Hnil, app_nil_r. apply last_last. }
      cbn in Hlast. now subst c.
    + exact Hlen.
  - split; [|split; [|split]].
    + exists (List.length (Laws.pipeline w args)). now rewrite Hcalls, firstn_all.
    + intros _. exact Hcalls.
    + intros _. now left.
    + exact Hlen.
Qed.

Lemma main_follows_pipeline_witness :
  Laws.pipeline_calls (fst (train.run Worlds.quiet Worlds.with_key ["--epochs"; "5"]))
  = Laws.pipeline Worlds.quiet (Dict.set "epochs" (train.AInt 5) train.defaults).
Proof.
  destruct (main_follows_pipeline Worlds.quiet Worlds.with_key ["--epochs"; "5"]
              (Dict.set "epochs" (train.AInt 5) train.defaults)) as [_ [H _]].
  - reflexivity.
  - apply H. reflexivity.
Defined.

(** X14.  How a run of the training script ends.  It returns only after
    the whole pipeline.  It exits with a status only from the parser,
    before any call: status 2 after a usage message, status 0 after the
    help.  An exception ends it at the call that raised it, which is the
    last event of the run and no call on the credential file: what those
    raise is caught.  The exit status is 0, 1 or 2 accordingly. *)
Theorem run_outcomes (w : train.world) (env : string -> option string) (argv : list string) :
  match snd (train.run w env argv) with
  | inr _ =>
      exists args, train.parse_args argv = train.Namespace args
                   /\ Laws.pipeline_calls (fst (train.run w env argv)) = Laws.pipeline w args
                   /\ train.exit_status (snd (train.run w env argv)) = 0
  | inl (train.SystemExit code) =>
      (exists e, train.parse_args argv = train.Usage e /\ code = 2
                 /\ fst (train.run w env argv) = [train.UsageMessage e])
      \/ (train.parse_args argv = train.Help /\ code = 0
          /\ fst (train.run w env argv) = [train.HelpMessage])
  | inl (train.Exception msg) =>
      exists h c, fst (train.run w env argv) = (h ++ [train.Call c])%list
                  /\ train.raises w h c = Some msg
                  /\ Laws.file_operation c = false
                  /\ train.exit_status (snd (train.run w env argv)) = 1
  end.
Proof.
  destruct (train.parse_args argv) as [args|e|] eqn:Hargs.
  - destruct (run_cases w env argv args Hargs)
      as [[l1 [c [l2 [msg [h0 [Hl [Hrun [Hr [Hc Hcalls]]]]]]]]]|[h [Hrun Hcalls]]];
      rewrite Hrun; cbn [fst snd].
    + exists h0, c. now repeat split.
    + exists args. cbn [train.exit_status]. now repeat split.
  - unfold train.run, train.main. rewrite Hargs. cbn. left. exists e. now repeat split.
  - unfold train.run, train.main. rewrite Hargs. cbn. right. now repeat split.
Qed.

Lemma run_outcomes_witness :
  (exists e,
     train.parse_args ["--epochs"; "three"] = train.Usage e /\ 2 = 2
     /\ fst (train.run Worlds.quiet Worlds.with_key ["--epochs"; "three"])
        = [train.UsageMessage e])
  \/ (train.parse_args ["--epochs"; "three"] = train.Help /\ 2 = 0
      /\ fst (train.run Worlds.quiet Worlds.with_key ["--epochs"; "three"])
         = [train.HelpMessage]).
Proof. exact (run_outcomes Worlds.quiet Worlds.with_key ["--epochs"; "three"]). Defined.

(** ** The command lines the parser accepts *)

Section Accepted.

Import train.

Lemma dashes_ambiguous : parse_optional "--" = inl (AmbiguousOption "--").
Proof. reflexivity. Qed.

Lemma parse_optional_not_dashes (s : string) (t : option (option action * string * option string)) :
  parse_optional s = inr t -> String.eqb s "--" = false.
Proof.
  destruct (String.eqb_spec s "--") as [->|]; [|reflexivity].
  rewrite dashes_ambiguous. discriminate.
Qed.

(** The two passes of the parser amount to one pass, option by option. *)
Lemma consume_reads (n : nat) :
  forall argv, (List.length argv <= n)%nat ->
  forall tokens ns0 ns,
    classify argv = inr tokens -> consume tokens ns0 [] = Namespace ns ->
    Laws.reads ns0 argv ns.
Proof.
  induction n as [|n IH]; intros argv Hlen tokens ns0 ns.
  { destruct argv; [|simpl in Hlen; lia]. cbn [classify]. intros [= <-].
    cbn [consume]. intros [= <-]. constructor. }
  destruct argv as [|s argv].
  { cbn [classify]. intros [= <-]. cbn [consume]. intros [= <-]. constructor. }
  simpl in Hlen. cbn [classify].
  destruct (String.eqb s "--").
  { intros [= <-]. cbn [consume]. intros H.
    now apply (consume_leftover _ _ (le_n _)) in H. }
  destruct (parse_optional s) as [e|t] eqn:Es; [discriminate|].
  destruct (classify argv) as [e|ts] eqn:Ec; [discriminate|].
  intros [= <-].
  destruct t as [[[[[|a]|] o] [v|]]|]; cbn [consume];
    try discriminate;
    try (intros H; now apply (consume_leftover _ _ (le_n _)) in H).
  - destruct (String.eqb o "-h" && negb (String.eqb v "") && only_h v); discriminate.
  - destruct (store a o v ns0) as [err|ns1] eqn:Est; [discriminate|]. intros H.
    apply (Laws.reads_attached ns0 ns1 ns s v argv a o Es Est).
    apply (IH argv ltac:(lia) ts ns1 ns Ec H).
  - destruct argv as [|v argv].
    { cbn [classify] in Ec. injection Ec as <-. discriminate. }
    cbn [classify] in Ec. simpl in Hlen.
    destruct (String.eqb v "--"); [injection Ec as <-; discriminate|].
    destruct (parse_optional v) as [e|tv] eqn:Ev; [discriminate|].
    destruct (classify argv) as [e|ts'] eqn:Ec'; [discriminate|].
    injection Ec as <-.
    destruct tv as [[[av ov] ev]|]; [discriminate|].
    destruct (store a o v ns0) as [err|ns1] eqn:Est; [discriminate|]. intros H.
    apply (Laws.reads_option ns0 ns1 ns s v argv a o Es Ev Est).
    apply (IH argv ltac:(lia) ts' ns1 ns Ec' H).
Qed.

Lemma reads_consume (argv : list string) (ns0 ns : Dict.t arg_value) :
  Laws.reads ns0 argv ns ->
  exists tokens, classify argv = inr tokens /\ consume tokens ns0 [] = Namespace ns.
Proof.
  induction 1 as [ns|ns ns1 ns2 s v rest a o Hs Hv Hst _ [ts [Hc Hn]]
                    |ns ns1 ns2 s v rest a o Hs Hst _ [ts [Hc Hn]]].
  - exists []. now split.
  - exists (TOpt (Some (Store a)) o None :: TArg v :: ts). cbn [classify consume].
    rewrite (parse_optional_not_dashes s _ Hs), Hs.
    rewrite (parse_optional_not_dashes v _ Hv), Hv, Hc, Hst. now split.
  - exists (TOpt (Some (Store a)) o (Some v) :: ts). cbn [classify consume].
    rewrite (parse_optional_not_dashes s _ Hs), Hs, Hc, Hst. now split.
Qed.

End Accepted.

(** X15.  The command lines the parser accepts, and what it returns for
    them.  The parser returns attributes exactly when the command line is
    a sequence of options of the parser (or abbreviations that select
    one), each with a value it accepts: the string after the option, which
    must not look like an option itself, or the value attached to it with
    [=].  The attributes are the
    defaults with the values stored one after the other, from left to
    right.  So a string that is left over on its own, a [--], an unknown
    option or an option without its value is never passed over. *)
Theorem accepted_command_lines (argv : list string) (ns : Dict.t train.arg_value) :
  train.parse_args argv = train.Namespace ns <-> Laws.reads train.defaults argv ns.
Proof.
  unfold train.parse_args. split.
  - destruct (train.classify argv) as [e|tokens] eqn:E; [discriminate|].
    apply (consume_reads (List.length argv) argv (le_n _) tokens). exact E.
  - intros H. apply reads_consume in H as [tokens [Hc Hn]]. now rewrite Hc.
Qed.

Lemma accepted_command_lines_witness :
  train.parse_args ["--task_name"; "rte"; "--lr=1e-3"]
  = train.Namespace (Dict.set "learning_rate" (train.AFloat (Float.of_decimal false 1 (-3)))
                       (Dict.set "task_name" (train.AStr "rte") train.defaults)).
Proof.
  apply (proj2 (accepted_command_lines ["--task_name"; "rte"; "--lr=1e-3"] _)).
  eapply Laws.reads_option; [reflexivity|reflexivity|reflexivity|].
  eapply Laws.reads_attached; [reflexivity|vm_compute; reflexivity|].
  apply Laws.reads_end.
Defined.

(** ** The integers a file name can hold *)

Section Range.

Import verify_performance.












Variable bound : nat.






End Range.


Section VerdictCases.

Import verify_performance.





End VerdictCases.


